(** * Astro_Chat: the real-time session controller

    A shallow embedding of the WebSocket hook [useWebSocket] (lib/useWebSocket)
    and of the send / typing handlers of the chat page (app/chats/page.tsx),
    run on a small model of the browser: the monotonic clock and the timer
    queue behind [setTimeout] / [clearTimeout], the system clock behind
    [Date.now()], and the [WebSocket] objects with their [readyState].
    React state and refs are fields of one [World] record; closures are
    represented by the values they capture.

    The callbacks the page gives the hook, the token state of
    lib/AuthContext and the member selection of the group modal update
    state the hook never reads; they are embedded as functions on that
    state. *)

From Stdlib Require Import ZArith NArith PArith List String Ascii Bool Lia Sorted.
From stdpp Require Import base decidable option list numbers.
Import ListNotations.
Local Open Scope Z_scope.

(** ** JavaScript strings and JSON values *)

(** A JavaScript string is a sequence of UTF-16 code units. *)
Abbreviation jsstring := (list N).

Fixpoint js (s : string) : jsstring :=
  match s with
  | EmptyString => []
  | String a s' => N_of_ascii a :: js s'
  end.

Arguments js : simpl never.

(** The code units [String.prototype.trim] strips: ECMAScript WhiteSpace and
    LineTerminator. *)
Definition is_whitespace (c : N) : bool :=
  ((9 <=? c) && (c <=? 13) || (c =? 32) || (c =? 160) || (c =? 5760)
   || (8192 <=? c) && (c <=? 8202) || (c =? 8232) || (c =? 8233)
   || (c =? 8239) || (c =? 8287) || (c =? 12288) || (c =? 65279))%N.

Fixpoint trimStart (s : jsstring) : jsstring :=
  match s with
  | c :: s' => if is_whitespace c then trimStart s' else s
  | [] => []
  end.

Definition trimEnd (s : jsstring) : jsstring := rev (trimStart (rev s)).

Definition trim (s : jsstring) : jsstring := trimEnd (trimStart s).

(** The result of [JSON.parse].  Numbers are the integers (identifiers,
    close codes and millisecond clocks are the only numbers the code reads). *)
#[warnings="-register-all"]
Inductive json : Type :=
  | JNull
  | JBool (b : bool)
  | JNum (n : Z)
  | JStr (s : jsstring)
  | JArr (items : list json)
  | JObj (fields : list (jsstring * json)).

Fixpoint assoc (k : jsstring) (fields : list (jsstring * json)) : option json :=
  match fields with
  | [] => None
  | (k', v) :: rest => if decide (k' = k) then Some v else assoc k rest
  end.

(** A property read yields [None] for JavaScript's [undefined]. *)
Definition truthy (v : option json) : bool :=
  match v with
  | None => false
  | Some JNull => false
  | Some (JBool b) => b
  | Some (JNum n) => negb (n =? 0)
  | Some (JStr s) => match s with [] => false | _ => true end
  | Some (JArr _) => true
  | Some (JObj _) => true
  end.

Arguments truthy !v : simpl nomatch.

Definition truthy_string (s : option jsstring) : bool :=
  match s with
  | Some (_ :: _) => true
  | _ => false
  end.

Definition truthy_number (n : option Z) : bool :=
  match n with
  | Some n => negb (n =? 0)
  | None => false
  end.

(** ** lib/type.ts *)

Record IUser := { user_id : Z; username : jsstring; email : jsstring }.

Inductive ConversationType := direct | group.

Record IConversation := {
  conv_id : Z;
  participants : option (list IUser);
  conversation_type : ConversationType
}.

(** [IMessage] as the dispatcher builds it: the three payload fields are
    whatever JSON the frame carried. *)
Record IMessage := {
  msg_id : Z;
  content : json;
  sender : json;
  conversation : Z;
  created_at : json
}.

(** ** The browser *)

Inductive ReadyState := CONNECTING | OPEN | CLOSING | CLOSED.

#[global] Instance ReadyState_eq_dec : EqDecision ReadyState.
Proof. solve_decision. Defined.

(** A [WebSocket] object.  Its URL is kept as the two values spliced into it;
    the four handlers [connect] installs close over the same two values.
    [sent] lists the frames handed to [send], each as the value given to
    [JSON.stringify]; [close_request] is the code passed to [close], if it
    has been called. *)
Record WebSocket := {
  readyState : ReadyState;
  url_conversation : Z;
  url_token : jsstring;
  sent : list json;
  close_request : option (option Z)
}.

(** What a pending timer runs when it fires, with the values its closure
    captured. *)
Inductive TimerCallback :=
  | ReconnectCb (conversationId : option Z) (accessToken : option jsstring)
  | TypingCb (conv : IConversation) (u : IUser) (flag : bool).

Record Timer := { timer_id : positive; due : Z; callback : TimerCallback }.

Inductive exn := SyntaxError | TypeError | InvalidStateError.

Inductive LogEntry :=
  | LogConnected
  | LogDisconnected (code : Z)
  | LogParseError (e : exn)
  | LogWebSocketError
  | LogCreateError (e : exn)
  | LogSendError (e : exn)
  | LogUncaught (e : exn).

(** Calls of the three callbacks given to the hook, in order. *)
Inductive UICall :=
  | OnMessage (m : IMessage)
  | OnTyping (u : json) (is_typing : json)
  | OnUserStatus (users : json) (status : json).

(** A call of the hook's [sendTyping]: when, to whom, which flag. *)
Record TypingCall := { call_time : Z; call_receiver : Z; call_flag : bool }.

(** The state of one page with its hook.  [clock] is the monotonic clock
    the timers run on, in milliseconds; [date_offset] is what the system
    clock, which [Date.now()] reads, is ahead of it.  [ui_calls] and
    [typing_calls] are traces, kept for the statements below: the calls of
    the callbacks the hook was given and the calls of [sendTyping].  No
    handler reads them. *)
Record World := {
  (* browser *)
  clock : Z;
  date_offset : Z;
  timers : list Timer;
  next_timer : positive;
  sockets : list WebSocket;
  console : list LogEntry;
  (* AuthContext *)
  accessToken : option jsstring;
  user : option IUser;
  (* useWebSocket *)
  wsRef : option nat;
  reconnectTimeoutRef : option positive;
  isConnected : bool;
  connectionError : option jsstring;
  ui_calls : list UICall;
  (* ChatsPage *)
  mounted : bool;
  selectedConversation : option IConversation;
  newMessage : jsstring;
  isTyping : bool;
  error : option jsstring;
  typingTimeoutRef : option positive;
  typingDebounceRef : option positive;
  typing_calls : list TypingCall
}.

(** Field updates. *)

Definition set_clock (v : Z) (w : World) : World :=
  {| clock := v; date_offset := date_offset w;
     timers := timers w; next_timer := next_timer w;
     sockets := sockets w; console := console w;
     accessToken := accessToken w; user := user w;
     wsRef := wsRef w; reconnectTimeoutRef := reconnectTimeoutRef w;
     isConnected := isConnected w; connectionError := connectionError w;
     ui_calls := ui_calls w; mounted := mounted w;
     selectedConversation := selectedConversation w;
     newMessage := newMessage w; isTyping := isTyping w; error := error w;
     typingTimeoutRef := typingTimeoutRef w;
     typingDebounceRef := typingDebounceRef w; typing_calls := typing_calls w |}.

Definition set_date_offset (v : Z) (w : World) : World :=
  {| clock := clock w; date_offset := v;
     timers := timers w; next_timer := next_timer w;
     sockets := sockets w; console := console w;
     accessToken := accessToken w; user := user w;
     wsRef := wsRef w; reconnectTimeoutRef := reconnectTimeoutRef w;
     isConnected := isConnected w; connectionError := connectionError w;
     ui_calls := ui_calls w; mounted := mounted w;
     selectedConversation := selectedConversation w;
     newMessage := newMessage w; isTyping := isTyping w; error := error w;
     typingTimeoutRef := typingTimeoutRef w;
     typingDebounceRef := typingDebounceRef w; typing_calls := typing_calls w |}.

Definition set_timers (v : list Timer) (w : World) : World :=
  {| clock := clock w; date_offset := date_offset w;
     timers := v; next_timer := next_timer w;
     sockets := sockets w; console := console w;
     accessToken := accessToken w; user := user w;
     wsRef := wsRef w; reconnectTimeoutRef := reconnectTimeoutRef w;
     isConnected := isConnected w; connectionError := connectionError w;
     ui_calls := ui_calls w; mounted := mounted w;
     selectedConversation := selectedConversation w;
     newMessage := newMessage w; isTyping := isTyping w; error := error w;
     typingTimeoutRef := typingTimeoutRef w;
     typingDebounceRef := typingDebounceRef w; typing_calls := typing_calls w |}.

Definition set_next_timer (v : positive) (w : World) : World :=
  {| clock := clock w; date_offset := date_offset w;
     timers := timers w; next_timer := v;
     sockets := sockets w; console := console w;
     accessToken := accessToken w; user := user w;
     wsRef := wsRef w; reconnectTimeoutRef := reconnectTimeoutRef w;
     isConnected := isConnected w; connectionError := connectionError w;
     ui_calls := ui_calls w; mounted := mounted w;
     selectedConversation := selectedConversation w;
     newMessage := newMessage w; isTyping := isTyping w; error := error w;
     typingTimeoutRef := typingTimeoutRef w;
     typingDebounceRef := typingDebounceRef w; typing_calls := typing_calls w |}.

Definition set_sockets (v : list WebSocket) (w : World) : World :=
  {| clock := clock w; date_offset := date_offset w;
     timers := timers w; next_timer := next_timer w;
     sockets := v; console := console w;
     accessToken := accessToken w; user := user w;
     wsRef := wsRef w; reconnectTimeoutRef := reconnectTimeoutRef w;
     isConnected := isConnected w; connectionError := connectionError w;
     ui_calls := ui_calls w; mounted := mounted w;
     selectedConversation := selectedConversation w;
     newMessage := newMessage w; isTyping := isTyping w; error := error w;
     typingTimeoutRef := typingTimeoutRef w;
     typingDebounceRef := typingDebounceRef w; typing_calls := typing_calls w |}.

Definition set_console (v : list LogEntry) (w : World) : World :=
  {| clock := clock w; date_offset := date_offset w;
     timers := timers w; next_timer := next_timer w;
     sockets := sockets w; console := v;
     accessToken := accessToken w; user := user w;
     wsRef := wsRef w; reconnectTimeoutRef := reconnectTimeoutRef w;
     isConnected := isConnected w; connectionError := connectionError w;
     ui_calls := ui_calls w; mounted := mounted w;
     selectedConversation := selectedConversation w;
     newMessage := newMessage w; isTyping := isTyping w; error := error w;
     typingTimeoutRef := typingTimeoutRef w;
     typingDebounceRef := typingDebounceRef w; typing_calls := typing_calls w |}.

Definition set_accessToken (v : option jsstring) (w : World) : World :=
  {| clock := clock w; date_offset := date_offset w;
     timers := timers w; next_timer := next_timer w;
     sockets := sockets w; console := console w;
     accessToken := v; user := user w;
     wsRef := wsRef w; reconnectTimeoutRef := reconnectTimeoutRef w;
     isConnected := isConnected w; connectionError := connectionError w;
     ui_calls := ui_calls w; mounted := mounted w;
     selectedConversation := selectedConversation w;
     newMessage := newMessage w; isTyping := isTyping w; error := error w;
     typingTimeoutRef := typingTimeoutRef w;
     typingDebounceRef := typingDebounceRef w; typing_calls := typing_calls w |}.

Definition set_user (v : option IUser) (w : World) : World :=
  {| clock := clock w; date_offset := date_offset w;
     timers := timers w; next_timer := next_timer w;
     sockets := sockets w; console := console w;
     accessToken := accessToken w; user := v;
     wsRef := wsRef w; reconnectTimeoutRef := reconnectTimeoutRef w;
     isConnected := isConnected w; connectionError := connectionError w;
     ui_calls := ui_calls w; mounted := mounted w;
     selectedConversation := selectedConversation w;
     newMessage := newMessage w; isTyping := isTyping w; error := error w;
     typingTimeoutRef := typingTimeoutRef w;
     typingDebounceRef := typingDebounceRef w; typing_calls := typing_calls w |}.

Definition set_wsRef (v : option nat) (w : World) : World :=
  {| clock := clock w; date_offset := date_offset w;
     timers := timers w; next_timer := next_timer w;
     sockets := sockets w; console := console w;
     accessToken := accessToken w; user := user w;
     wsRef := v; reconnectTimeoutRef := reconnectTimeoutRef w;
     isConnected := isConnected w; connectionError := connectionError w;
     ui_calls := ui_calls w; mounted := mounted w;
     selectedConversation := selectedConversation w;
     newMessage := newMessage w; isTyping := isTyping w; error := error w;
     typingTimeoutRef := typingTimeoutRef w;
     typingDebounceRef := typingDebounceRef w; typing_calls := typing_calls w |}.

Definition set_reconnectTimeoutRef (v : option positive) (w : World) : World :=
  {| clock := clock w; date_offset := date_offset w;
     timers := timers w; next_timer := next_timer w;
     sockets := sockets w; console := console w;
     accessToken := accessToken w; user := user w;
     wsRef := wsRef w; reconnectTimeoutRef := v;
     isConnected := isConnected w; connectionError := connectionError w;
     ui_calls := ui_calls w; mounted := mounted w;
     selectedConversation := selectedConversation w;
     newMessage := newMessage w; isTyping := isTyping w; error := error w;
     typingTimeoutRef := typingTimeoutRef w;
     typingDebounceRef := typingDebounceRef w; typing_calls := typing_calls w |}.

Definition set_isConnected (v : bool) (w : World) : World :=
  {| clock := clock w; date_offset := date_offset w;
     timers := timers w; next_timer := next_timer w;
     sockets := sockets w; console := console w;
     accessToken := accessToken w; user := user w;
     wsRef := wsRef w; reconnectTimeoutRef := reconnectTimeoutRef w;
     isConnected := v; connectionError := connectionError w;
     ui_calls := ui_calls w; mounted := mounted w;
     selectedConversation := selectedConversation w;
     newMessage := newMessage w; isTyping := isTyping w; error := error w;
     typingTimeoutRef := typingTimeoutRef w;
     typingDebounceRef := typingDebounceRef w; typing_calls := typing_calls w |}.

Definition set_connectionError (v : option jsstring) (w : World) : World :=
  {| clock := clock w; date_offset := date_offset w;
     timers := timers w; next_timer := next_timer w;
     sockets := sockets w; console := console w;
     accessToken := accessToken w; user := user w;
     wsRef := wsRef w; reconnectTimeoutRef := reconnectTimeoutRef w;
     isConnected := isConnected w; connectionError := v;
     ui_calls := ui_calls w; mounted := mounted w;
     selectedConversation := selectedConversation w;
     newMessage := newMessage w; isTyping := isTyping w; error := error w;
     typingTimeoutRef := typingTimeoutRef w;
     typingDebounceRef := typingDebounceRef w; typing_calls := typing_calls w |}.

Definition set_ui_calls (v : list UICall) (w : World) : World :=
  {| clock := clock w; date_offset := date_offset w;
     timers := timers w; next_timer := next_timer w;
     sockets := sockets w; console := console w;
     accessToken := accessToken w; user := user w;
     wsRef := wsRef w; reconnectTimeoutRef := reconnectTimeoutRef w;
     isConnected := isConnected w; connectionError := connectionError w;
     ui_calls := v; mounted := mounted w;
     selectedConversation := selectedConversation w;
     newMessage := newMessage w; isTyping := isTyping w; error := error w;
     typingTimeoutRef := typingTimeoutRef w;
     typingDebounceRef := typingDebounceRef w; typing_calls := typing_calls w |}.

Definition set_mounted (v : bool) (w : World) : World :=
  {| clock := clock w; date_offset := date_offset w;
     timers := timers w; next_timer := next_timer w;
     sockets := sockets w; console := console w;
     accessToken := accessToken w; user := user w;
     wsRef := wsRef w; reconnectTimeoutRef := reconnectTimeoutRef w;
     isConnected := isConnected w; connectionError := connectionError w;
     ui_calls := ui_calls w; mounted := v;
     selectedConversation := selectedConversation w;
     newMessage := newMessage w; isTyping := isTyping w; error := error w;
     typingTimeoutRef := typingTimeoutRef w;
     typingDebounceRef := typingDebounceRef w; typing_calls := typing_calls w |}.

Definition set_selectedConversation (v : option IConversation) (w : World) : World :=
  {| clock := clock w; date_offset := date_offset w;
     timers := timers w; next_timer := next_timer w;
     sockets := sockets w; console := console w;
     accessToken := accessToken w; user := user w;
     wsRef := wsRef w; reconnectTimeoutRef := reconnectTimeoutRef w;
     isConnected := isConnected w; connectionError := connectionError w;
     ui_calls := ui_calls w; mounted := mounted w;
     selectedConversation := v;
     newMessage := newMessage w; isTyping := isTyping w; error := error w;
     typingTimeoutRef := typingTimeoutRef w;
     typingDebounceRef := typingDebounceRef w; typing_calls := typing_calls w |}.

Definition set_newMessage (v : jsstring) (w : World) : World :=
  {| clock := clock w; date_offset := date_offset w;
     timers := timers w; next_timer := next_timer w;
     sockets := sockets w; console := console w;
     accessToken := accessToken w; user := user w;
     wsRef := wsRef w; reconnectTimeoutRef := reconnectTimeoutRef w;
     isConnected := isConnected w; connectionError := connectionError w;
     ui_calls := ui_calls w; mounted := mounted w;
     selectedConversation := selectedConversation w;
     newMessage := v; isTyping := isTyping w; error := error w;
     typingTimeoutRef := typingTimeoutRef w;
     typingDebounceRef := typingDebounceRef w; typing_calls := typing_calls w |}.

Definition set_isTyping (v : bool) (w : World) : World :=
  {| clock := clock w; date_offset := date_offset w;
     timers := timers w; next_timer := next_timer w;
     sockets := sockets w; console := console w;
     accessToken := accessToken w; user := user w;
     wsRef := wsRef w; reconnectTimeoutRef := reconnectTimeoutRef w;
     isConnected := isConnected w; connectionError := connectionError w;
     ui_calls := ui_calls w; mounted := mounted w;
     selectedConversation := selectedConversation w;
     newMessage := newMessage w; isTyping := v; error := error w;
     typingTimeoutRef := typingTimeoutRef w;
     typingDebounceRef := typingDebounceRef w; typing_calls := typing_calls w |}.

Definition set_error (v : option jsstring) (w : World) : World :=
  {| clock := clock w; date_offset := date_offset w;
     timers := timers w; next_timer := next_timer w;
     sockets := sockets w; console := console w;
     accessToken := accessToken w; user := user w;
     wsRef := wsRef w; reconnectTimeoutRef := reconnectTimeoutRef w;
     isConnected := isConnected w; connectionError := connectionError w;
     ui_calls := ui_calls w; mounted := mounted w;
     selectedConversation := selectedConversation w;
     newMessage := newMessage w; isTyping := isTyping w; error := v;
     typingTimeoutRef := typingTimeoutRef w;
     typingDebounceRef := typingDebounceRef w; typing_calls := typing_calls w |}.

Definition set_typingTimeoutRef (v : option positive) (w : World) : World :=
  {| clock := clock w; date_offset := date_offset w;
     timers := timers w; next_timer := next_timer w;
     sockets := sockets w; console := console w;
     accessToken := accessToken w; user := user w;
     wsRef := wsRef w; reconnectTimeoutRef := reconnectTimeoutRef w;
     isConnected := isConnected w; connectionError := connectionError w;
     ui_calls := ui_calls w; mounted := mounted w;
     selectedConversation := selectedConversation w;
     newMessage := newMessage w; isTyping := isTyping w; error := error w;
     typingTimeoutRef := v;
     typingDebounceRef := typingDebounceRef w; typing_calls := typing_calls w |}.

Definition set_typingDebounceRef (v : option positive) (w : World) : World :=
  {| clock := clock w; date_offset := date_offset w;
     timers := timers w; next_timer := next_timer w;
     sockets := sockets w; console := console w;
     accessToken := accessToken w; user := user w;
     wsRef := wsRef w; reconnectTimeoutRef := reconnectTimeoutRef w;
     isConnected := isConnected w; connectionError := connectionError w;
     ui_calls := ui_calls w; mounted := mounted w;
     selectedConversation := selectedConversation w;
     newMessage := newMessage w; isTyping := isTyping w; error := error w;
     typingTimeoutRef := typingTimeoutRef w;
     typingDebounceRef := v; typing_calls := typing_calls w |}.

Definition set_typing_calls (v : list TypingCall) (w : World) : World :=
  {| clock := clock w; date_offset := date_offset w;
     timers := timers w; next_timer := next_timer w;
     sockets := sockets w; console := console w;
     accessToken := accessToken w; user := user w;
     wsRef := wsRef w; reconnectTimeoutRef := reconnectTimeoutRef w;
     isConnected := isConnected w; connectionError := connectionError w;
     ui_calls := ui_calls w; mounted := mounted w;
     selectedConversation := selectedConversation w;
     newMessage := newMessage w; isTyping := isTyping w; error := error w;
     typingTimeoutRef := typingTimeoutRef w;
     typingDebounceRef := typingDebounceRef w; typing_calls := v |}.

(** ** Handlers: state and exceptions

    A handler runs on the world and either returns or throws; a throw keeps
    the writes made so far. *)

Inductive Outcome (A : Type) :=
  | Returns (a : A) (w : World)
  | Throws (e : exn) (w : World).
Arguments Returns {A} a w.
Arguments Throws {A} e w.

Definition M (A : Type) : Type := World -> Outcome A.

#[global] Instance M_ret : MRet M := fun A a w => Returns a w.
#[global] Instance M_bind : MBind M := fun A B k m w =>
  match m w with
  | Returns a w' => k a w'
  | Throws e w' => Throws e w'
  end.

Definition throw {A} (e : exn) : M A := fun w => Throws e w.

Definition try_catch (body : M unit) (handler : exn -> M unit) : M unit :=
  fun w =>
    match body w with
    | Returns a w' => Returns a w'
    | Throws e w' => handler e w'
    end.

Definition read {A} (f : World -> A) : M A := fun w => Returns (f w) w.
Definition write (f : World -> World) : M unit := fun w => Returns tt (f w).

Fixpoint forEach {A} (l : list A) (f : A -> M unit) : M unit :=
  match l with
  | [] => mret tt
  | x :: l' => f x ;; forEach l' f
  end.

(** The world a handler leaves behind. *)
Definition world_of {A} (o : Outcome A) : World :=
  match o with
  | Returns _ w => w
  | Throws _ w => w
  end.

Definition console_log (l : LogEntry) : M unit :=
  write (fun w => set_console (console w ++ [l]) w).

(** *** Timers *)

(** The queue is ordered by due time, first scheduled first among equals. *)
Fixpoint enqueue (t : Timer) (q : list Timer) : list Timer :=
  match q with
  | [] => [t]
  | t' :: q' => if due t' <=? due t then t' :: enqueue t q' else t :: q
  end.

Definition setTimeout (cb : TimerCallback) (delay : Z) : M positive :=
  id ← read next_timer;
  write (fun w =>
    let t := {| timer_id := id; due := clock w + delay; callback := cb |} in
    set_next_timer (Pos.succ id) (set_timers (enqueue t (timers w)) w));;
  mret id.

Definition clearTimeout (id : positive) : M unit :=
  write (fun w => set_timers (filter (fun t => timer_id t <> id) (timers w)) w).

(** [Date.now()] reads the system clock.  It runs with the timer clock, but
    it can be set, forward or back, at any time. *)
Definition system_clock (w : World) : Z := clock w + date_offset w.

Definition Date_now : M Z := read system_clock.

(** *** WebSockets *)

Definition update_socket (s : nat) (f : WebSocket -> WebSocket) : M unit :=
  write (fun w =>
    match sockets w !! s with
    | Some sock => set_sockets (<[s := f sock]> (sockets w)) w
    | None => w
    end).

Definition set_readyState (st : ReadyState) (sock : WebSocket) : WebSocket :=
  {| readyState := st; url_conversation := url_conversation sock;
     url_token := url_token sock; sent := sent sock;
     close_request := close_request sock |}.

Definition set_close_request (c : option Z) (sock : WebSocket) : WebSocket :=
  {| readyState := readyState sock; url_conversation := url_conversation sock;
     url_token := url_token sock; sent := sent sock;
     close_request := Some c |}.

Definition push_sent (frame : json) (sock : WebSocket) : WebSocket :=
  {| readyState := readyState sock; url_conversation := url_conversation sock;
     url_token := url_token sock; sent := sent sock ++ [frame];
     close_request := close_request sock |}.

(** The URL [connect] builds is
    [`${wsBaseUrl}/chat/${conversationId}/?token=${accessToken}`], with
    [wsBaseUrl] the environment's [NEXT_PUBLIC_WS_URL] or else
    ['ws://localhost:8000/ws'], taken here to be, as the default is, a ws:
    URL with no query and no fragment.  What follows the ["?"] is then the
    query up to the first ["#"] (code unit 35), which starts the fragment:
    the URL has a fragment exactly when the token contains ["#"]. *)
Definition has_fragment (token : jsstring) : bool := existsb (N.eqb 35) token.

(** [new WebSocket(url)]: the constructor throws a SyntaxError when the URL
    has a fragment; otherwise it returns a fresh object in state
    CONNECTING. *)
Definition new_WebSocket (conversationId : Z) (token : jsstring) : M nat :=
  if has_fragment token then throw SyntaxError
  else
    s ← read (fun w => length (sockets w));
    write (fun w =>
      let sock := {| readyState := CONNECTING; url_conversation := conversationId;
                     url_token := token; sent := []; close_request := None |} in
      set_sockets (sockets w ++ [sock]) w);;
    mret s.

Definition ws_readyState (s : nat) : M (option ReadyState) :=
  read (fun w =>
    match sockets w !! s with
    | Some sock => Some (readyState sock)
    | None => None
    end).

(** [ws.close(code?)]: starts the closing handshake when the socket is
    CONNECTING or OPEN and does nothing otherwise; the socket reaches CLOSED
    only when its close event is delivered. *)
Definition ws_close (s : nat) (code : option Z) : M unit :=
  update_socket s (fun sock =>
    match readyState sock with
    | CONNECTING | OPEN => set_readyState CLOSING (set_close_request code sock)
    | CLOSING | CLOSED => sock
    end).

(** [ws.send(data)]: throws while CONNECTING, transmits when OPEN, and
    discards the data when CLOSING or CLOSED. *)
Definition ws_send (s : nat) (frame : json) : M unit :=
  st ← ws_readyState s;
  match st with
  | Some CONNECTING => throw InvalidStateError
  | Some OPEN => update_socket s (push_sent frame)
  | _ => mret tt
  end.

(** ** lib/useWebSocket

    The handlers [connect] installs on a socket are the functions [onopen],
    [onmessage], [onclose] and [onerror] below.  They close over the
    [conversationId] and [accessToken] of the render that created [connect],
    which are the values in the socket's URL, and over the callbacks given
    to the hook, whose calls are recorded in [ui_calls]. *)

Definition setIsConnected (b : bool) : M unit := write (set_isConnected b).
Definition setConnectionError (e : option jsstring) : M unit :=
  write (set_connectionError e).
Definition call_ui (c : UICall) : M unit :=
  write (fun w => set_ui_calls (ui_calls w ++ [c]) w).

(** [event.data] of a message event: text that [JSON.parse] decodes to a
    value, or text it rejects. *)
Inductive MessageData :=
  | WellFormed (j : json)
  | Malformed (raw : jsstring).

Definition JSON_parse (d : MessageData) : M json :=
  match d with
  | WellFormed j => mret j
  | Malformed _ => throw SyntaxError
  end.

(** [data.k]: a TypeError on [null], the property of an object, and
    [undefined] on the other values (none of them has a property of the
    names read here). *)
Definition get (data : json) (k : string) : M (option json) :=
  match data with
  | JNull => throw TypeError
  | JObj fields => mret (assoc (js k) fields)
  | _ => mret None
  end.

(** [v === 'lit'] *)
Definition is_literal (v : option json) (lit : string) : bool :=
  match v with
  | Some (JStr s) => bool_decide (s = js lit)
  | _ => false
  end.

(** [v || d] *)
Definition js_or (v : option json) (d : json) : json :=
  match v with
  | Some x => if truthy v then x else d
  | None => d
  end.

Definition connect (conversationId : option Z) (accessToken : option jsstring)
  : M unit :=
  match conversationId, accessToken with
  | Some cid, Some tok =>
      if negb (truthy_number conversationId) || negb (truthy_string accessToken)
      then mret tt
      else
        try_catch
          (cur ← read wsRef;
           match cur with
           | Some old => ws_close old None
           | None => mret tt
           end;;
           s ← new_WebSocket cid tok;
           write (set_wsRef (Some s)))
          (fun e =>
             console_log (LogCreateError e);;
             setConnectionError (Some (js "Failed to connect")))
  | _, _ => mret tt
  end.

Definition onopen : M unit :=
  console_log LogConnected;;
  setIsConnected true;;
  setConnectionError None.

Definition onmessage (conversationId : Z) (event_data : MessageData) : M unit :=
  try_catch
    (data ← JSON_parse event_data;
     ty ← get data "type";
     if is_literal ty "chat_message" then
       message ← get data "message";
       u ← get data "user";
       timestamp ← get data "timestamp";
       match message, u, timestamp with
       | Some m, Some usr, Some ts =>
           if truthy message && truthy u && truthy timestamp then
             id ← Date_now;
             call_ui (OnMessage {| msg_id := id; content := m; sender := usr;
                                   conversation := conversationId;
                                   created_at := ts |})
           else mret tt
       | _, _, _ => mret tt
       end
     else if is_literal ty "typing" then
       u ← get data "user";
       is_typing ← get data "is_typing";
       match u with
       | Some usr =>
           if truthy u then call_ui (OnTyping usr (js_or is_typing (JBool false)))
           else mret tt
       | None => mret tt
       end
     else if is_literal ty "online_status" then
       online_users ← get data "online_users";
       status ← get data "status";
       match online_users, status with
       | Some us, Some st =>
           if truthy online_users && truthy status
           then call_ui (OnUserStatus us st)
           else mret tt
       | _, _ => mret tt
       end
     else mret tt)
    (fun e => console_log (LogParseError e)).

Definition onclose (conversationId : option Z) (accessToken : option jsstring)
    (code : Z) : M unit :=
  console_log (LogDisconnected code);;
  setIsConnected false;;
  if negb (code =? 1000) then
    id ← setTimeout (ReconnectCb conversationId accessToken) 3000;
    write (set_reconnectTimeoutRef (Some id))
  else mret tt.

Definition onerror : M unit :=
  console_log LogWebSocketError;;
  setConnectionError (Some (js "Connection failed"));;
  setIsConnected false.

Definition disconnect : M unit :=
  pending ← read reconnectTimeoutRef;
  match pending with
  | Some id => clearTimeout id
  | None => mret tt
  end;;
  cur ← read wsRef;
  match cur with
  | Some s => ws_close s (Some 1000);; write (set_wsRef None)
  | None => mret tt
  end;;
  setIsConnected false.

Definition chat_message_frame (message : jsstring) (uid : Z) : json :=
  JObj [(js "type", JStr (js "chat_message"));
        (js "message", JStr message);
        (js "user", JNum uid)].

Definition typing_frame (receiverId : Z) (isTyping : bool) : json :=
  JObj [(js "type", JStr (js "typing"));
        (js "receiver", JNum receiverId);
        (js "is_typing", JBool isTyping)].

Definition sendMessage (usr : option IUser) (message : jsstring) : M unit :=
  cur ← read wsRef;
  match cur, usr with
  | Some s, Some u =>
      st ← ws_readyState s;
      if bool_decide (st = Some OPEN)
      then ws_send s (chat_message_frame message (user_id u))
      else mret tt
  | _, _ => mret tt
  end.

(** The first write records the call in the trace; the rest is the
    function of the source. *)
Definition sendTyping (receiverId : Z) (isTyping : bool) : M unit :=
  write (fun w =>
    set_typing_calls
      (typing_calls w ++ [{| call_time := clock w; call_receiver := receiverId;
                             call_flag := isTyping |}]) w);;
  cur ← read wsRef;
  match cur with
  | Some s =>
      st ← ws_readyState s;
      if bool_decide (st = Some OPEN)
      then ws_send s (typing_frame receiverId isTyping)
      else mret tt
  | None => mret tt
  end.

(** The effect on [conversationId, accessToken] and its cleanup. *)
Definition effect (conversationId : option Z) (accessToken : option jsstring)
  : M unit :=
  if truthy_number conversationId && truthy_string accessToken
  then connect conversationId accessToken
  else disconnect.

Definition cleanup : M unit := disconnect.

(** ** app/chats/page.tsx *)

Definition setNewMessage (s : jsstring) : M unit := write (set_newMessage s).
Definition setError (e : option jsstring) : M unit := write (set_error e).
Definition setIsTyping (b : bool) : M unit := write (set_isTyping b).

(** [selectedConversation?.id || null] *)
Definition conversationId_of (sel : option IConversation) : option Z :=
  match sel with
  | Some c => if conv_id c =? 0 then None else Some (conv_id c)
  | None => None
  end.

Definition handleSendMessage : M unit :=
  text ← read newMessage;
  sel ← read selectedConversation;
  usr ← read user;
  match trim text, sel with
  | [], _ => mret tt
  | _, None => mret tt
  | _ :: _, Some _ =>
      try_catch
        (sendMessage usr (trim text);;
         setNewMessage [])
        (fun e =>
           setError (Some (js "Failed to send message"));;
           console_log (LogSendError e))
  end.

(** [x || 0] on a number that may be undefined. *)
Definition or_zero (x : option Z) : Z :=
  match x with
  | Some n => if n =? 0 then 0 else n
  | None => 0
  end.

Definition other_than (uid : Z) (p : IUser) : bool := negb (user_id p =? uid).

(** [participants?.find(p => p.id !== uid)?.id] *)
Definition other_participant (ps : option (list IUser)) (uid : Z) : option Z :=
  match ps with
  | Some l =>
      match find (other_than uid) l with
      | Some p => Some (user_id p)
      | None => None
      end
  | None => None
  end.

(** The body of both typing timers. *)
Definition typing_timer (conv : IConversation) (u : IUser) (flag : bool)
  : M unit :=
  setIsTyping flag;;
  match conversation_type conv with
  | group =>
      match participants conv with
      | Some ps =>
          forEach ps (fun participant =>
            if other_than (user_id u) participant
            then sendTyping (user_id participant) flag
            else mret tt)
      | None => mret tt
      end
  | direct =>
      sendTyping (or_zero (other_participant (participants conv) (user_id u))) flag
  end.

Definition handleTypingStart : M unit :=
  sel ← read selectedConversation;
  usr ← read user;
  match sel, usr with
  | Some conv, Some u =>
      pending ← read typingDebounceRef;
      match pending with
      | Some id => clearTimeout id
      | None => mret tt
      end;;
      id ← setTimeout (TypingCb conv u true) 500;
      write (set_typingDebounceRef (Some id));;
      pending ← read typingTimeoutRef;
      match pending with
      | Some id => clearTimeout id
      | None => mret tt
      end;;
      id ← setTimeout (TypingCb conv u false) 2000;
      write (set_typingTimeoutRef (Some id))
  | _, _ => mret tt
  end.

(** Cleanup of the page's own effect on unmount. *)
Definition page_cleanup : M unit :=
  pending ← read typingTimeoutRef;
  match pending with
  | Some id => clearTimeout id
  | None => mret tt
  end;;
  pending ← read typingDebounceRef;
  match pending with
  | Some id => clearTimeout id
  | None => mret tt
  end.

(** *** Callbacks and list updates of the page *)

(** [user?.id] *)
Definition optional_id (u : option IUser) : option Z :=
  match u with
  | Some x => Some (user_id x)
  | None => None
  end.

(** [handleTyping], the callback the hook is given for typing events: the
    next value of [typingUsers].  [me] is the [user] of the render whose
    [handleTyping] the hook holds. *)
Definition handleTyping (me : option IUser) (typingUser : IUser) (is_typing : bool)
    (prev : list IUser) : list IUser :=
  if bool_decide (Some (user_id typingUser) = optional_id me) then prev
  else if is_typing
       then filter (fun u => user_id u <> user_id typingUser) prev ++ [typingUser]
       else filter (fun u => user_id u <> user_id typingUser) prev.

(** [handleConversationUpdated]: the next value of [conversations]. *)
Definition handleConversationUpdated (updatedConversation : IConversation)
    (prev : list IConversation) : list IConversation :=
  map (fun conv => if conv_id conv =? conv_id updatedConversation
                   then updatedConversation else conv) prev.

(** The two writers of the page's [messages] state, which starts as [[]]:
    [handleNewMessage], the hook's [onMessage] callback, appends; an answer of
    [loadMessages] replaces the list, a failed request leaves it alone. *)
Definition handleNewMessage (message : IMessage) (prev : list IMessage) : list IMessage :=
  prev ++ [message].

(** What reaches [messages]: the settled request of one [loadMessages]
    ([None] when [chatAPI.getMessages] rejected) or one [onMessage] call. *)
Inductive MessagesEvent :=
  | LoadMessages (answer : option (list IMessage))
  | NewMessage (message : IMessage).

Definition messages_step (prev : list IMessage) (e : MessagesEvent) : list IMessage :=
  match e with
  | LoadMessages (Some data) => data
  | LoadMessages None => prev
  | NewMessage message => handleNewMessage message prev
  end.

(** ** localStorage *)

(** The browser's [localStorage]: what [getItem] returns for each key,
    [None] for [null]. *)
Definition Storage : Type := jsstring -> option jsstring.

Definition getItem (k : string) (s : Storage) : option jsstring := s (js k).

Definition setItem (k : string) (v : jsstring) (s : Storage) : Storage :=
  fun k' => if decide (k' = js k) then Some v else s k'.

Definition removeItem (k : string) (s : Storage) : Storage :=
  fun k' => if decide (k' = js k) then None else s k'.

(** ** lib/auth *)

Module Auth.

(** How far an awaited request has got.  It has settled, fulfilled or
    rejected (the code below treats both alike), or it is still pending:
    [api] is created without a timeout, so a request the server never
    answers never settles.  Either way the storage is as the request, with
    the interceptors of lib/api around it, has left it. *)
Inductive Request :=
  | Settled (s : Storage)
  | Pending (s : Storage).

(** [logout]: the refresh token, if one is stored, is posted to [/logout/],
    and [post] is how far that request gets.  Once it has settled, or when
    there was nothing to post, the [finally] block removes both tokens;
    while it is pending the function is suspended at its [await] and has
    removed nothing. *)
Definition logout (post : jsstring -> Storage -> Request) (s : Storage) : Request :=
  let finally (s1 : Storage) :=
    Settled (removeItem "refreshToken" (removeItem "accessToken" s1)) in
  match getItem "refreshToken" s with
  | Some refresh =>
      if truthy_string (Some refresh)
      then match post refresh s with
           | Settled s1 => finally s1
           | Pending s1 => Pending s1
           end
      else finally s
  | None => finally s
  end.

End Auth.

(** ** lib/AuthContext.tsx

    The state of [AuthProvider] in the browser, where [window] is defined. *)

Module AuthContext.

Record State := {
  accessToken : option jsstring;
  refreshToken : option jsstring;
  user : option IUser;
  localStorage : Storage
}.

(** The first render: every [useState] starts at [null]. *)
Definition initial (s : Storage) : State :=
  {| accessToken := None; refreshToken := None; user := None; localStorage := s |}.

(** The effect run once on mount. *)
Definition restore (st : State) : State :=
  let storedAccess := getItem "accessToken" (localStorage st) in
  let storedRefresh := getItem "refreshToken" (localStorage st) in
  if truthy_string storedAccess && truthy_string storedRefresh
  then {| accessToken := storedAccess; refreshToken := storedRefresh;
          user := user st; localStorage := localStorage st |}
  else st.

(** [if (v) localStorage.setItem(k, v) else localStorage.removeItem(k)] *)
Definition keep (k : string) (v : option jsstring) (s : Storage) : Storage :=
  match v with
  | Some x => if truthy_string v then setItem k x s else removeItem k s
  | None => removeItem k s
  end.

Definition setTokens (access refresh : option jsstring) (st : State) : State :=
  {| accessToken := access; refreshToken := refresh; user := user st;
     localStorage := keep "refreshToken" refresh
                       (keep "accessToken" access (localStorage st)) |}.

Definition setUser (u : option IUser) (st : State) : State :=
  {| accessToken := accessToken st; refreshToken := refreshToken st; user := u;
     localStorage := localStorage st |}.

(** [logout]: [await apiLogout()] with its errors caught, then, in the
    [finally] block, [setTokens(null, null)] and [setUser(null)].  While
    [apiLogout] is pending the function is suspended at its [await]: the
    state is as it was. *)
Definition logout (post : jsstring -> Storage -> Auth.Request) (st : State) : State :=
  let with_storage (s1 : Storage) :=
    {| accessToken := accessToken st; refreshToken := refreshToken st;
       user := user st; localStorage := s1 |} in
  match Auth.logout post (localStorage st) with
  | Auth.Settled s1 => setUser None (setTokens None None (with_storage s1))
  | Auth.Pending s1 => with_storage s1
  end.

(** [Boolean(accessToken)] *)
Definition isAuthenticated (st : State) : bool := truthy_string (accessToken st).

(** A page load on the storage [st] leaves behind: the first render, then
    the mount effect. *)
Definition reload (st : State) : State := restore (initial (localStorage st)).

End AuthContext.

(** ** components/NewGroupChatModal.tsx *)

Module NewGroupChatModal.

Record State := {
  users : list IUser;
  selectedUsers : list IUser;
  groupName : jsstring
}.

Definition handleUserSelect (selectedUser : IUser) (st : State) : State :=
  {| users := filter (fun u => user_id u <> user_id selectedUser) (users st);
     selectedUsers := selectedUsers st ++ [selectedUser];
     groupName := groupName st |}.

Definition handleUserRemove (userToRemove : IUser) (st : State) : State :=
  {| users := users st ++ [userToRemove];
     selectedUsers := filter (fun u => user_id u <> user_id userToRemove) (selectedUsers st);
     groupName := groupName st |}.

(** What [handleCreateGroup] does before it awaits the server: it sets an
    error and returns, or asks for the group to be created. *)
Inductive Submission :=
  | Rejected (message : jsstring)
  | Create (name : jsstring) (members : list Z).

Definition handleCreateGroup (me : option IUser) (st : State) : Submission :=
  if negb (truthy_number (optional_id me))
  then Rejected (js "User not authenticated")
  else if (length (selectedUsers st) <? 1)%nat
  then Rejected (js "Please select at least one member for the group")
  else match trim (groupName st) with
       | [] => Rejected (js "Please enter a group name")
       | _ :: _ => Create (trim (groupName st)) (map user_id (selectedUsers st))
       end.

End NewGroupChatModal.

(** ** The event loop *)

(** Run one task to completion; an exception nobody caught is reported on
    the console. *)
Definition run_task (m : M unit) (w : World) : World :=
  match m w with
  | Returns _ w' => w'
  | Throws e w' => set_console (console w' ++ [LogUncaught e]) w'
  end.

Definition fire (cb : TimerCallback) : M unit :=
  match cb with
  | ReconnectCb conversationId accessToken => connect conversationId accessToken
  | TypingCb conv u flag => typing_timer conv u flag
  end.

(** Fire the timers due by [t], earliest first, each at its due time. *)
Fixpoint run_due (fuel : nat) (t : Z) (w : World) : World :=
  match fuel with
  | O => w
  | S fuel' =>
      match timers w with
      | tm :: rest =>
          if due tm <=? t then
            run_due fuel' t
              (run_task (fire (callback tm))
                 (set_clock (Z.max (clock w) (due tm)) (set_timers rest w)))
          else w
      | [] => w
      end
  end.

Definition tick (dt : Z) (w : World) : World :=
  let t := clock w + Z.max 0 dt in
  set_clock t (run_due (length (timers w)) t w).

(** Delivery of the four socket events to the handlers [connect] installed.
    An open event needs a CONNECTING socket, a message an OPEN one, and a
    close event moves any socket that is not yet CLOSED to CLOSED. *)
Definition deliver_open (s : nat) : M unit :=
  st ← ws_readyState s;
  match st with
  | Some CONNECTING => update_socket s (set_readyState OPEN);; onopen
  | _ => mret tt
  end.

Definition deliver_message (s : nat) (d : MessageData) : M unit :=
  sock ← read (fun w => sockets w !! s);
  match sock with
  | Some k =>
      match readyState k with
      | OPEN => onmessage (url_conversation k) d
      | _ => mret tt
      end
  | None => mret tt
  end.

Definition deliver_error (s : nat) : M unit :=
  st ← ws_readyState s;
  match st with
  | Some CONNECTING | Some OPEN | Some CLOSING => onerror
  | _ => mret tt
  end.

Definition deliver_close (s : nat) (code : Z) : M unit :=
  sock ← read (fun w => sockets w !! s);
  match sock with
  | Some k =>
      match readyState k with
      | CLOSED => mret tt
      | _ =>
          update_socket s (set_readyState CLOSED);;
          onclose (Some (url_conversation k)) (Some (url_token k)) code
      end
  | None => mret tt
  end.

(** A render whose dependencies [conversationId, accessToken] changed runs
    the cleanup of the previous effect and then the effect again. *)
Definition rerender (change : World -> World) : M unit :=
  old_id ← read (fun w => conversationId_of (selectedConversation w));
  old_tok ← read accessToken;
  write change;;
  new_id ← read (fun w => conversationId_of (selectedConversation w));
  new_tok ← read accessToken;
  live ← read mounted;
  if live && negb (bool_decide (old_id = new_id) && bool_decide (old_tok = new_tok))
  then cleanup;; effect new_id new_tok
  else mret tt.

(** What can happen to the page.  [SystemClock delta] is the system clock
    being set, forward or back, by [delta] ms; [Tick dt] is [dt] ms
    passing. *)
Inductive Event :=
  | Mount
  | Unmount
  | SelectConversation (c : IConversation)
  | SetAccessToken (tok : option jsstring)
  | SetUser (u : option IUser)
  | Input (text : jsstring)
  | Send
  | SocketOpen (s : nat)
  | SocketMessage (s : nat) (d : MessageData)
  | SocketError (s : nat)
  | SocketClose (s : nat) (code : Z)
  | SystemClock (delta : Z)
  | Tick (dt : Z).

Definition guarded (b : World -> bool) (m : M unit) : M unit :=
  fun w => if b w then m w else Returns tt w.

Definition handle (e : Event) : M unit :=
  match e with
  | Mount =>
      guarded (fun w => negb (mounted w))
        (write (set_mounted true);;
         id ← read (fun w => conversationId_of (selectedConversation w));
         tok ← read accessToken;
         effect id tok)
  | Unmount =>
      guarded mounted
        (cleanup;; disconnect;; page_cleanup;; write (set_mounted false))
  | SelectConversation c =>
      guarded mounted (rerender (set_selectedConversation (Some c)))
  | SetAccessToken tok => rerender (set_accessToken tok)
  | SetUser u => write (set_user u)
  | Input text => guarded mounted (setNewMessage text;; handleTypingStart)
  | Send => guarded mounted handleSendMessage
  | SocketOpen s => deliver_open s
  | SocketMessage s d => deliver_message s d
  | SocketError s => deliver_error s
  | SocketClose s code => deliver_close s code
  | SystemClock delta => write (fun w => set_date_offset (date_offset w + delta) w)
  | Tick _ => mret tt
  end.

Definition step (w : World) (e : Event) : World :=
  match e with
  | Tick dt => tick dt w
  | _ => run_task (handle e) w
  end.

Definition run (es : list Event) (w : World) : World := fold_left step es w.

Definition initial : World :=
  {| clock := 0; date_offset := 0; timers := []; next_timer := 1%positive;
     sockets := [];
     console := []; accessToken := None; user := None; wsRef := None;
     reconnectTimeoutRef := None; isConnected := false;
     connectionError := None; ui_calls := []; mounted := false;
     selectedConversation := None; newMessage := []; isTyping := false;
     error := None; typingTimeoutRef := None; typingDebounceRef := None;
     typing_calls := [] |}.

(** ** Sample data *)

Definition alice : IUser := {| user_id := 7; username := js "alice"; email := js "a@x" |}.
Definition bob : IUser := {| user_id := 3; username := js "bob"; email := js "b@x" |}.
Definition carol : IUser := {| user_id := 5; username := js "carol"; email := js "c@x" |}.

Definition chat42 : IConversation :=
  {| conv_id := 42; participants := Some [alice; bob]; conversation_type := direct |}.
Definition chat43 : IConversation :=
  {| conv_id := 43; participants := Some [alice; bob; carol];
     conversation_type := group |}.

Definition logged_in : list Event :=
  [SetAccessToken (Some (js "T")); SetUser (Some alice); Mount].

(** ** Observations *)

Definition current_socket (w : World) : option WebSocket :=
  match wsRef w with
  | Some s => sockets w !! s
  | None => None
  end.

Definition connection_open (w : World) : bool :=
  match current_socket w with
  | Some sock => bool_decide (readyState sock = OPEN)
  | None => false
  end.

(** ** Vocabulary of the statements *)

(** *** Frames *)

(** A frame that lacks a field its type requires, or that does not decode
    to an object at all. *)
Definition missing (fields : list (jsstring * json)) (k : string) : bool :=
  match assoc (js k) fields with
  | None => true
  | Some _ => false
  end.

Definition malformed (d : MessageData) : bool :=
  match d with
  | Malformed _ => true
  | WellFormed (JObj fields) =>
      let ty := assoc (js "type") fields in
      if is_literal ty "chat_message" then
        missing fields "message" || missing fields "user"
        || missing fields "timestamp"
      else if is_literal ty "typing" then missing fields "user"
      else if is_literal ty "online_status" then
        missing fields "online_users" || missing fields "status"
      else false
  | WellFormed _ => true
  end.

Definition user_json (u : IUser) : json :=
  JObj [(js "id", JNum (user_id u)); (js "username", JStr (username u));
        (js "email", JStr (email u))].

Definition inbound_chat_fields (text : jsstring) (u : IUser) (timestamp : jsstring)
  : list (jsstring * json) :=
  [(js "type", JStr (js "chat_message")); (js "message", JStr text);
   (js "user", user_json u); (js "timestamp", JStr timestamp)].

Definition inbound_chat (text : jsstring) (u : IUser) (timestamp : jsstring) : json :=
  JObj (inbound_chat_fields text u timestamp).

Definition chat_without_timestamp : list (jsstring * json) :=
  [(js "type", JStr (js "chat_message")); (js "message", JStr (js "hi"));
   (js "user", user_json bob)].

(** The identities given to the messages handed to the message callback. *)
Definition message_ids (calls : list UICall) : list Z :=
  omap (fun c => match c with OnMessage m => Some (msg_id m) | _ => None end) calls.

Definition opened42 : World :=
  run (logged_in ++ [SelectConversation chat42; SocketOpen 0%nat]) initial.

(** *** Properties kept by handlers *)

(** [keeps P m]: running [m] from a world satisfying [P] leaves a world
    satisfying [P], whether [m] returns or throws. *)
Definition keeps {A} (P : World -> Prop) (m : M A) : Prop :=
  forall w, P w -> P (world_of (m w)).

(** Identities are in arrival order and none exceeds the system clock. *)
Definition ids_ordered (w : World) : Prop :=
  StronglySorted Z.le (message_ids (ui_calls w))
  /\ Forall (fun i => i <= system_clock w) (message_ids (ui_calls w)).

(** The event sets the system clock back. *)
Definition sets_back (e : Event) : bool :=
  match e with
  | SystemClock delta => delta <? 0
  | _ => false
  end.

Definition clock_at_most (t : Z) (w : World) : Prop := clock w <= t.

Definition chat_empty_timestamp : json := inbound_chat (js "hi") bob [].

Definition two_frames : list Event :=
  logged_in ++
  [SelectConversation chat42; SocketOpen 0%nat; Tick 1000;
   SocketMessage 0%nat (WellFormed (inbound_chat (js "hi") bob (js "2024-05-01T10:00:00Z")));
   SocketMessage 0%nat (WellFormed (inbound_chat (js "yo") bob (js "2024-05-01T10:00:00Z")))].

(** *** Reconnection *)

(** The world after [wsRef.current.close(code)]: the socket [wsRef] holds,
    if it is connecting or open, starts closing with the code given. *)
Definition close_current (code : option Z) (w : World) : World :=
  match wsRef w with
  | Some old =>
      match sockets w !! old with
      | Some sock =>
          set_sockets
            (<[old := match readyState sock with
                      | CONNECTING | OPEN =>
                          set_readyState CLOSING (set_close_request code sock)
                      | CLOSING | CLOSED => sock
                      end]> (sockets w)) w
      | None => w
      end
  | None => w
  end.

Definition fresh_socket (cid : Z) (tok : jsstring) : WebSocket :=
  {| readyState := CONNECTING; url_conversation := cid; url_token := tok;
     sent := []; close_request := None |}.

(** What holds of a socket [connect] has created: its guard let the
    conversation id and the token through, and the constructor accepted the
    URL. *)
Definition constructed (k : WebSocket) : Prop :=
  url_conversation k <> 0 /\ url_token k <> [] /\ has_fragment (url_token k) = false.

Definition sockets_constructed (w : World) : Prop := Forall constructed (sockets w).

(** A connection for [(cid, tok)] is current, is the newest socket, has not
    closed yet, and no timer is pending. *)
Definition awaiting (cid : Z) (tok : jsstring) (s : nat) (w : World) : Prop :=
  wsRef w = Some s
  /\ length (sockets w) = S s
  /\ (exists k, sockets w !! s = Some k /\ readyState k <> CLOSED
                /\ url_conversation k = cid /\ url_token k = tok)
  /\ timers w = [].

(** The connection fails with each of [codes] in turn, 3000 ms apart. *)
Fixpoint failing (codes : list Z) (s : nat) : list Event :=
  match codes with
  | [] => []
  | code :: rest => SocketClose s code :: Tick 3000 :: failing rest (S s)
  end.

(** *** Sample page states *)

Definition typed_blank : World := step opened42 (Input (js "   ")).

Definition typed_then_dropped : World :=
  run [Input (js "hi"); SocketClose 0%nat 1006] opened42.

Definition typed_hi : World := step opened42 (Input (js " hi ")).

(** *** Typing calls and timers *)

(** The receivers one firing of a typing timer addresses, in order. *)
Definition recipients (conv : IConversation) (uid : Z) : list Z :=
  match conversation_type conv with
  | group =>
      match participants conv with
      | Some ps => map user_id (filter (other_than uid) ps)
      | None => []
      end
  | direct => [or_zero (other_participant (participants conv) uid)]
  end.

Definition typing_calls_at (t : Z) (flag : bool) (rs : list Z) : list TypingCall :=
  map (fun r => {| call_time := t; call_receiver := r; call_flag := flag |}) rs.

Definition add_sent (frames : list json) (sock : WebSocket) : WebSocket :=
  {| readyState := readyState sock; url_conversation := url_conversation sock;
     url_token := url_token sock; sent := sent sock ++ frames;
     close_request := close_request sock |}.

(** What a run of [sendTyping] over the receivers [rs] leaves behind. *)
Record typing_sent (flag : bool) (rs : list Z) (w w' : World) : Prop := {
  sent_calls : typing_calls w' = typing_calls w ++ typing_calls_at (clock w) flag rs;
  sent_frames :
    forall s sock,
      wsRef w = Some s -> sockets w !! s = Some sock -> readyState sock = OPEN ->
      sockets w' = <[s := add_sent (map (fun r => typing_frame r flag) rs) sock]> (sockets w);
  sent_nothing : connection_open w = false -> sockets w' = sockets w;
  sent_wsRef : wsRef w' = wsRef w;
  sent_clock : clock w' = clock w;
  sent_timers : timers w' = timers w
}.

Definition is_typing_timer (tm : Timer) : bool :=
  match callback tm with
  | TypingCb _ _ _ => true
  | ReconnectCb _ _ => false
  end.

(** The calls of [sendTyping] a timer makes when it fires at its due time. *)
Definition emission (tm : Timer) : list TypingCall :=
  match callback tm with
  | TypingCb conv u flag => typing_calls_at (due tm) flag (recipients conv (user_id u))
  | ReconnectCb _ _ => []
  end.

Definition by_due (a b : Timer) : Prop := due a <= due b.

(** Fields no timer callback writes. *)
Definition same_schedule (w0 w : World) : Prop :=
  clock w = clock w0 /\ timers w = timers w0 /\ next_timer w = next_timer w0
  /\ typingTimeoutRef w = typingTimeoutRef w0
  /\ typingDebounceRef w = typingDebounceRef w0
  /\ selectedConversation w = selectedConversation w0
  /\ user w = user w0 /\ mounted w = mounted w0.

Definition same_typing_calls (l : list TypingCall) (w : World) : Prop :=
  typing_calls w = l.

Definition same_page (w0 w : World) : Prop :=
  next_timer w = next_timer w0
  /\ typingTimeoutRef w = typingTimeoutRef w0
  /\ typingDebounceRef w = typingDebounceRef w0
  /\ selectedConversation w = selectedConversation w0
  /\ user w = user w0 /\ mounted w = mounted w0.

(** [clearTimeout] of the timer a ref holds, if it holds one. *)
Definition cancel (r : option positive) (q : list Timer) : list Timer :=
  match r with
  | Some id => filter (fun t => timer_id t <> id) q
  | None => q
  end.

Definition start_timer (conv : IConversation) (u : IUser) (w : World) : Timer :=
  {| timer_id := next_timer w; due := clock w + 500; callback := TypingCb conv u true |}.

Definition stop_timer (conv : IConversation) (u : IUser) (w : World) : Timer :=
  {| timer_id := Pos.succ (next_timer w); due := clock w + 2000;
     callback := TypingCb conv u false |}.

Definition tracked_by (w : World) (tm : Timer) : Prop :=
  match callback tm with
  | TypingCb _ _ true => typingDebounceRef w = Some (timer_id tm)
  | TypingCb _ _ false => typingTimeoutRef w = Some (timer_id tm)
  | ReconnectCb _ _ => True
  end.

Definition ref_fresh (w : World) (r : option positive) : Prop :=
  match r with
  | Some id => (id < next_timer w)%positive
  | None => True
  end.

(** The queue is ordered, holds no overdue timer, uses only identifiers
    already handed out, and every pending typing timer is the one its ref
    holds. *)
Record queue_ok (w : World) : Prop := {
  q_sorted : StronglySorted by_due (timers w);
  q_future : Forall (fun tm => clock w <= due tm) (timers w);
  q_fresh : Forall (fun tm => (timer_id tm < next_timer w)%positive) (timers w);
  q_debounce : ref_fresh w (typingDebounceRef w);
  q_timeout : ref_fresh w (typingTimeoutRef w);
  q_tracked : Forall (tracked_by w) (timers w)
}.

(** Input signals, each after the first following the previous one by the
    given gap. *)
Definition keystrokes (first : jsstring) (rest : list (Z * jsstring)) : list Event :=
  Input first :: flat_map (fun gt => [Tick (fst gt); Input (snd gt)]) rest.

Definition total (gaps : list Z) : Z := fold_right Z.add 0 (map (Z.max 0) gaps).

(** The last input signal arrived at [t]: both typing timers are pending
    and nothing else is. *)
Definition armed (conv : IConversation) (u : IUser) (t : Z) (w : World) : Prop :=
  queue_ok w /\ mounted w = true
  /\ selectedConversation w = Some conv /\ user w = Some u
  /\ clock w = t
  /\ exists i1 i2,
       filter is_typing_timer (timers w)
       = [{| timer_id := i1; due := t + 500; callback := TypingCb conv u true |};
          {| timer_id := i2; due := t + 2000; callback := TypingCb conv u false |}].

Definition gaps (rest : list (Z * jsstring)) : list Z := map fst rest.

Definition starts (conv : IConversation) (u : IUser) (t : Z) : list TypingCall :=
  typing_calls_at (t + 500) true (recipients conv (user_id u)).

Definition stops (conv : IConversation) (u : IUser) (t : Z) : list TypingCall :=
  typing_calls_at (t + 2000) false (recipients conv (user_id u)).

Definition group_open : list Event :=
  logged_in ++ [SelectConversation chat43; SocketOpen 0%nat].

Definition solo : IConversation :=
  {| conv_id := 44; participants := Some [alice]; conversation_type := direct |}.

Definition solo_open : list Event :=
  logged_in ++ [SelectConversation solo; SocketOpen 0%nat].

(** *** Live connections *)

(** A socket that is connecting or open. *)
Definition live (sock : WebSocket) : bool :=
  match readyState sock with
  | CONNECTING | OPEN => true
  | CLOSING | CLOSED => false
  end.

(** Every live socket is the one [wsRef] holds. *)
Definition one_connection (w : World) : Prop :=
  forall i sock, sockets w !! i = Some sock -> live sock = true -> wsRef w = Some i.

Definition cancel_reconnect (w : World) : World :=
  match reconnectTimeoutRef w with
  | Some id => set_timers (filter (fun t => timer_id t <> id) (timers w)) w
  | None => w
  end.

(** The property as the specification words it: at most one socket is in a
    state other than CLOSED. *)
Definition at_most_one_not_closed (w : World) : Prop :=
  forall i j si sj,
    sockets w !! i = Some si -> sockets w !! j = Some sj ->
    readyState si <> CLOSED -> readyState sj <> CLOSED -> i = j.

Definition switched : World :=
  run (logged_in ++ [SelectConversation chat42; SocketOpen 0%nat;
                     SelectConversation chat43]) initial.

(** *** Handlers that return *)

(** [m] returns from every world: it never throws. *)
Definition never_throws {A} (m : M A) : Prop :=
  forall w, exists a w', m w = Returns a w'.

(** No exception has reached the event loop. *)
Definition no_uncaught (w : World) : Prop :=
  Forall (fun l => forall e, l <> LogUncaught e) (console w).

(** *** Sample frames *)

Definition typing_from_bob : list (jsstring * json) :=
  [(js "type", JStr (js "typing")); (js "user", user_json bob);
   (js "is_typing", JBool true)].

Definition typing_without_user : list (jsstring * json) :=
  [(js "type", JStr (js "typing")); (js "is_typing", JBool true)].

Definition bob_online : list (jsstring * json) :=
  [(js "type", JStr (js "online_status")); (js "online_users", JArr [user_json bob]);
   (js "status", JStr (js "online"))].

Definition status_without_users : list (jsstring * json) :=
  [(js "type", JStr (js "online_status")); (js "status", JStr (js "online"))].

(** *** Teardown and reconnection *)

Definition torn_down (w : World) : Prop := wsRef w = None /\ isConnected w = false.

(** The hook holds no socket, reports itself disconnected, and no socket is
    connecting or open. *)
Definition no_connection (w : World) : Prop :=
  wsRef w = None /\ isConnected w = false
  /\ forall i sock, sockets w !! i = Some sock -> live sock = false.

(** What tearing the connection down and opening one for [(cid, tok)]
    leaves behind. *)
Record reconnected (cid : Z) (tok : jsstring) (w w' : World) : Prop := {
  re_wsRef : wsRef w' = Some (length (sockets w));
  re_socket : sockets w' !! length (sockets w) = Some (fresh_socket cid tok);
  re_length : length (sockets w') = S (length (sockets w));
  re_isConnected : isConnected w' = false;
  re_closed :
    forall s sock,
      wsRef w = Some s -> sockets w !! s = Some sock -> live sock = true ->
      sockets w' !! s = Some (set_readyState CLOSING (set_close_request (Some 1000) sock));
  re_selected : selectedConversation w' = selectedConversation w;
  re_token : accessToken w' = accessToken w
}.

(** What tearing the connection down leaves behind when the constructor
    then rejects the URL. *)
Record not_reconnected (w w' : World) : Prop := {
  nr_wsRef : wsRef w' = None;
  nr_length : length (sockets w') = length (sockets w);
  nr_isConnected : isConnected w' = false;
  nr_connectionError : connectionError w' = Some (js "Failed to connect");
  nr_closed :
    forall s sock,
      wsRef w = Some s -> sockets w !! s = Some sock -> live sock = true ->
      sockets w' !! s = Some (set_readyState CLOSING (set_close_request (Some 1000) sock));
  nr_selected : selectedConversation w' = selectedConversation w;
  nr_token : accessToken w' = accessToken w
}.

(** Conversation 42 is selected and the token has become one the
    constructor rejects. *)
Definition rejected42 : World :=
  run (logged_in ++ [SelectConversation chat42; SocketOpen 0%nat;
                     SetAccessToken (Some (js "T#x"))]) initial.

Definition opening42 : list Event :=
  logged_in ++ [SelectConversation chat42; SocketOpen 0%nat].

Definition chat0 : IConversation :=
  {| conv_id := 0; participants := Some [alice; bob]; conversation_type := direct |}.

(** *** Typing timers after unmount and in general *)

Definition no_typing_timer (w : World) : Prop :=
  Forall (fun tm => is_typing_timer tm = false) (timers w).

(** Unmounted, with no typing timer pending, and [l] the typing calls made
    so far. *)
Definition silent (l : list TypingCall) (w : World) : Prop :=
  mounted w = false /\ no_typing_timer w /\ typing_calls w = l.

Definition typing_refs (d t : option positive) (l : list TypingCall)
    (Q : Timer -> Prop) (w : World) : Prop :=
  typingDebounceRef w = d /\ typingTimeoutRef w = t /\ typing_calls w = l
  /\ Forall Q (timers w).

(** The pending timers of [handleTypingStart] with the given flag: the
    debounce timer for [true], the stop timer for [false]. *)
Definition typing_timer_with (flag : bool) (tm : Timer) : bool :=
  match callback tm with
  | TypingCb _ _ f => eqb f flag
  | ReconnectCb _ _ => false
  end.

Definition pending_typing (flag : bool) (w : World) : list Timer :=
  filter (typing_timer_with flag) (timers w).

Definition at_most_one_each (w : World) : Prop :=
  (length (pending_typing true w) <= 1)%nat /\ (length (pending_typing false w) <= 1)%nat.

(** *** Outbound frames *)

(** A text as [trim] leaves it when something is left: it starts and ends
    with a code unit that is not white space. *)
Definition trimmed (text : jsstring) : Prop :=
  (exists c rest, text = c :: rest /\ is_whitespace c = false)
  /\ (exists front c, text = front ++ [c] /\ is_whitespace c = false).

(** The two frames of the outbound protocol. *)
Definition outbound (f : json) : Prop :=
  (exists text uid, f = chat_message_frame text uid /\ trimmed text)
  \/ (exists receiver flag, f = typing_frame receiver flag).

Definition only_outbound (w : World) : Prop :=
  Forall (fun sock => Forall outbound (sent sock)) (sockets w).

(** *** Typing users *)

(** [typingUsers] after the typing events given, oldest first, each the
    user and the flag [handleTyping] was called with. *)
Definition typing_users (me : option IUser) (events : list (IUser * bool)) : list IUser :=
  fold_left (fun prev ev => handleTyping me (fst ev) (snd ev) prev) events [].

(** The flag of the latest event about the user with identifier [i]. *)
Fixpoint last_flag (i : Z) (events : list (IUser * bool)) : option bool :=
  match events with
  | [] => None
  | ev :: rest =>
      match last_flag i rest with
      | Some f => Some f
      | None => if user_id (fst ev) =? i then Some (snd ev) else None
      end
  end.

(** *** Member selection *)

(** No user is selected twice, and no selected user is still offered. *)
Definition separate (st : NewGroupChatModal.State) : Prop :=
  NoDup (map user_id (NewGroupChatModal.selectedUsers st))
  /\ forall i, i ∈ map user_id (NewGroupChatModal.users st) ->
               i ∉ map user_id (NewGroupChatModal.selectedUsers st).

(** A session: both tokens in the state and in the storage. *)
Definition signed_in : AuthContext.State :=
  AuthContext.setTokens (Some (js "A")) (Some (js "R"))
    (AuthContext.initial (fun _ => None)).

Definition picking : NewGroupChatModal.State :=
  {| NewGroupChatModal.users := [bob; carol]; NewGroupChatModal.selectedUsers := [];
     NewGroupChatModal.groupName := js " team " |}.

(** *** The message list and the connection indicators *)

Definition messages_after (events : list MessagesEvent) : list IMessage :=
  fold_left messages_step events [].

(** The messages the hook handed over, in order. *)
Definition received (events : list MessagesEvent) : list IMessage :=
  omap (fun e => match e with NewMessage m => Some m | LoadMessages _ => None end) events.

Definition no_load (events : list MessagesEvent) : Prop :=
  Forall (fun e => forall data, e <> LoadMessages (Some data)) events.

(** What the hook holds of its connection. *)
Record connection_is (socks : list WebSocket) (ref : option nat) (connected : bool)
    (err : option jsstring) (w : World) : Prop := {
  ci_sockets : sockets w = socks;
  ci_wsRef : wsRef w = ref;
  ci_isConnected : isConnected w = connected;
  ci_connectionError : connectionError w = err
}.

(** Alice has picked conversation 42; its socket has not opened yet. *)
Definition selected42 : World := run (logged_in ++ [SelectConversation chat42]) initial.

(** ** Proofs *)

Ltac unfold_m :=
  repeat progress
    unfold mbind, mret, M_bind, M_ret, try_catch, throw, read, write,
      ws_readyState, ws_send, ws_close, update_socket, console_log,
      setIsConnected, setConnectionError, setNewMessage, setError, setIsTyping,
      call_ui, Date_now, setTimeout, clearTimeout, new_WebSocket in *.

(** *** Properties kept by handlers *)

Section Keeps.
Context (P : World -> Prop).

Lemma keeps_ret {A} (a : A) : keeps P (mret a).
Proof. intros w H. exact H. Qed.

Lemma keeps_throw {A} (e : exn) : keeps P (throw (A:=A) e).
Proof. intros w H. exact H. Qed.

Lemma keeps_read {A} (f : World -> A) : keeps P (read f).
Proof. intros w H. exact H. Qed.

Lemma keeps_write (g : World -> World) :
  (forall w, P w -> P (g w)) -> keeps P (write g).
Proof. intros Hg w H. apply Hg, H. Qed.

Lemma keeps_bind {A B} (m : M A) (k : A -> M B) :
  keeps P m -> (forall a, keeps P (k a)) -> keeps P (m ≫= k).
Proof.
  intros Hm Hk w H. specialize (Hm w H).
  unfold mbind, M_bind. destruct (m w) as [a w'|e w']; simpl in *.
  - apply Hk, Hm.
  - exact Hm.
Qed.

Lemma keeps_try_catch (body : M unit) (handler : exn -> M unit) :
  keeps P body -> (forall e, keeps P (handler e)) -> keeps P (try_catch body handler).
Proof.
  intros Hb Hh w H. specialize (Hb w H).
  unfold try_catch. destruct (body w) as [a w'|e w']; simpl in *.
  - exact Hb.
  - apply Hh, Hb.
Qed.

Lemma keeps_forEach {A} (l : list A) (f : A -> M unit) :
  (forall x, keeps P (f x)) -> keeps P (forEach l f).
Proof.
  intros Hf. induction l as [|x l IH]; simpl.
  - apply keeps_ret.
  - apply keeps_bind; [apply Hf|intros _; exact IH].
Qed.

Lemma keeps_guarded (b : World -> bool) (m : M unit) :
  keeps P m -> keeps P (guarded b m).
Proof.
  intros Hm w H. unfold guarded. destruct (b w); [apply Hm, H|exact H].
Qed.
End Keeps.

(** Break a handler down along its structure. *)
Ltac keeps_step :=
  match goal with
  | |- keeps _ (mret _) => apply keeps_ret
  | |- keeps _ (throw _) => apply keeps_throw
  | |- keeps _ (read _) => apply keeps_read
  | |- keeps _ (_ ≫= _) => apply keeps_bind; [|intros ?]
  | |- keeps _ (try_catch _ _) => apply keeps_try_catch; [|intros ?]
  | |- keeps _ (forEach _ _) => apply keeps_forEach; intros ?
  | |- keeps _ (guarded _ _) => apply keeps_guarded
  | |- keeps _ (match ?x with _ => _ end) => destruct x
  | |- keeps _ (if ?x then _ else _) => destruct x
  end.

(** Solve [keeps P m] for handlers built from writes that [P] does not
    look at. *)
Ltac unfold_prims :=
  repeat progress
    unfold ws_readyState, ws_send, ws_close, update_socket, console_log,
      setIsConnected, setConnectionError, setNewMessage, setError, setIsTyping,
      call_ui, Date_now, setTimeout, clearTimeout, new_WebSocket in *.

Ltac keeps_frame P :=
  unfold_prims;
  repeat keeps_step;
  try (apply keeps_write; intros ? ?; unfold P in *;
       repeat case_match; simpl in *; assumption).

(** *** Invariants of the event loop *)

Lemma clock_sendTyping t r flag : keeps (clock_at_most t) (sendTyping r flag).
Proof. unfold sendTyping. keeps_frame clock_at_most. Qed.

Lemma clock_fire t cb : keeps (clock_at_most t) (fire cb).
Proof.
  destruct cb as [cid tok|conv u flag]; simpl.
  - unfold connect. keeps_frame clock_at_most.
  - unfold typing_timer. keeps_frame clock_at_most; apply clock_sendTyping.
Qed.

Lemma run_due_clock (fuel : nat) (t : Z) (w : World) :
  clock w <= t -> clock (run_due fuel t w) <= t.
Proof.
  revert w. induction fuel as [|fuel IH]; intros w H; simpl; [exact H|].
  destruct (timers w) as [|tm rest] eqn:Hq; [exact H|].
  destruct (due tm <=? t) eqn:Hdue; [|exact H].
  apply IH. unfold run_task.
  pose proof (clock_fire t (callback tm)
                (set_clock (Z.max (clock w) (due tm)) (set_timers rest w))) as Hf.
  unfold clock_at_most in Hf. simpl in Hf.
  destruct (fire (callback tm) _) as [a w'|e w']; simpl in *; apply Hf; lia.
Qed.

Section TaskInvariant.
Context (P : World -> Prop).
Hypothesis P_console : forall w l, P w -> P (set_console l w).

Lemma run_task_keeps (m : M unit) (w : World) :
  keeps P m -> P w -> P (run_task m w).
Proof.
  intros Hm H. specialize (Hm w H). unfold run_task.
  destruct (m w) as [a w'|e w']; simpl in *; [exact Hm|apply P_console, Hm].
Qed.

(** A property kept by every handler and by the passing of time holds
    along every run. *)
Hypothesis P_handle : forall e, keeps P (handle e).
Hypothesis P_tick : forall dt w, P w -> P (tick dt w).

Lemma step_keeps (w : World) (e : Event) : P w -> P (step w e).
Proof.
  intros H. destruct e; try (apply run_task_keeps; [apply P_handle|exact H]).
  apply P_tick, H.
Qed.

Lemma run_keeps (es : list Event) (w : World) : P w -> P (run es w).
Proof.
  revert w. induction es as [|e es IH]; intros w H; simpl; [exact H|].
  apply IH, step_keeps, H.
Qed.
End TaskInvariant.

(** A property that does not read the timer queue is kept by the passing
    of time as soon as the timer callbacks keep it and it survives a later
    clock. *)
Section TickInvariant.
Context (P : World -> Prop).
Hypothesis P_console : forall w l, P w -> P (set_console l w).
Hypothesis P_fire : forall cb, keeps P (fire cb).
Hypothesis P_clock : forall w t, clock w <= t -> P w -> P (set_clock t w).
Hypothesis P_pop :
  forall w tm rest, timers w = tm :: rest -> P w -> P (set_timers rest w).

Lemma run_due_keeps (fuel : nat) (t : Z) (w : World) :
  P w -> P (run_due fuel t w).
Proof.
  revert w. induction fuel as [|fuel IH]; intros w H; simpl; [exact H|].
  destruct (timers w) as [|tm rest] eqn:Hq; [exact H|].
  destruct (due tm <=? t); [|exact H].
  apply IH, run_task_keeps; [exact P_console|apply P_fire|].
  apply P_clock; [simpl; lia|]. eapply P_pop; eassumption.
Qed.

Lemma tick_keeps (dt : Z) (w : World) : P w -> P (tick dt w).
Proof.
  intros H. unfold tick. apply P_clock; [|apply run_due_keeps, H].
  apply run_due_clock. lia.
Qed.
End TickInvariant.

Ltac unfold_handlers :=
  repeat progress
    unfold handle, fire, rerender, effect, cleanup, connect, disconnect,
      page_cleanup, handleTypingStart, handleSendMessage, sendMessage,
      sendTyping, typing_timer, deliver_open, deliver_message, deliver_error,
      deliver_close, onopen, onclose, onerror in *.

Lemma keeps_Date_now_bind {B} (P : World -> Prop) (k : Z -> M B) :
  (forall w, P w -> P (world_of (k (system_clock w) w))) -> keeps P (Date_now ≫= k).
Proof. intros Hk w H. apply Hk, H. Qed.

(** *** Sending a chat message (useWebSocket.sendMessage) *)

Lemma sendMessage_open (w : World) (text : jsstring) (s : nat) (sock : WebSocket)
    (u : IUser) :
  wsRef w = Some s -> sockets w !! s = Some sock -> readyState sock = OPEN ->
  sendMessage (Some u) text w =
    Returns tt
      (set_sockets
         (<[s := push_sent (chat_message_frame text (user_id u)) sock]> (sockets w)) w).
Proof.
  intros Hs Hsock Hopen.
  unfold sendMessage. unfold_m. rewrite Hs. simpl. rewrite Hsock. simpl.
  rewrite Hopen. simpl. rewrite Hsock, Hopen. simpl. rewrite Hsock. reflexivity.
Qed.

Lemma sendMessage_closed (w : World) (text : jsstring) (usr : option IUser) :
  connection_open w = false -> sendMessage usr text w = Returns tt w.
Proof.
  intros Hclosed.
  unfold connection_open, current_socket in Hclosed.
  unfold sendMessage. unfold_m.
  destruct (wsRef w) as [s|]; simpl in *; [|reflexivity].
  destruct usr as [u|]; [|reflexivity].
  destruct (sockets w !! s) as [sock|]; simpl in *; [|reflexivity].
  destruct (readyState sock); simpl in *; try reflexivity; discriminate.
Qed.

(** C6. [sendMessage text] on an open connection, with the local user [u]
    known, hands exactly the frame [{type: "chat_message", message: text,
    user: u.id}] to the current socket and changes nothing else; when the
    connection is not open the call returns normally and leaves the world
    as it was. *)
Theorem sendMessage_frame_or_noop (w : World) (text : jsstring) :
  (forall s sock u,
      wsRef w = Some s -> sockets w !! s = Some sock -> readyState sock = OPEN ->
      sendMessage (Some u) text w =
        Returns tt
          (set_sockets
             (<[s := push_sent
                       (JObj [(js "type", JStr (js "chat_message"));
                              (js "message", JStr text);
                              (js "user", JNum (user_id u))]) sock]>
                (sockets w))
             w))
  /\ (forall usr, connection_open w = false -> sendMessage usr text w = Returns tt w).
Proof.
  split.
  - intros s sock u. apply sendMessage_open.
  - intros usr. apply sendMessage_closed.
Qed.


Lemma sendMessage_frame_or_noop_witness :
  sendMessage (Some alice) (js "hi") opened42
  = Returns tt
      (set_sockets
         (<[0%nat := push_sent (chat_message_frame (js "hi") 7)
                       {| readyState := OPEN; url_conversation := 42;
                          url_token := js "T"; sent := []; close_request := None |}]>
            (sockets opened42))
         opened42)
  /\ sendMessage (Some alice) (js "hi") initial = Returns tt initial.
Proof.
  split.
  - exact (proj1 (sendMessage_frame_or_noop opened42 (js "hi")) 0%nat _ alice
             eq_refl eq_refl eq_refl).
  - exact (proj2 (sendMessage_frame_or_noop initial (js "hi")) (Some alice) eq_refl).
Defined.

(** *** The dispatcher (useWebSocket.connect, onmessage) *)

Lemma is_literal_refl (l : string) : is_literal (Some (JStr (js l))) l = true.
Proof. simpl. apply bool_decide_eq_true_2. reflexivity. Qed.

(** What the dispatcher does with a frame whose [type] is [chat_message]. *)
Lemma onmessage_chat_message (cid : Z) (fields : list (jsstring * json)) (w : World) :
  assoc (js "type") fields = Some (JStr (js "chat_message")) ->
  onmessage cid (WellFormed (JObj fields)) w =
    match assoc (js "message") fields, assoc (js "user") fields,
          assoc (js "timestamp") fields with
    | Some m, Some usr, Some ts =>
        if truthy (Some m) && truthy (Some usr) && truthy (Some ts)
        then Returns tt
               (set_ui_calls
                  (ui_calls w ++
                   [OnMessage {| msg_id := system_clock w; content := m; sender := usr;
                                 conversation := cid; created_at := ts |}]) w)
        else Returns tt w
    | _, _, _ => Returns tt w
    end.
Proof.
  intros Hty. unfold onmessage, JSON_parse, get. unfold_m. simpl.
  rewrite Hty, is_literal_refl.
  destruct (assoc (js "message") fields) as [m|]; [|reflexivity].
  destruct (assoc (js "user") fields) as [usr|]; [|reflexivity].
  destruct (assoc (js "timestamp") fields) as [ts|]; [|reflexivity].
  destruct (truthy (Some m) && truthy (Some usr) && truthy (Some ts)); reflexivity.
Qed.

Lemma set_console_same (w : World) : set_console (console w ++ []) w = w.
Proof. destruct w. unfold set_console. simpl. rewrite app_nil_r. reflexivity. Qed.

(** C4. A frame that fails to decode, or lacks a field its declared type
    requires, is dropped: the handler returns normally (nothing is thrown),
    no callback is called, no socket changes state, and the only trace left
    is the console entry written when decoding failed. *)
Theorem malformed_frame_dropped (s : nat) (d : MessageData) (w : World) :
  malformed d = true ->
  exists log,
    deliver_message s d w = Returns tt (set_console (console w ++ log) w)
    /\ (log = [] \/ exists e, log = [LogParseError e]).
Proof.
  intros Hbad.
  assert (Hdrop : forall cid,
    exists log, onmessage cid d w = Returns tt (set_console (console w ++ log) w)
                /\ (log = [] \/ exists e, log = [LogParseError e])).
  { intros cid. destruct d as [j|raw].
    - destruct j as [ |b|n|str|items|fields];
        try (exists []; rewrite set_console_same; split; [reflexivity|left; reflexivity]).
      + exists [LogParseError TypeError]. split; [reflexivity|right; eauto].
      + exists []. rewrite set_console_same. split; [|left; reflexivity].
        simpl in Hbad. unfold onmessage, JSON_parse, get, missing in *. unfold_m. simpl.
        destruct (is_literal (assoc (js "type") fields) "chat_message").
        { destruct (assoc (js "message") fields); [|reflexivity].
          destruct (assoc (js "user") fields); [|reflexivity].
          destruct (assoc (js "timestamp") fields); [discriminate|reflexivity]. }
        destruct (is_literal (assoc (js "type") fields) "typing").
        { destruct (assoc (js "user") fields); [discriminate|reflexivity]. }
        destruct (is_literal (assoc (js "type") fields) "online_status"); [|discriminate].
        destruct (assoc (js "online_users") fields); [|reflexivity].
        destruct (assoc (js "status") fields); [discriminate|reflexivity].
    - exists [LogParseError SyntaxError]. split; [reflexivity|right; eauto]. }
  unfold deliver_message. unfold_m.
  destruct (sockets w !! s) as [k|];
    [|exists []; rewrite set_console_same; split; [reflexivity|left; reflexivity]].
  destruct (readyState k); try apply Hdrop;
    exists []; rewrite set_console_same; (split; [reflexivity|left; reflexivity]).
Qed.

Lemma malformed_frame_dropped_witness :
  ui_calls
    (step opened42
       (SocketMessage 0%nat
          (WellFormed (JObj [(js "type", JStr (js "typing"));
                             (js "is_typing", JBool true)])))) = []
  /\ ui_calls (step opened42 (SocketMessage 0%nat (Malformed (js "{oops")))) = [].
Proof.
  split.
  - destruct (malformed_frame_dropped 0%nat
      (WellFormed (JObj [(js "type", JStr (js "typing")); (js "is_typing", JBool true)]))
      opened42 eq_refl) as (log & Hrun & _).
    unfold step, run_task, handle. rewrite Hrun. reflexivity.
  - destruct (malformed_frame_dropped 0%nat (Malformed (js "{oops")) opened42 eq_refl)
      as (log & Hrun & _).
    unfold step, run_task, handle. rewrite Hrun. reflexivity.
Defined.

(** *** Accepted chat messages *)

(** A [chat_message] frame that carries a text, a sender and a timestamp
    field is dropped all the same when the timestamp is the empty string. *)
Lemma chat_message_empty_timestamp_dropped :
  match chat_empty_timestamp with
  | JObj fields =>
      assoc (js "type") fields = Some (JStr (js "chat_message"))
      /\ assoc (js "message") fields = Some (JStr (js "hi"))
      /\ assoc (js "user") fields = Some (user_json bob)
      /\ assoc (js "timestamp") fields = Some (JStr [])
  | _ => False
  end
  /\ connection_open opened42 = true
  /\ step opened42 (SocketMessage 0%nat (WellFormed chat_empty_timestamp)) = opened42.
Proof. vm_compute. repeat split. Qed.

(** C3, amended. A [chat_message] frame with a non-empty text, a sender
    object and a non-empty timestamp makes the dispatcher call the message
    callback once, with a message that has the frame's text, sender and
    timestamp, the conversation id the connection was opened for, and the
    reading of the system clock as identity; nothing else changes.  When
    one of the three fields is absent, or the text or the timestamp is
    empty, the frame is dropped and the world stays as it was. *)
Theorem chat_message_dispatch (cid : Z) (fields : list (jsstring * json)) (w : World) :
  assoc (js "type") fields = Some (JStr (js "chat_message")) ->
  (forall m usr ts,
      assoc (js "message") fields = Some (JStr m) -> m <> [] ->
      assoc (js "user") fields = Some (JObj usr) ->
      assoc (js "timestamp") fields = Some (JStr ts) -> ts <> [] ->
      onmessage cid (WellFormed (JObj fields)) w =
        Returns tt
          (set_ui_calls
             (ui_calls w ++
              [OnMessage {| msg_id := system_clock w; content := JStr m;
                            sender := JObj usr; conversation := cid;
                            created_at := JStr ts |}]) w))
  /\ (assoc (js "message") fields = None
      \/ assoc (js "message") fields = Some (JStr [])
      \/ assoc (js "user") fields = None
      \/ assoc (js "timestamp") fields = None
      \/ assoc (js "timestamp") fields = Some (JStr []) ->
      onmessage cid (WellFormed (JObj fields)) w = Returns tt w).
Proof.
  intros Hty. rewrite (onmessage_chat_message cid fields w Hty). split.
  - intros m usr ts -> Hm -> -> Hts.
    destruct m; [congruence|]. destruct ts; [congruence|]. reflexivity.
  - intros [H|[H|[H|[H|H]]]]; rewrite H; try reflexivity;
      repeat case_match; try reflexivity;
      match goal with
      | E : _ && _ = true |- _ => simpl in E; rewrite ?andb_false_r in E; discriminate
      end.
Qed.

Lemma chat_message_dispatch_witness :
  onmessage 42 (WellFormed (inbound_chat (js "hi") bob (js "2024-05-01T10:00:00Z")))
    opened42
  = Returns tt
      (set_ui_calls
         (ui_calls opened42 ++
          [OnMessage {| msg_id := system_clock opened42; content := JStr (js "hi");
                        sender := user_json bob; conversation := 42;
                        created_at := JStr (js "2024-05-01T10:00:00Z") |}])
         opened42)
  /\ onmessage 42 (WellFormed (JObj chat_without_timestamp)) opened42
     = Returns tt opened42.
Proof.
  split.
  - apply (proj1 (chat_message_dispatch 42
                    (inbound_chat_fields (js "hi") bob (js "2024-05-01T10:00:00Z"))
                    opened42 eq_refl)
             (js "hi") _ (js "2024-05-01T10:00:00Z") eq_refl ltac:(discriminate)
             eq_refl eq_refl ltac:(discriminate)).
  - apply (proj2 (chat_message_dispatch 42 chat_without_timestamp opened42 eq_refl)
             (or_intror (or_intror (or_intror (or_introl eq_refl))))).
Defined.

(** *** Locally assigned message identities *)

Lemma message_ids_app (l1 l2 : list UICall) :
  message_ids (l1 ++ l2) = message_ids l1 ++ message_ids l2.
Proof. unfold message_ids. apply omap_app. Qed.

Lemma StronglySorted_snoc (l : list Z) (x : Z) :
  StronglySorted Z.le l -> Forall (fun i => i <= x) l -> StronglySorted Z.le (l ++ [x]).
Proof.
  induction 1 as [|a l Hs IH Ha]; intros Hx; simpl.
  - repeat constructor.
  - inversion Hx as [|? ? Hax Hlx]; subst. constructor.
    + apply IH, Hlx.
    + apply Forall_app. split; [exact Ha|repeat constructor; exact Hax].
Qed.

Lemma ids_ordered_call (c : UICall) (w : World) :
  (forall m, c = OnMessage m -> msg_id m = system_clock w) ->
  ids_ordered w -> ids_ordered (set_ui_calls (ui_calls w ++ [c]) w).
Proof.
  intros Hc [Hs Hb]. unfold ids_ordered. simpl. rewrite message_ids_app.
  destruct c as [m| |]; simpl; try (rewrite app_nil_r; split; assumption).
  rewrite (Hc m eq_refl). split.
  - apply StronglySorted_snoc; assumption.
  - apply Forall_app. split; [exact Hb|repeat constructor; unfold system_clock; simpl; lia].
Qed.

Lemma ids_ordered_later (t : Z) (w : World) :
  clock w <= t -> ids_ordered w -> ids_ordered (set_clock t w).
Proof.
  intros Ht [Hs Hb]. split; simpl; [exact Hs|].
  eapply Forall_impl; [|exact Hb]. unfold system_clock. simpl. intros; lia.
Qed.

Lemma ids_ordered_set_forward (delta : Z) (w : World) :
  0 <= delta -> ids_ordered w -> ids_ordered (set_date_offset (date_offset w + delta) w).
Proof.
  intros Hd [Hs Hb]. split; simpl; [exact Hs|].
  eapply Forall_impl; [|exact Hb]. unfold system_clock. simpl. intros; lia.
Qed.

Lemma ids_ordered_connect cid tok : keeps ids_ordered (connect cid tok).
Proof. unfold connect. keeps_frame ids_ordered. Qed.

Lemma ids_ordered_disconnect : keeps ids_ordered disconnect.
Proof. unfold disconnect. keeps_frame ids_ordered. Qed.

Lemma ids_ordered_sendMessage usr text : keeps ids_ordered (sendMessage usr text).
Proof. unfold sendMessage. keeps_frame ids_ordered. Qed.

Lemma ids_ordered_sendTyping r flag : keeps ids_ordered (sendTyping r flag).
Proof. unfold sendTyping. keeps_frame ids_ordered. Qed.

Lemma ids_ordered_onmessage cid d : keeps ids_ordered (onmessage cid d).
Proof.
  unfold onmessage, JSON_parse, get.
  repeat first [apply keeps_Date_now_bind | keeps_step];
    try (unfold call_ui; apply keeps_write; intros w H; apply ids_ordered_call;
         [discriminate|exact H]);
    try (keeps_frame ids_ordered).
  intros w H. apply ids_ordered_call; [|exact H].
  intros m' [= <-]. reflexivity.
Qed.

Lemma ids_ordered_handle e : sets_back e = false -> keeps ids_ordered (handle e).
Proof.
  intros Hback.
  destruct e; unfold_handlers;
    try (apply keeps_write; intros w H; apply ids_ordered_set_forward;
         [simpl in Hback; lia|exact H]);
    repeat first [apply ids_ordered_onmessage | keeps_step];
    keeps_frame ids_ordered.
Qed.

Lemma ids_ordered_fire cb : keeps ids_ordered (fire cb).
Proof. destruct cb; unfold_handlers; keeps_frame ids_ordered. Qed.

Lemma ids_ordered_step (w : World) (e : Event) :
  sets_back e = false -> ids_ordered w -> ids_ordered (step w e).
Proof.
  intros Hback H.
  assert (Hc : forall w' l, ids_ordered w' -> ids_ordered (set_console l w'))
    by (intros w' l H'; exact H').
  destruct e;
    try (apply (run_task_keeps ids_ordered Hc);
         [apply ids_ordered_handle; exact Hback|exact H]).
  apply (tick_keeps ids_ordered); try assumption.
  - apply ids_ordered_fire.
  - intros w' t Ht H'. apply ids_ordered_later; assumption.
  - intros w' tm rest _ H'. exact H'.
Qed.

Lemma ids_ordered_run (es : list Event) (w : World) :
  Forall (fun e => sets_back e = false) es -> ids_ordered w -> ids_ordered (run es w).
Proof.
  intros Hes. revert w. induction Hes as [|e es He _ IH]; intros w H; simpl; [exact H|].
  apply IH, ids_ordered_step; assumption.
Qed.

(** What the delivery of an accepted chat message leaves behind. *)
Lemma accepted_chat_message (s : nat) (k : WebSocket) (text : jsstring) (u : IUser)
    (timestamp : jsstring) (w : World) :
  sockets w !! s = Some k -> readyState k = OPEN -> text <> [] -> timestamp <> [] ->
  step w (SocketMessage s (WellFormed (inbound_chat text u timestamp)))
  = set_ui_calls
      (ui_calls w ++
       [OnMessage {| msg_id := system_clock w; content := JStr text;
                     sender := user_json u; conversation := url_conversation k;
                     created_at := JStr timestamp |}]) w.
Proof.
  intros Hk Hopen Htext Hts.
  unfold step, run_task, handle, deliver_message. unfold_m. rewrite Hk, Hopen.
  unfold inbound_chat.
  rewrite (onmessage_chat_message _ (inbound_chat_fields text u timestamp) w eq_refl).
  simpl. destruct text; [congruence|]. destruct timestamp; [congruence|]. reflexivity.
Qed.

(** Two different frames accepted at the same clock reading get the same
    identity, so the identities are not strictly increasing. *)
Lemma same_reading_same_id :
  (exists m1 m2,
      ui_calls (run two_frames initial) = [OnMessage m1; OnMessage m2]
      /\ content m1 = JStr (js "hi") /\ content m2 = JStr (js "yo")
      /\ msg_id m1 = 1000 /\ msg_id m2 = 1000)
  /\ ~ StronglySorted Z.lt (message_ids (ui_calls (run two_frames initial))).
Proof.
  split.
  - eexists _, _. vm_compute. repeat split.
  - change (message_ids (ui_calls (run two_frames initial))) with [1000; 1000].
    intros H. apply StronglySorted_inv in H as [_ H].
    inversion H as [|? ? Hlt _]. lia.
Qed.

(** C5, amended. The identity given to an accepted chat message is the
    reading of the system clock ([Date.now()]) at its arrival: a delivery
    adds no identity or that reading.  So frames that arrive at the same
    reading get equal identities, and over a run in which the system clock
    is never set back the identities handed to the message callback are
    non-decreasing in arrival order.  They follow the clock when it is set:
    of two frames accepted one after the other with the clock set by
    [delta] in between, the second gets the identity of the first plus
    [delta], a smaller one when the clock was set back. *)
Theorem message_ids_are_clock_readings (es : list Event) :
  let w := run es initial in
  (forall s d,
      message_ids (ui_calls (step w (SocketMessage s d))) = message_ids (ui_calls w)
      \/ message_ids (ui_calls (step w (SocketMessage s d)))
         = message_ids (ui_calls w) ++ [system_clock w])
  /\ (Forall (fun e => sets_back e = false) es ->
      StronglySorted Z.le (message_ids (ui_calls w)))
  /\ (forall s k text1 u1 ts1 text2 u2 ts2 delta,
        sockets w !! s = Some k -> readyState k = OPEN ->
        text1 <> [] -> ts1 <> [] -> text2 <> [] -> ts2 <> [] ->
        message_ids
          (ui_calls (run [SocketMessage s (WellFormed (inbound_chat text1 u1 ts1));
                          SystemClock delta;
                          SocketMessage s (WellFormed (inbound_chat text2 u2 ts2))] w))
        = message_ids (ui_calls w) ++ [system_clock w; system_clock w + delta]).
Proof.
  cbv zeta. split; [|split].
  - intros s d. generalize (run es initial) as w. intros w.
    unfold step, run_task, handle, deliver_message. unfold_m.
    destruct (sockets w !! s) as [k|]; [|left; reflexivity].
    destruct (readyState k); try (left; reflexivity).
    unfold onmessage, JSON_parse, get. unfold_m.
    destruct d as [j|raw]; [|left; reflexivity].
    destruct j as [ |b|n|str|items|fields]; try (left; reflexivity).
    simpl. repeat case_match; simplify_eq; simpl; rewrite ?message_ids_app; simpl;
      rewrite ?app_nil_r; auto.
  - intros Hes. apply (ids_ordered_run es initial Hes). split; constructor.
  - intros s k text1 u1 ts1 text2 u2 ts2 delta. generalize (run es initial) as w.
    intros w Hk Hopen H1 H2 H3 H4.
    change (run [?a; ?b; ?c] w) with (step (step (step w a) b) c).
    rewrite (accepted_chat_message s k text1 u1 ts1 w Hk Hopen H1 H2).
    set (w1 := set_ui_calls _ w).
    change (step w1 (SystemClock delta))
      with (set_date_offset (date_offset w1 + delta) w1).
    set (w2 := set_date_offset _ w1).
    rewrite (accepted_chat_message s k text2 u2 ts2 w2 Hk Hopen H3 H4).
    simpl. rewrite !message_ids_app. simpl. rewrite <- app_assoc. simpl.
    unfold system_clock. simpl. do 3 f_equal. lia.
Qed.

Lemma message_ids_are_clock_readings_witness :
  StronglySorted Z.le (message_ids (ui_calls (run two_frames initial)))
  /\ message_ids
       (ui_calls
          (run [SocketMessage 0%nat (WellFormed (inbound_chat (js "hi") bob (js "10:00")));
                SystemClock (-400);
                SocketMessage 0%nat (WellFormed (inbound_chat (js "yo") bob (js "10:01")))]
             (run (opening42 ++ [Tick 1000]) initial)))
     = [1000; 600].
Proof.
  split.
  - apply (proj1 (proj2 (message_ids_are_clock_readings two_frames))).
    repeat constructor.
  - exact (proj2 (proj2 (message_ids_are_clock_readings (opening42 ++ [Tick 1000])))
             0%nat
             {| readyState := OPEN; url_conversation := 42; url_token := js "T";
                sent := []; close_request := None |}
             (js "hi") bob (js "10:00") (js "yo") bob (js "10:01") (-400)
             eq_refl eq_refl ltac:(discriminate) ltac:(discriminate)
             ltac:(discriminate) ltac:(discriminate)).
Defined.

(** *** Reconnection (useWebSocket.connect, onclose) *)

(** [connect] when the constructor accepts the URL. *)
Lemma connect_opens (cid : Z) (tok : jsstring) (w : World) :
  cid <> 0 -> tok <> [] -> has_fragment tok = false ->
  connect (Some cid) (Some tok) w =
    Returns tt
      (let w1 := close_current None w in
       set_wsRef (Some (length (sockets w1)))
         (set_sockets (sockets w1 ++ [fresh_socket cid tok]) w1)).
Proof.
  intros Hcid Htok Hurl. unfold connect, close_current. simpl.
  destruct (Z.eqb_spec cid 0) as [|_]; [contradiction|].
  destruct tok as [|c tok]; [contradiction|]. simpl.
  unfold_m. rewrite Hurl.
  destruct (wsRef w) as [old|]; [|reflexivity].
  destruct (sockets w !! old) as [sock|]; reflexivity.
Qed.

(** [connect] when the constructor throws: the socket [wsRef] holds has
    been asked to close and stays the one [wsRef] holds, no socket is
    created, and the [catch] block reports the failure. *)
Lemma connect_rejected (cid : Z) (tok : jsstring) (w : World) :
  cid <> 0 -> tok <> [] -> has_fragment tok = true ->
  connect (Some cid) (Some tok) w =
    Returns tt
      (let w1 := close_current None w in
       set_connectionError (Some (js "Failed to connect"))
         (set_console (console w1 ++ [LogCreateError SyntaxError]) w1)).
Proof.
  intros Hcid Htok Hurl. unfold connect, close_current. simpl.
  destruct (Z.eqb_spec cid 0) as [|_]; [contradiction|].
  destruct tok as [|c tok]; [contradiction|]. simpl.
  unfold_m. rewrite Hurl.
  destruct (wsRef w) as [old|]; [|reflexivity].
  destruct (sockets w !! old) as [sock|]; reflexivity.
Qed.

Lemma deliver_close_runs (s : nat) (k : WebSocket) (code : Z) (w : World) :
  sockets w !! s = Some k -> readyState k <> CLOSED ->
  deliver_close s code w =
    let w1 := set_isConnected false
                (set_console (console w ++ [LogDisconnected code])
                   (set_sockets (<[s := set_readyState CLOSED k]> (sockets w)) w)) in
    Returns tt
      (if code =? 1000 then w1
       else set_reconnectTimeoutRef (Some (next_timer w))
              (set_next_timer (Pos.succ (next_timer w))
                 (set_timers
                    (enqueue {| timer_id := next_timer w; due := clock w + 3000;
                                callback := ReconnectCb (Some (url_conversation k))
                                                        (Some (url_token k)) |}
                             (timers w)) w1))).
Proof.
  intros Hk Hst. unfold deliver_close, onclose. unfold_m. rewrite Hk.
  destruct (readyState k) eqn:E; try congruence; rewrite Hk;
    destruct (code =? 1000); reflexivity.
Qed.

Lemma tick_single (dt : Z) (tm : Timer) (w : World) :
  timers w = [tm] -> due tm <= clock w + Z.max 0 dt ->
  tick dt w =
    set_clock (clock w + Z.max 0 dt)
      (run_task (fire (callback tm))
         (set_clock (Z.max (clock w) (due tm)) (set_timers [] w))).
Proof.
  intros Hq Hdue. unfold tick. rewrite Hq. simpl length. unfold run_due.
  rewrite Hq. destruct (Z.leb_spec (due tm) (clock w + Z.max 0 dt)); [reflexivity|lia].
Qed.

Lemma close_current_timers code w : timers (close_current code w) = timers w.
Proof. unfold close_current. repeat case_match; reflexivity. Qed.

Lemma close_current_length code w :
  length (sockets (close_current code w)) = length (sockets w).
Proof.
  unfold close_current. repeat case_match; simpl; rewrite ?length_insert; reflexivity.
Qed.

Lemma reconnect_round (cid : Z) (tok : jsstring) (s : nat) (code : Z) (w : World) :
  cid <> 0 -> tok <> [] -> has_fragment tok = false -> code <> 1000 ->
  awaiting cid tok s w ->
  let w' := run [SocketClose s code; Tick 3000] w in
  awaiting cid tok (S s) w'
  /\ clock w' = clock w + 3000
  /\ sockets w' !! S s = Some (fresh_socket cid tok).
Proof.
  intros Hcid Htok Hurl Hcode (Hws & Hlen & (k & Hk & Hst & <- & <-) & Hq).
  cbv zeta.
  change (run [SocketClose s code; Tick 3000] w)
    with (tick 3000 (run_task (deliver_close s code) w)).
  unfold run_task.
  rewrite (deliver_close_runs s k code w Hk Hst). cbv zeta.
  destruct (Z.eqb_spec code 1000) as [|_]; [contradiction|].
  rewrite Hq.
  erewrite tick_single; [|reflexivity|simpl; lia].
  match goal with
  | |- context [set_clock ?c (set_timers [] ?x)] =>
      set (X := set_clock c (set_timers [] x))
  end.
  assert (HX : length (sockets X) = S s).
  { subst X. simpl. rewrite length_insert. exact Hlen. }
  simpl callback. unfold fire, run_task.
  rewrite (connect_opens _ _ X Hcid Htok Hurl). cbv zeta.
  pose proof (close_current_length None X) as Hcl. rewrite HX in Hcl.
  pose proof (close_current_timers None X) as Hct.
  assert (Hlast : (sockets (close_current None X)
                   ++ [fresh_socket (url_conversation k) (url_token k)]) !! S s
                  = Some (fresh_socket (url_conversation k) (url_token k))).
  { rewrite lookup_app_r by lia. rewrite Hcl, Nat.sub_diag. reflexivity. }
  unfold awaiting. simpl. rewrite Hcl, Hct, length_app, Hcl, Hlast.
  split; [|split; [lia|reflexivity]].
  split; [reflexivity|]. split; [simpl; lia|]. split; [|reflexivity].
  eexists. split; [reflexivity|].
  simpl. split; [discriminate|]. split; reflexivity.
Qed.

Lemma reconnect_rounds (cid : Z) (tok : jsstring) (codes : list Z) :
  cid <> 0 -> tok <> [] -> has_fragment tok = false ->
  Forall (fun code => code <> 1000) codes ->
  forall s w,
    awaiting cid tok s w ->
    let w' := run (failing codes s) w in
    awaiting cid tok (s + length codes) w'
    /\ clock w' = clock w + 3000 * Z.of_nat (length codes)
    /\ length (sockets w') = (length (sockets w) + length codes)%nat.
Proof.
  intros Hcid Htok Hurl Hcodes.
  induction Hcodes as [|code rest Hcode _ IH]; intros s w Hw.
  - simpl. rewrite !Nat.add_0_r. split; [exact Hw|]. split; [lia|reflexivity].
  - cbv zeta.
    destruct (reconnect_round cid tok s code w Hcid Htok Hurl Hcode Hw) as (Hw1 & Hc1 & _).
    change (run (failing (code :: rest) s) w)
      with (run (failing rest (S s)) (run [SocketClose s code; Tick 3000] w)).
    destruct (IH (S s) _ Hw1) as (Hw2 & Hc2 & Hl2).
    destruct Hw as (_ & Hlen & _). destruct Hw1 as (Hx & Hlen1 & Hrest).
    split; [|split].
    + replace (s + length (code :: rest))%nat with (S s + length rest)%nat
        by (simpl; lia). exact Hw2.
    + rewrite Hc2, Hc1. simpl length. lia.
    + rewrite Hl2, Hlen1, Hlen. simpl. lia.
Qed.

(** Every socket there is was created by [connect]. *)
Lemma constructed_update (s : nat) (f : WebSocket -> WebSocket) :
  (forall sock, constructed sock -> constructed (f sock)) ->
  keeps sockets_constructed (update_socket s f).
Proof.
  intros Hf. unfold update_socket. apply keeps_write. intros w H.
  destruct (sockets w !! s) as [k|] eqn:Hk; [|exact H].
  unfold sockets_constructed in *. simpl.
  apply Forall_insert; [exact H|].
  apply Hf. exact (Forall_lookup_1 _ _ _ _ H Hk).
Qed.

Lemma constructed_close_current (code : option Z) (w : World) :
  sockets_constructed w -> sockets_constructed (close_current code w).
Proof.
  intros H. unfold close_current.
  destruct (wsRef w) as [old|]; [|exact H].
  destruct (sockets w !! old) as [sock|] eqn:Hk; [|exact H].
  unfold sockets_constructed in *. simpl.
  apply Forall_insert; [exact H|].
  pose proof (Forall_lookup_1 _ _ _ _ H Hk) as Hc.
  destruct (readyState sock); exact Hc.
Qed.

Lemma constructed_connect cid tok : keeps sockets_constructed (connect cid tok).
Proof.
  intros w H. destruct cid as [cid|]; [|exact H]. destruct tok as [tok|]; [|exact H].
  destruct (decide (cid = 0)) as [->|Hcid]; [exact H|].
  destruct tok as [|c tok]; [unfold connect; simpl; destruct (cid =? 0); exact H|].
  pose proof (constructed_close_current None w H) as Hc.
  destruct (has_fragment (c :: tok)) eqn:Hurl.
  - rewrite connect_rejected by (congruence || discriminate). exact Hc.
  - rewrite connect_opens by (congruence || discriminate). cbv zeta.
    unfold sockets_constructed in *. simpl.
    apply Forall_app. split; [exact Hc|].
    constructor; [|constructor].
    unfold constructed. simpl. split; [exact Hcid|]. split; [discriminate|exact Hurl].
Qed.

Ltac constructed_leaf :=
  first
    [ apply constructed_update; intros sock Hsock; unfold constructed in *; simpl;
      repeat case_match; simpl; exact Hsock
    | apply keeps_write; intros ? ?; unfold sockets_constructed in *; simpl in *;
      assumption ].

Ltac constructed_frame :=
  repeat first [ apply constructed_connect | keeps_step ];
  unfold ws_readyState, ws_send, ws_close, console_log,
    setIsConnected, setConnectionError, setNewMessage, setError, setIsTyping,
    call_ui, Date_now, setTimeout, clearTimeout in *;
  repeat first [ keeps_step | constructed_leaf ].

Lemma constructed_fire cb : keeps sockets_constructed (fire cb).
Proof. destruct cb; unfold fire, typing_timer, sendTyping; constructed_frame. Qed.

Lemma constructed_handle e : keeps sockets_constructed (handle e).
Proof.
  destruct e; unfold handle, rerender, effect, cleanup, disconnect, page_cleanup,
    handleTypingStart, handleSendMessage, sendMessage, deliver_open, deliver_message,
    deliver_error, deliver_close, onopen, onclose, onerror, onmessage, JSON_parse, get;
    constructed_frame.
Qed.

Lemma constructed_run (es : list Event) (w : World) :
  sockets_constructed w -> sockets_constructed (run es w).
Proof.
  apply run_keeps.
  - intros w' l H. exact H.
  - apply constructed_handle.
  - apply tick_keeps.
    + intros w' l H. exact H.
    + apply constructed_fire.
    + intros w' t _ H. exact H.
    + intros w' tm rest _ H. exact H.
Qed.

(** C1. When a socket closes with code 1000 the timer queue is left as it
    was: no reconnect is scheduled.  When it closes with any other code,
    exactly one timer is added, due 3000 ms after the closure, whose callback
    is [connect] for the conversation id and token of the closed socket; and
    whenever that callback runs it creates a socket for those same two
    values and makes it the current one.  This holds in every world, so the
    delay does not grow and nothing counts the attempts: when the current
    connection fails with each code of a list in turn, however long, every
    failure is followed 3000 ms later by a new connection for the same
    conversation id and token.  The conversation id and the token are those
    of a socket [connect] created, so the id is not 0, the token is not
    empty and the constructor accepts the URL again: this holds of every
    socket of every world the hook reaches. *)
Theorem close_schedules_reconnect :
  (forall (s : nat) (k : WebSocket) (code : Z) (w : World),
      sockets w !! s = Some k -> readyState k <> CLOSED ->
      let w' := step w (SocketClose s code) in
      let retry := ReconnectCb (Some (url_conversation k)) (Some (url_token k)) in
      (code = 1000 -> timers w' = timers w)
      /\ (code <> 1000 ->
          timers w' = enqueue {| timer_id := next_timer w; due := clock w + 3000;
                                 callback := retry |} (timers w)
          /\ reconnectTimeoutRef w' = Some (next_timer w))
      /\ (url_conversation k <> 0 -> url_token k <> [] ->
          has_fragment (url_token k) = false ->
          forall w2,
            let w3 := run_task (fire retry) w2 in
            sockets w3 !! length (sockets w2)
              = Some (fresh_socket (url_conversation k) (url_token k))
            /\ length (sockets w3) = S (length (sockets w2))
            /\ wsRef w3 = Some (length (sockets w2))))
  /\ (forall (cid : Z) (tok : jsstring) (codes : list Z) (s : nat) (w : World),
        cid <> 0 -> tok <> [] -> has_fragment tok = false ->
        Forall (fun code => code <> 1000) codes ->
        awaiting cid tok s w ->
        let w' := run (failing codes s) w in
        awaiting cid tok (s + length codes) w'
        /\ clock w' = clock w + 3000 * Z.of_nat (length codes)
        /\ length (sockets w') = (length (sockets w) + length codes)%nat)
  /\ (forall (es : list Event) (s : nat) (k : WebSocket),
        sockets (run es initial) !! s = Some k ->
        url_conversation k <> 0 /\ url_token k <> []
        /\ has_fragment (url_token k) = false).
Proof.
  split; [|split].
  - intros s k code w Hk Hst. cbv zeta. unfold step, run_task, handle.
    rewrite (deliver_close_runs s k code w Hk Hst). cbv zeta.
    split; [|split].
    + intros ->. reflexivity.
    + intros Hc. destruct (Z.eqb_spec code 1000) as [|_]; [contradiction|].
      split; reflexivity.
    + intros Hcid Htok Hurl w2. unfold fire.
      rewrite (connect_opens _ _ w2 Hcid Htok Hurl). cbv zeta. simpl.
      rewrite close_current_length, length_app, close_current_length. simpl.
      split; [|split; [lia|reflexivity]].
      rewrite lookup_app_r by (rewrite close_current_length; lia).
      rewrite close_current_length, Nat.sub_diag. reflexivity.
  - intros cid tok codes s w Hcid Htok Hurl Hcodes Hw.
    apply reconnect_rounds; assumption.
  - intros es s k Hk.
    assert (H : sockets_constructed (run es initial))
      by (apply constructed_run; constructor).
    exact (Forall_lookup_1 _ _ _ _ H Hk).
Qed.

Lemma close_schedules_reconnect_witness :
  timers (step opened42 (SocketClose 0%nat 1000)) = []
  /\ timers (step opened42 (SocketClose 0%nat 1006))
     = [{| timer_id := 1; due := 3000;
           callback := ReconnectCb (Some 42) (Some (js "T")) |}]
  /\ awaiting 42 (js "T") 3 (run (failing [1006; 1011; 1006] 0) opened42)
  /\ has_fragment (js "T") = false.
Proof.
  pose proof (proj1 close_schedules_reconnect 0%nat
                {| readyState := OPEN; url_conversation := 42; url_token := js "T";
                   sent := []; close_request := None |}
                1000 opened42 eq_refl ltac:(discriminate)) as (Hnormal & _ & _).
  pose proof (proj1 close_schedules_reconnect 0%nat
                {| readyState := OPEN; url_conversation := 42; url_token := js "T";
                   sent := []; close_request := None |}
                1006 opened42 eq_refl ltac:(discriminate)) as (_ & Hretry & _).
  split; [exact (Hnormal eq_refl)|].
  split; [exact (proj1 (Hretry ltac:(discriminate)))|].
  split.
  - refine (proj1 (proj1 (proj2 close_schedules_reconnect) 42 (js "T") [1006; 1011; 1006]
                     0%nat opened42 ltac:(discriminate) ltac:(discriminate) eq_refl _ _)).
    + repeat constructor; discriminate.
    + split; [reflexivity|]. split; [reflexivity|]. split; [|reflexivity].
      eexists. split; [reflexivity|]. repeat split. discriminate.
  - exact (proj2 (proj2 (proj2 (proj2 close_schedules_reconnect) opening42 0%nat
                           {| readyState := OPEN; url_conversation := 42;
                              url_token := js "T"; sent := []; close_request := None |}
                           eq_refl))).
Defined.

(** *** One live connection (useWebSocket.connect, disconnect) *)

Lemma one_connection_update (s : nat) (f : WebSocket -> WebSocket) :
  (forall sock, live (f sock) = true -> live sock = true) ->
  keeps one_connection (update_socket s f).
Proof.
  intros Hf. unfold update_socket. apply keeps_write. intros w H.
  destruct (sockets w !! s) as [k|] eqn:Hk; [|exact H].
  intros i sock Hi Hlive. simpl in *.
  destruct (decide (i = s)) as [->|Hne].
  - rewrite list_lookup_insert_eq in Hi by (apply lookup_lt_Some in Hk; exact Hk).
    injection Hi as <-. apply (H s k Hk), Hf, Hlive.
  - rewrite list_lookup_insert_ne in Hi by congruence. apply (H i sock Hi Hlive).
Qed.

Lemma close_current_not_live (code : option Z) (w : World) :
  one_connection w ->
  forall i sock, sockets (close_current code w) !! i = Some sock -> live sock = false.
Proof.
  intros H i sock Hi. unfold close_current in Hi.
  destruct (live sock) eqn:Hlive; [exfalso|reflexivity].
  destruct (wsRef w) as [old|] eqn:Hws.
  - destruct (sockets w !! old) as [k|] eqn:Hk.
    + simpl in Hi. destruct (decide (i = old)) as [->|Hne].
      * rewrite list_lookup_insert_eq in Hi by (apply lookup_lt_Some in Hk; exact Hk).
        injection Hi as <-. unfold live in Hlive.
        destruct (readyState k) eqn:Hst; simpl in Hlive; try discriminate;
          rewrite Hst in Hlive; discriminate.
      * rewrite list_lookup_insert_ne in Hi by congruence.
        specialize (H i sock Hi Hlive). congruence.
    + specialize (H i sock Hi Hlive). rewrite Hws in H. injection H as <-. congruence.
  - specialize (H i sock Hi Hlive). congruence.
Qed.

Lemma one_connection_connect cid tok : keeps one_connection (connect cid tok).
Proof.
  intros w H. destruct cid as [cid|]; [|exact H]. destruct tok as [tok|]; [|exact H].
  destruct (decide (cid = 0)) as [->|Hcid]; [exact H|].
  destruct tok as [|c tok]; [unfold connect; simpl; destruct (cid =? 0); exact H|].
  destruct (has_fragment (c :: tok)) eqn:Hurl.
  { rewrite connect_rejected by (congruence || discriminate). cbv zeta. simpl.
    intros i sock Hi Hlive. simpl in *.
    rewrite (close_current_not_live None w H i sock Hi) in Hlive. discriminate. }
  rewrite connect_opens by (congruence || discriminate). cbv zeta. simpl.
  intros i sock Hi Hlive. simpl in *.
  destruct (Nat.lt_ge_cases i (length (sockets (close_current None w)))) as [Hlt|Hge].
  - rewrite lookup_app_l in Hi by exact Hlt.
    rewrite (close_current_not_live None w H i sock Hi) in Hlive. discriminate.
  - f_equal.
    assert (Hlen : (i < length (sockets (close_current None w)
                               ++ [fresh_socket cid (c :: tok)]))%nat)
      by (eapply lookup_lt_Some; exact Hi).
    rewrite length_app in Hlen. simpl in Hlen. lia.
Qed.

Lemma disconnect_runs (w : World) :
  disconnect w =
    Returns tt
      (set_isConnected false
         (match wsRef w with
          | Some _ => set_wsRef None (close_current (Some 1000) (cancel_reconnect w))
          | None => cancel_reconnect w
          end)).
Proof.
  unfold disconnect, cancel_reconnect, close_current. unfold_m.
  destruct (reconnectTimeoutRef w) as [id|]; simpl;
    destruct (wsRef w) as [s|]; simpl; try reflexivity;
    destruct (sockets w !! s) as [k|]; reflexivity.
Qed.

Lemma one_connection_cancel_reconnect (w : World) :
  one_connection w -> one_connection (cancel_reconnect w).
Proof. unfold cancel_reconnect. destruct (reconnectTimeoutRef w); intros H; exact H. Qed.

Lemma one_connection_disconnect : keeps one_connection disconnect.
Proof.
  intros w H. rewrite disconnect_runs. simpl.
  pose proof (one_connection_cancel_reconnect w H) as H1.
  assert (Hws : wsRef (cancel_reconnect w) = wsRef w)
    by (unfold cancel_reconnect; destruct (reconnectTimeoutRef w); reflexivity).
  destruct (wsRef w) as [s|] eqn:Es.
  - intros i sock Hi Hlive. simpl in Hi.
    rewrite (close_current_not_live (Some 1000) _ H1 i sock Hi) in Hlive. discriminate.
  - intros i sock Hi Hlive. simpl in *. exact (H1 i sock Hi Hlive).
Qed.

Lemma one_connection_deliver_open (s : nat) : keeps one_connection (deliver_open s).
Proof.
  intros w H. unfold deliver_open, onopen. unfold_m.
  destruct (sockets w !! s) as [k|] eqn:Hk; simpl; [|exact H].
  destruct (readyState k) eqn:Hst; simpl; try exact H.
  rewrite Hk. simpl. intros i sock Hi Hlive. simpl in *.
  destruct (decide (i = s)) as [->|Hne].
  - apply (H s k Hk). unfold live. rewrite Hst. reflexivity.
  - rewrite list_lookup_insert_ne in Hi by congruence. exact (H i sock Hi Hlive).
Qed.

Ltac one_connection_leaf :=
  first
    [ apply one_connection_update; intros sock; unfold live; simpl;
      repeat case_match; simpl; congruence
    | apply keeps_write; intros ? ?; unfold one_connection in *; simpl in *; assumption ].

Ltac one_connection_frame :=
  repeat first
    [ apply one_connection_connect
    | apply one_connection_disconnect
    | apply one_connection_deliver_open
    | keeps_step ];
  unfold ws_readyState, ws_send, ws_close, console_log,
    setIsConnected, setConnectionError, setNewMessage, setError, setIsTyping,
    call_ui, Date_now, setTimeout, clearTimeout in *;
  repeat first [ keeps_step | one_connection_leaf ].

Lemma one_connection_fire cb : keeps one_connection (fire cb).
Proof. destruct cb; unfold fire, typing_timer, sendTyping; one_connection_frame. Qed.

Lemma one_connection_handle e : keeps one_connection (handle e).
Proof.
  destruct e; unfold handle, rerender, effect, cleanup, page_cleanup,
    handleTypingStart, handleSendMessage, sendMessage, deliver_message,
    deliver_error, deliver_close, onclose, onerror, onmessage, JSON_parse, get;
    one_connection_frame.
Qed.

Lemma one_connection_run (es : list Event) (w : World) :
  one_connection w -> one_connection (run es w).
Proof.
  apply run_keeps.
  - intros w' l H. exact H.
  - apply one_connection_handle.
  - apply tick_keeps.
    + intros w' l H. exact H.
    + apply one_connection_fire.
    + intros w' t _ H. exact H.
    + intros w' tm rest _ H. exact H.
Qed.

(** After switching conversation two sockets are not yet closed: the old
    one, closing, and the new one, connecting. *)
Lemma two_sockets_not_closed :
  (readyState <$> sockets switched !! 0%nat) = Some CLOSING
  /\ (readyState <$> sockets switched !! 1%nat) = Some CONNECTING
  /\ ~ at_most_one_not_closed switched.
Proof.
  split; [reflexivity|]. split; [reflexivity|].
  intros H.
  specialize (H 0%nat 1%nat _ _ eq_refl eq_refl ltac:(discriminate) ltac:(discriminate)).
  discriminate.
Qed.

Lemma close_current_wsRef code w : wsRef (close_current code w) = wsRef w.
Proof.
  unfold close_current. destruct (wsRef w) as [old|] eqn:Hws; [|exact Hws].
  destruct (sockets w !! old); exact Hws.
Qed.

Lemma close_current_asks (code : option Z) (w : World) (old : nat) (sock : WebSocket) :
  wsRef w = Some old -> sockets w !! old = Some sock ->
  exists sock', sockets (close_current code w) !! old = Some sock' /\ live sock' = false.
Proof.
  intros Hws Hold. unfold close_current. rewrite Hws, Hold. simpl.
  rewrite list_lookup_insert_eq by (eapply lookup_lt_Some; exact Hold).
  eexists. split; [reflexivity|].
  unfold live. destruct (readyState sock) eqn:Hst; simpl; try reflexivity;
    rewrite Hst; reflexivity.
Qed.

(** C2, amended. Along every run of the hook (selections, token changes,
    unmount, socket events, timers) at most one socket is connecting or
    open, and it is the one [wsRef] holds; every other socket is closing or
    closed.  [connect] asks the current socket to close before it calls the
    constructor.  When the constructor accepts the URL the new socket
    becomes the current one; when it throws, no socket is created, [wsRef]
    still holds the socket just asked to close, and the hook reports
    "Failed to connect".  [disconnect] asks a live current socket to close
    with code 1000 and forgets it. *)
Theorem one_live_connection :
  (forall es,
      let w := run es initial in
      (forall i sock, sockets w !! i = Some sock -> live sock = true -> wsRef w = Some i)
      /\ (forall i j si sj,
            sockets w !! i = Some si -> sockets w !! j = Some sj ->
            live si = true -> live sj = true -> i = j))
  /\ (forall cid tok w,
        cid <> 0 -> tok <> [] ->
        exists w',
          connect (Some cid) (Some tok) w = Returns tt w'
          /\ (forall old sock,
                wsRef w = Some old -> sockets w !! old = Some sock ->
                exists sock', sockets w' !! old = Some sock' /\ live sock' = false)
          /\ (has_fragment tok = false ->
              sockets w' !! length (sockets w) = Some (fresh_socket cid tok)
              /\ length (sockets w') = S (length (sockets w))
              /\ wsRef w' = Some (length (sockets w)))
          /\ (has_fragment tok = true ->
              length (sockets w') = length (sockets w)
              /\ wsRef w' = wsRef w
              /\ connectionError w' = Some (js "Failed to connect")))
  /\ (forall w s sock,
        wsRef w = Some s -> sockets w !! s = Some sock -> live sock = true ->
        exists w',
          disconnect w = Returns tt w'
          /\ sockets w' !! s
             = Some (set_readyState CLOSING (set_close_request (Some 1000) sock))
          /\ wsRef w' = None).
Proof.
  split; [|split].
  - intros es. cbv zeta.
    assert (H : one_connection (run es initial)).
    { apply one_connection_run. intros i sock Hi. destruct i; discriminate. }
    split; [exact H|].
    intros i j si sj Hi Hj Hli Hlj.
    pose proof (H i si Hi Hli) as E1. pose proof (H j sj Hj Hlj) as E2. congruence.
  - intros cid tok w Hcid Htok. destruct (has_fragment tok) eqn:Hurl.
    + eexists. split; [apply connect_rejected; assumption|].
      cbv zeta. simpl. split; [|split; [discriminate|]].
      * intros old sock Hws Hold. exact (close_current_asks None w old sock Hws Hold).
      * intros _. rewrite close_current_length, close_current_wsRef.
        split; [reflexivity|]. split; reflexivity.
    + eexists. split; [apply connect_opens; assumption|].
      cbv zeta. simpl. rewrite close_current_length.
      split; [|split; [|discriminate]].
      * intros old sock Hws Hold.
        destruct (close_current_asks None w old sock Hws Hold) as (sock' & Hs' & Hl').
        exists sock'. split; [|exact Hl'].
        rewrite lookup_app_l; [exact Hs'|].
        rewrite close_current_length. eapply lookup_lt_Some; exact Hold.
      * intros _. split; [|split; [|reflexivity]].
        -- rewrite lookup_app_r by (rewrite close_current_length; lia).
           rewrite close_current_length, Nat.sub_diag. reflexivity.
        -- rewrite length_app, close_current_length. simpl. lia.
  - intros w s sock Hws Hs Hlive. eexists. split; [apply disconnect_runs|].
    rewrite Hws. simpl. split; [|reflexivity].
    assert (Hws' : wsRef (cancel_reconnect w) = Some s)
      by (unfold cancel_reconnect; destruct (reconnectTimeoutRef w); exact Hws).
    assert (Hs' : sockets (cancel_reconnect w) !! s = Some sock)
      by (unfold cancel_reconnect; destruct (reconnectTimeoutRef w); exact Hs).
    unfold close_current. rewrite Hws', Hs'. simpl.
    rewrite list_lookup_insert_eq by (eapply lookup_lt_Some; exact Hs').
    unfold live in Hlive. destruct (readyState sock); try discriminate; reflexivity.
Qed.

Lemma one_live_connection_witness :
  wsRef switched = Some 1%nat
  /\ (exists w',
        connect (Some 42) (Some (js "T#x")) opened42 = Returns tt w'
        /\ wsRef w' = Some 0%nat
        /\ connectionError w' = Some (js "Failed to connect"))
  /\ exists w',
       disconnect opened42 = Returns tt w'
       /\ (close_request <$> sockets w' !! 0%nat) = Some (Some (Some 1000))
       /\ wsRef w' = None.
Proof.
  split; [|split].
  - exact (proj1 (proj1 one_live_connection
                    (logged_in ++ [SelectConversation chat42; SocketOpen 0%nat;
                                   SelectConversation chat43]))
             1%nat (fresh_socket 43 (js "T")) eq_refl eq_refl).
  - destruct (proj1 (proj2 one_live_connection) 42 (js "T#x") opened42
                ltac:(discriminate) ltac:(discriminate))
      as (w' & Hrun & _ & _ & Hthrows).
    destruct (Hthrows eq_refl) as (_ & Hws & Herr).
    exists w'. split; [exact Hrun|]. split; [exact Hws|exact Herr].
  - destruct (proj2 (proj2 one_live_connection) opened42 0%nat
                {| readyState := OPEN; url_conversation := 42; url_token := js "T";
                   sent := []; close_request := None |} eq_refl eq_refl eq_refl)
      as (w' & Hrun & Hsock & Hws).
    exists w'. split; [exact Hrun|]. split; [|exact Hws].
    rewrite Hsock. reflexivity.
Defined.

(** *** Sending from the page (ChatsPage.handleSendMessage) *)

(** Rejecting a send surfaces no error: pressing Enter on a text of three
    spaces leaves the page exactly as it was, its error state still unset. *)
Lemma rejected_send_sets_no_error :
  newMessage typed_blank = js "   "
  /\ connection_open typed_blank = true
  /\ step typed_blank Send = typed_blank
  /\ error (step typed_blank Send) = None.
Proof. vm_compute. repeat split. Qed.

Lemma trimStart_nil (s : jsstring) :
  trimStart s = [] <-> forallb is_whitespace s = true.
Proof.
  induction s as [|c s IH]; simpl; [tauto|].
  destruct (is_whitespace c); simpl; [exact IH|]. split; discriminate.
Qed.

Lemma trimStart_head (s : jsstring) :
  match trimStart s with
  | [] => True
  | c :: _ => is_whitespace c = false
  end.
Proof.
  induction s as [|c s IH]; simpl; [exact I|].
  destruct (is_whitespace c) eqn:E; [exact IH|exact E].
Qed.

(** [trim] leaves nothing exactly of the texts made of white space only. *)
Lemma trim_nil (s : jsstring) : trim s = [] <-> forallb is_whitespace s = true.
Proof.
  unfold trim, trimEnd. split.
  - intros H. apply trimStart_nil.
    pose proof (trimStart_head s) as Hhead.
    destruct (trimStart s) as [|c t]; [reflexivity|].
    apply (f_equal (@rev N)) in H. rewrite rev_involutive in H. simpl in H.
    apply trimStart_nil in H. rewrite forallb_app in H. simpl in H.
    rewrite Hhead in H. rewrite andb_false_r in H. discriminate.
  - intros H. apply trimStart_nil in H. rewrite H. reflexivity.
Qed.

Lemma sendMessage_returns (usr : option IUser) (text : jsstring) (w : World) :
  exists w', sendMessage usr text w = Returns tt w'
             /\ error w' = error w /\ newMessage w' = newMessage w.
Proof.
  unfold sendMessage. unfold_m.
  destruct (wsRef w) as [s|]; [|eauto].
  destruct usr as [u|]; [|eauto].
  destruct (sockets w !! s) as [sock|] eqn:Hs; simpl; [|eauto].
  destruct (readyState sock) eqn:Hst; simpl; eauto.
  rewrite Hs, Hst. simpl. rewrite Hs. eauto.
Qed.

(** C7, amended. [handleSendMessage] with a text that is empty or only
    white space, or with no conversation selected, changes nothing: no frame
    is sent and no error is set.  With a non-blank text and a conversation
    selected but no open connection it sends nothing, sets no error, and
    clears the input.  With an open connection and the local user known it
    sends the trimmed text as a [chat_message] frame and clears the input.
    In every case the handler returns and the page's error state is the one
    it had. *)
Theorem handleSendMessage_outcome (w : World) :
  (forallb is_whitespace (newMessage w) = true \/ selectedConversation w = None ->
   handleSendMessage w = Returns tt w)
  /\ (forallb is_whitespace (newMessage w) = false -> selectedConversation w <> None ->
      connection_open w = false ->
      handleSendMessage w = Returns tt (set_newMessage [] w))
  /\ (forall s sock u,
        forallb is_whitespace (newMessage w) = false -> selectedConversation w <> None ->
        wsRef w = Some s -> sockets w !! s = Some sock -> readyState sock = OPEN ->
        user w = Some u ->
        handleSendMessage w =
          Returns tt
            (set_newMessage []
               (set_sockets
                  (<[s := push_sent
                            (chat_message_frame (trim (newMessage w)) (user_id u)) sock]>
                     (sockets w)) w)))
  /\ (exists w', handleSendMessage w = Returns tt w' /\ error w' = error w).
Proof.
  assert (Hblank : forallb is_whitespace (newMessage w) = false ->
                   trim (newMessage w) <> []).
  { intros Hf Ht. apply trim_nil in Ht. congruence. }
  unfold handleSendMessage.
  split; [|split; [|split]].
  - intros [H|H]; unfold_m; [apply trim_nil in H|]; rewrite H; [reflexivity|].
    destruct (trim (newMessage w)); reflexivity.
  - intros Ht Hsel Hclosed. apply Hblank in Ht.
    unfold mbind at 1 2 3. unfold M_bind, read.
    destruct (trim (newMessage w)) as [|c t] eqn:Etrim; [congruence|].
    destruct (selectedConversation w); [|congruence].
    unfold try_catch, mbind, M_bind.
    rewrite (sendMessage_closed w (c :: t) (user w) Hclosed).
    reflexivity.
  - intros s sock u Ht Hsel Hs Hsock Hopen Hu. apply Hblank in Ht.
    unfold mbind at 1 2 3. unfold M_bind, read.
    destruct (trim (newMessage w)) as [|c t] eqn:Etrim; [congruence|].
    destruct (selectedConversation w); [|congruence].
    unfold try_catch, mbind, M_bind. rewrite Hu.
    rewrite (sendMessage_open w (c :: t) s sock u Hs Hsock Hopen).
    reflexivity.
  - unfold mbind at 1 2 3. unfold M_bind, read.
    destruct (trim (newMessage w)) as [|c t]; [eauto|].
    destruct (selectedConversation w); [|eauto].
    unfold try_catch, mbind, M_bind.
    destruct (sendMessage_returns (user w) (c :: t) w) as (w' & -> & He & _).
    eexists. split; [reflexivity|]. exact He.
Qed.

Lemma handleSendMessage_outcome_witness :
  handleSendMessage typed_blank = Returns tt typed_blank
  /\ handleSendMessage typed_then_dropped
     = Returns tt (set_newMessage [] typed_then_dropped)
  /\ handleSendMessage typed_hi
     = Returns tt
         (set_newMessage []
            (set_sockets
               (<[0%nat := push_sent (chat_message_frame (trim (newMessage typed_hi)) 7)
                             {| readyState := OPEN; url_conversation := 42;
                                url_token := js "T"; sent := [];
                                close_request := None |}]>
                  (sockets typed_hi)) typed_hi)).
Proof.
  destruct (handleSendMessage_outcome typed_blank) as (Hblank & _).
  destruct (handleSendMessage_outcome typed_then_dropped) as (_ & Hclosed & _).
  destruct (handleSendMessage_outcome typed_hi) as (_ & _ & Hopen & _).
  split; [exact (Hblank (or_introl eq_refl))|].
  split.
  - apply Hclosed; [reflexivity|discriminate|reflexivity].
  - apply (Hopen 0%nat _ alice); try reflexivity; discriminate.
Defined.

(** *** Typing recipients (ChatsPage typing timers, useWebSocket.sendTyping) *)

Lemma add_sent_nil (sock : WebSocket) : add_sent [] sock = sock.
Proof. destruct sock. unfold add_sent. simpl. rewrite app_nil_r. reflexivity. Qed.

Lemma add_sent_push (f : json) (fs : list json) (sock : WebSocket) :
  add_sent fs (push_sent f sock) = add_sent (f :: fs) sock.
Proof. unfold add_sent, push_sent. simpl. rewrite <- app_assoc. reflexivity. Qed.

Lemma typing_sent_refl flag w : typing_sent flag [] w w.
Proof.
  split; try reflexivity.
  - simpl. rewrite app_nil_r. reflexivity.
  - intros s sock _ Hs _. simpl. rewrite add_sent_nil, list_insert_id; auto.
Qed.

Lemma sendTyping_sent (r : Z) (flag : bool) (w : World) :
  exists w', sendTyping r flag w = Returns tt w' /\ typing_sent flag [r] w w'.
Proof.
  unfold sendTyping. unfold_m. simpl.
  destruct (wsRef w) as [s|] eqn:Hws; simpl.
  - destruct (sockets w !! s) as [sock|] eqn:Hs; simpl.
    + destruct (readyState sock) eqn:Hst; simpl; rewrite ?Hs, ?Hst; simpl; rewrite ?Hs;
        (eexists; split; [reflexivity|]); split; simpl; try reflexivity;
        try (intros s' sock' Hws' Hs' Hopen; rewrite Hws in Hws';
             injection Hws' as <-; rewrite Hs in Hs';
             injection Hs' as <-; first [congruence|reflexivity]).
      unfold connection_open, current_socket. rewrite Hws, Hs, Hst. discriminate.
    + eexists; split; [reflexivity|].
      split; simpl; try reflexivity.
      intros s' sock' Hws' Hs' _. rewrite Hws in Hws'. injection Hws' as <-. congruence.
  - eexists; split; [reflexivity|].
    split; simpl; try reflexivity. intros s' sock' Hws'. congruence.
Qed.

Lemma typing_sent_trans flag rs1 rs2 w1 w2 w3 :
  typing_sent flag rs1 w1 w2 -> typing_sent flag rs2 w2 w3 ->
  typing_sent flag (rs1 ++ rs2) w1 w3.
Proof.
  intros [c1 f1 n1 r1 k1 t1] [c2 f2 n2 r2 k2 t2]. split.
  - rewrite c2, c1, k1. unfold typing_calls_at. rewrite map_app, app_assoc. reflexivity.
  - intros s sock Hws Hs Hopen.
    rewrite (f2 s (add_sent (map (fun r => typing_frame r flag) rs1) sock)).
    + rewrite (f1 s sock Hws Hs Hopen), list_insert_insert_eq. f_equal.
      unfold add_sent. simpl. rewrite map_app, app_assoc. reflexivity.
    + congruence.
    + rewrite (f1 s sock Hws Hs Hopen). apply list_lookup_insert_eq.
      apply lookup_lt_Some in Hs. exact Hs.
    + exact Hopen.
  - intros Hclosed. rewrite n2, n1; auto.
    unfold connection_open, current_socket in *. rewrite r1, n1; auto.
  - congruence.
  - congruence.
  - congruence.
Qed.

Lemma forEach_sendTyping (uid : Z) (flag : bool) (ps : list IUser) (w : World) :
  exists w',
    forEach ps (fun participant =>
                  if other_than uid participant
                  then sendTyping (user_id participant) flag
                  else mret tt) w = Returns tt w'
    /\ typing_sent flag (map user_id (filter (other_than uid) ps)) w w'.
Proof.
  revert w. induction ps as [|p ps IH]; intros w.
  - exists w. split; [reflexivity|apply typing_sent_refl].
  - simpl forEach. unfold mbind, M_bind. rewrite filter_cons.
    destruct (other_than uid p) eqn:Hp.
    + destruct (sendTyping_sent (user_id p) flag w) as (w1 & -> & H1). cbv beta iota.
      destruct (IH w1) as (w2 & -> & H2).
      exists w2. split; [reflexivity|].
      rewrite decide_True by exact I.
      apply (typing_sent_trans flag [user_id p] _ w w1 w2 H1 H2).
    + change ((mret tt : M unit) w) with (Returns tt w). cbv beta iota.
      destruct (IH w) as (w2 & -> & H2).
      exists w2. split; [reflexivity|].
      rewrite decide_False by (simpl; auto). exact H2.
Qed.

(** The world after a typing timer has run: the typing flag is set and
    every receiver has been addressed once. *)
Lemma typing_timer_sent (conv : IConversation) (u : IUser) (flag : bool) (w : World) :
  exists w',
    typing_timer conv u flag w = Returns tt w'
    /\ typing_sent flag (recipients conv (user_id u)) (set_isTyping flag w) w'.
Proof.
  unfold typing_timer, recipients. unfold setIsTyping.
  unfold mbind at 1. unfold M_bind, write.
  destruct (conversation_type conv).
  - destruct (sendTyping_sent (or_zero (other_participant (participants conv) (user_id u)))
                flag (set_isTyping flag w)) as (w' & -> & H).
    eauto.
  - destruct (participants conv) as [ps|].
    + apply forEach_sendTyping.
    + eexists. split; [reflexivity|]. apply typing_sent_refl.
Qed.

(** *** The timer queue and the typing timers *)

Lemma same_schedule_refl w : same_schedule w w.
Proof. repeat split. Qed.

Lemma same_schedule_fire w0 cb : keeps (same_schedule w0) (fire cb).
Proof. destruct cb; unfold_handlers; keeps_frame same_schedule. Qed.

Lemma fire_calls (tm : Timer) (w : World) :
  let w' := run_task (fire (callback tm)) w in
  same_schedule w w'
  /\ (clock w = due tm -> typing_calls w' = typing_calls w ++ emission tm).
Proof.
  cbv zeta. split.
  - apply run_task_keeps.
    + intros w1 l H. exact H.
    + apply same_schedule_fire.
    + apply same_schedule_refl.
  - intros Hclock. unfold emission. destruct (callback tm) as [cid tok|conv u flag].
    + rewrite app_nil_r.
      apply (run_task_keeps (same_typing_calls (typing_calls w))).
      * intros w1 l H. exact H.
      * unfold fire, connect. keeps_frame same_typing_calls.
      * reflexivity.
    + unfold run_task, fire.
      destruct (typing_timer_sent conv u flag w) as (w' & -> & H).
      rewrite (sent_calls _ _ _ _ H). simpl. rewrite Hclock. reflexivity.
Qed.

Lemma filter_all {A} (P : A -> Prop) `{forall x, Decision (P x)} (l : list A) :
  Forall P l -> filter P l = l.
Proof.
  induction 1 as [|x l Hx _ IH]; [reflexivity|].
  rewrite filter_cons_True by exact Hx. rewrite IH. reflexivity.
Qed.

Lemma filter_none {A} (P : A -> Prop) `{forall x, Decision (P x)} (l : list A) :
  Forall (fun x => ~ P x) l -> filter P l = [].
Proof.
  induction 1 as [|x l Hx _ IH]; [reflexivity|].
  rewrite filter_cons_False by exact Hx. exact IH.
Qed.

(** [run_due] fires exactly the timers due by [t], in queue order, each at
    its due time, and leaves the later ones pending; the fuel [tick] gives it
    is enough. *)
Lemma run_due_spec (t : Z) (q : list Timer) :
  forall (fuel : nat) (w : World),
    timers w = q -> StronglySorted by_due q ->
    Forall (fun tm => clock w <= due tm) q -> (length q <= fuel)%nat ->
    let w' := run_due fuel t w in
    typing_calls w' = typing_calls w ++ flat_map emission (filter (fun tm => due tm <= t) q)
    /\ timers w' = filter (fun tm => t < due tm) q
    /\ same_page w w'
    /\ clock w <= clock w' <= Z.max (clock w) t.
Proof.
  induction q as [|tm rest IH]; intros fuel w Hq Hsorted Hdue Hfuel; cbv zeta.
  - assert (Hrun : run_due fuel t w = w).
    { destruct fuel; simpl; [reflexivity|]. rewrite Hq. reflexivity. }
    rewrite Hrun. simpl. rewrite app_nil_r.
    split; [reflexivity|]. split; [exact Hq|]. split; [repeat split|lia].
  - destruct fuel as [|fuel]; [simpl in Hfuel; lia|].
    simpl run_due. rewrite Hq.
    apply StronglySorted_inv in Hsorted as [Hsorted Hhead].
    inversion Hdue as [|? ? Hnow Hdue']; subst. clear Hdue.
    destruct (Z.leb_spec (due tm) t) as [Hle|Hgt].
    + set (w0 := set_clock (Z.max (clock w) (due tm)) (set_timers rest w)).
      destruct (fire_calls tm w0) as [Hsame Hcalls].
      set (w1 := run_task (fire (callback tm)) w0) in *.
      destruct Hsame as (Hc1 & Hq1 & Hn1 & Ht1 & Hd1 & Hs1 & Hu1 & Hm1).
      assert (Hclock0 : clock w0 = due tm) by (subst w0; simpl; lia).
      specialize (Hcalls Hclock0).
      destruct (IH fuel w1) as (Hcalls' & Hq' & Hpage' & Hclock').
      * rewrite Hq1. reflexivity.
      * exact Hsorted.
      * rewrite Hc1, Hclock0. eapply Forall_impl; [|exact Hhead]. intros x Hx. exact Hx.
      * simpl in Hfuel. lia.
      * rewrite filter_cons_True by exact Hle.
        rewrite filter_cons_False by lia. simpl flat_map.
        split; [rewrite Hcalls', Hcalls; subst w0; simpl; rewrite app_assoc; reflexivity|].
        split; [exact Hq'|].
        split.
        { destruct Hpage' as (A1 & A2 & A3 & A4 & A5 & A6).
          unfold same_page. rewrite A1, A2, A3, A4, A5, A6, Hn1, Ht1, Hd1, Hs1, Hu1, Hm1.
          subst w0. repeat split. }
        rewrite Hc1, Hclock0 in Hclock'. lia.
    + rewrite filter_none, filter_all, app_nil_r.
      * split; [reflexivity|]. split; [exact Hq|]. split; [repeat split|lia].
      * constructor; [exact Hgt|].
        eapply Forall_impl; [|exact Hhead]. unfold by_due. intros x Hx. lia.
      * constructor; [lia|].
        eapply Forall_impl; [|exact Hhead]. unfold by_due. intros x Hx. lia.
Qed.

Lemma tick_spec (dt : Z) (w : World) :
  StronglySorted by_due (timers w) ->
  Forall (fun tm => clock w <= due tm) (timers w) ->
  let t := clock w + Z.max 0 dt in
  let w' := tick dt w in
  typing_calls w' = typing_calls w
                    ++ flat_map emission (filter (fun tm => due tm <= t) (timers w))
  /\ timers w' = filter (fun tm => t < due tm) (timers w)
  /\ same_page w w'
  /\ clock w' = t.
Proof.
  intros Hsorted Hdue. cbv zeta.
  destruct (run_due_spec (clock w + Z.max 0 dt) (timers w) (length (timers w)) w
              eq_refl Hsorted Hdue (le_n _)) as (Hcalls & Hq & Hpage & _).
  unfold tick. simpl. split; [exact Hcalls|]. split; [exact Hq|].
  split; [exact Hpage|reflexivity].
Qed.

(** One input signal with a conversation selected and the user known: both
    typing timers are cancelled and scheduled afresh, and nothing is sent. *)
Lemma handleTypingStart_schedules (conv : IConversation) (u : IUser) (w : World) :
  selectedConversation w = Some conv -> user w = Some u ->
  exists w',
    handleTypingStart w = Returns tt w'
    /\ timers w' = enqueue (stop_timer conv u w)
                     (cancel (typingTimeoutRef w)
                        (enqueue (start_timer conv u w)
                           (cancel (typingDebounceRef w) (timers w))))
    /\ typingDebounceRef w' = Some (next_timer w)
    /\ typingTimeoutRef w' = Some (Pos.succ (next_timer w))
    /\ next_timer w' = Pos.succ (Pos.succ (next_timer w))
    /\ clock w' = clock w
    /\ typing_calls w' = typing_calls w
    /\ selectedConversation w' = selectedConversation w
    /\ user w' = user w /\ mounted w' = mounted w.
Proof.
  intros Hsel Hu. unfold handleTypingStart. unfold_m. rewrite Hsel, Hu.
  destruct (typingDebounceRef w) as [d|] eqn:Hd;
    destruct (typingTimeoutRef w) as [o|] eqn:Ho; simpl; rewrite ?Ho; simpl;
    (eexists; split; [reflexivity|]); simpl; repeat split; assumption.
Qed.

(** **** Sorted queues *)

Lemma Forall_enqueue (P : Timer -> Prop) (t : Timer) (q : list Timer) :
  P t -> Forall P q -> Forall P (enqueue t q).
Proof.
  intros Ht. induction 1 as [|x q Hx Hq IH]; simpl.
  - repeat constructor. exact Ht.
  - destruct (due x <=? due t); repeat constructor; assumption.
Qed.

Lemma enqueue_sorted (t : Timer) (q : list Timer) :
  StronglySorted by_due q -> StronglySorted by_due (enqueue t q).
Proof.
  induction 1 as [|x q Hq IH Hx]; simpl.
  - repeat constructor.
  - destruct (Z.leb_spec (due x) (due t)) as [Hle|Hgt].
    + constructor; [exact IH|]. apply Forall_enqueue; [exact Hle|exact Hx].
    + constructor; [constructor; assumption|].
      constructor; [unfold by_due; lia|].
      eapply Forall_impl; [|exact Hx]. unfold by_due. intros y Hy. lia.
Qed.

Lemma filter_sorted (P : Timer -> Prop) `{forall x, Decision (P x)} (q : list Timer) :
  StronglySorted by_due q -> StronglySorted by_due (filter P q).
Proof.
  induction 1 as [|x q Hq IH Hx]; [constructor|].
  rewrite filter_cons. destruct (decide (P x)); [|exact IH].
  constructor; [exact IH|]. apply Forall_forall. intros y Hy.
  apply list_elem_of_In, list_elem_of_filter in Hy as [_ Hy].
  rewrite Forall_forall in Hx. apply Hx, list_elem_of_In, Hy.
Qed.

Lemma Forall_filter_keep (P Q : Timer -> Prop) `{forall x, Decision (P x)}
    (q : list Timer) :
  Forall Q q -> Forall Q (filter P q).
Proof.
  intros HQ. apply Forall_forall. intros y Hy.
  apply list_elem_of_In, list_elem_of_filter in Hy as [_ Hy].
  rewrite Forall_forall in HQ. apply HQ, list_elem_of_In, Hy.
Qed.

Lemma cancel_sorted r q : StronglySorted by_due q -> StronglySorted by_due (cancel r q).
Proof. destruct r; simpl; [apply filter_sorted|auto]. Qed.

Lemma Forall_cancel (Q : Timer -> Prop) r q : Forall Q q -> Forall Q (cancel r q).
Proof. destruct r; simpl; [apply Forall_filter_keep|auto]. Qed.

(** Only the typing timers of a sorted queue matter to the typing calls. *)
Lemma typing_enqueue (t : Timer) (q : list Timer) :
  StronglySorted by_due q ->
  filter is_typing_timer (enqueue t q)
  = if is_typing_timer t then enqueue t (filter is_typing_timer q)
    else filter is_typing_timer q.
Proof.
  induction 1 as [|x q Hq IH Hx]; simpl.
  - rewrite filter_cons, filter_nil. destruct (is_typing_timer t); reflexivity.
  - destruct (Z.leb_spec (due x) (due t)) as [Hle|Hgt].
    + rewrite !filter_cons, IH.
      destruct (is_typing_timer x) eqn:Ex; destruct (is_typing_timer t) eqn:Et; simpl;
        try reflexivity.
      destruct (Z.leb_spec (due x) (due t)); [reflexivity|lia].
    + rewrite filter_cons. destruct (is_typing_timer t) eqn:Et; simpl; [|reflexivity].
      assert (Hrest : Forall (fun y => due t < due y) (filter is_typing_timer (x :: q))).
      { apply Forall_filter_keep. constructor; [lia|].
        eapply Forall_impl; [|exact Hx]. unfold by_due. intros y Hy. lia. }
      destruct (filter is_typing_timer (x :: q)) as [|y l]; [reflexivity|].
      inversion Hrest as [|? ? Hy _]; subst. simpl.
      destruct (Z.leb_spec (due y) (due t)); [lia|reflexivity].
Qed.

Lemma typing_cancel r (q : list Timer) :
  filter is_typing_timer (cancel r q) = cancel r (filter is_typing_timer q).
Proof.
  destruct r as [id|]; simpl; [|reflexivity].
  rewrite !list_filter_filter. apply list_filter_iff. intros x. tauto.
Qed.

Lemma emission_typing_only (P : Timer -> Prop) `{forall x, Decision (P x)}
    (q : list Timer) :
  flat_map emission (filter P q)
  = flat_map emission (filter P (filter is_typing_timer q)).
Proof.
  induction q as [|x q IH]; [reflexivity|].
  rewrite (filter_cons is_typing_timer).
  destruct (is_typing_timer x) eqn:Ex; simpl.
  - rewrite !filter_cons. destruct (decide (P x)); simpl; rewrite IH; reflexivity.
  - rewrite filter_cons. destruct (decide (P x)); simpl; [|exact IH].
    rewrite IH. unfold emission, is_typing_timer in *.
    destruct (callback x); [reflexivity|discriminate].
Qed.

Lemma filter_enqueue_only (P : Timer -> Prop) `{forall x, Decision (P x)}
    (t : Timer) (q : list Timer) :
  P t -> Forall (fun x => ~ P x) q -> filter P (enqueue t q) = [t].
Proof.
  intros Ht. induction 1 as [|x q Hx Hq IH]; simpl.
  - rewrite filter_cons_True by exact Ht. reflexivity.
  - destruct (due x <=? due t).
    + rewrite filter_cons_False by exact Hx. exact IH.
    + rewrite filter_cons_True by exact Ht.
      rewrite filter_cons_False by exact Hx.
      rewrite filter_none by exact Hq. reflexivity.
Qed.

(** **** The queue invariant *)

Lemma pending_typing_after_input (conv : IConversation) (u : IUser) (w : World) :
  queue_ok w ->
  filter is_typing_timer
    (enqueue (stop_timer conv u w)
       (cancel (typingTimeoutRef w)
          (enqueue (start_timer conv u w) (cancel (typingDebounceRef w) (timers w)))))
  = [start_timer conv u w; stop_timer conv u w].
Proof.
  intros [Hsorted _ Hfresh Hd Ho Htracked].
  set (q := timers w) in *.
  set (T1 := start_timer conv u w). set (T2 := stop_timer conv u w).
  assert (Hq0 : StronglySorted by_due (cancel (typingDebounceRef w) q))
    by (apply cancel_sorted, Hsorted).
  assert (Hq1 : StronglySorted by_due
                  (cancel (typingTimeoutRef w) (enqueue T1 (cancel (typingDebounceRef w) q))))
    by (apply cancel_sorted, enqueue_sorted, Hq0).
  rewrite typing_enqueue by exact Hq1. simpl.
  rewrite typing_cancel, typing_enqueue by exact Hq0. simpl.
  rewrite typing_cancel.
  set (tq := filter is_typing_timer q).
  assert (Htq : Forall (fun x => tracked_by w x /\ is_typing_timer x = true
                                 /\ (timer_id x < next_timer w)%positive) tq).
  { apply Forall_forall. intros x Hx.
    apply list_elem_of_In, list_elem_of_filter in Hx as [Hty Hx].
    apply list_elem_of_In in Hx.
    rewrite Forall_forall in Htracked, Hfresh.
    split; [apply Htracked, Hx|]. split; [|apply Hfresh, Hx].
    destruct (is_typing_timer x); [reflexivity|contradiction]. }
  (* after cancelling the debounce ref only stop timers are left *)
  assert (Hstops : Forall (fun x => typingTimeoutRef w = Some (timer_id x))
                     (cancel (typingDebounceRef w) tq)).
  { apply Forall_forall. intros x Hx. apply list_elem_of_In in Hx.
    assert (Hin : x ∈ tq /\ (forall d, typingDebounceRef w = Some d -> timer_id x <> d)).
    { destruct (typingDebounceRef w) as [d|]; simpl in Hx.
      - apply list_elem_of_filter in Hx as [Hne Hx]. split; [exact Hx|].
        intros d' [= <-]. exact Hne.
      - split; [exact Hx|]. intros d' [=]. }
    destruct Hin as [Hin Hne]. apply list_elem_of_In in Hin.
    rewrite Forall_forall in Htq. destruct (Htq x Hin) as (Htr & Hty & _).
    unfold tracked_by, is_typing_timer in *.
    destruct (callback x) as [| ? ? [|]]; [discriminate| |exact Htr].
    exfalso. apply (Hne _ Htr). reflexivity. }
  assert (Hone : cancel (typingTimeoutRef w) (enqueue T1 (cancel (typingDebounceRef w) tq))
                 = [T1]).
  { destruct (typingTimeoutRef w) as [o|] eqn:Eo; simpl.
    - apply filter_enqueue_only.
      + subst T1. simpl. simpl in Ho. lia.
      + eapply Forall_impl; [|exact Hstops]. simpl. intros x [= ->] Hne. congruence.
    - destruct (cancel (typingDebounceRef w) tq) as [|x l]; [reflexivity|].
      inversion Hstops as [|? ? Hx _]; discriminate. }
  rewrite Hone. subst T1 T2. simpl.
  destruct (Z.leb_spec (clock w + 500) (clock w + 2000)); [reflexivity|lia].
Qed.

Lemma step_Input (text : jsstring) (w : World) :
  mounted w = true ->
  step w (Input text) = run_task handleTypingStart (set_newMessage text w).
Proof.
  intros Hm. unfold step, handle, guarded, run_task, setNewMessage.
  rewrite Hm. reflexivity.
Qed.

(** Rescheduling both typing timers keeps the queue invariant. *)
Lemma rescheduled_queue_ok (conv : IConversation) (u : IUser) (w w' : World) :
  queue_ok w ->
  timers w' = enqueue (stop_timer conv u w)
                (cancel (typingTimeoutRef w)
                   (enqueue (start_timer conv u w)
                      (cancel (typingDebounceRef w) (timers w)))) ->
  typingDebounceRef w' = Some (next_timer w) ->
  typingTimeoutRef w' = Some (Pos.succ (next_timer w)) ->
  next_timer w' = Pos.succ (Pos.succ (next_timer w)) ->
  clock w' = clock w ->
  queue_ok w'.
Proof.
  intros Hok Hq Hd Ho Hn Hc.
  pose proof (pending_typing_after_input conv u w Hok) as Hpending.
  destruct Hok as [Hsorted Hfuture Hfresh Hdf Hof Htracked].
  assert (Hlt : forall x, (timer_id x < next_timer w)%positive ->
                          (timer_id x < Pos.succ (Pos.succ (next_timer w)))%positive)
    by (intros; lia).
  split.
  - rewrite Hq. apply enqueue_sorted, cancel_sorted, enqueue_sorted, cancel_sorted, Hsorted.
  - rewrite Hq, Hc.
    apply Forall_enqueue; [simpl; lia|]. apply Forall_cancel.
    apply Forall_enqueue; [simpl; lia|]. apply Forall_cancel, Hfuture.
  - rewrite Hq, Hn.
    apply Forall_enqueue; [simpl; lia|]. apply Forall_cancel.
    apply Forall_enqueue; [simpl; lia|]. apply Forall_cancel.
    eapply Forall_impl; [|exact Hfresh]. exact Hlt.
  - rewrite Hd. simpl. rewrite Hn. lia.
  - rewrite Ho. simpl. rewrite Hn. lia.
  - apply Forall_forall. intros x Hx.
    unfold tracked_by. destruct (callback x) as [cid tok|c' u' flag] eqn:Ex; [exact I|].
    assert (Hin : x ∈ filter is_typing_timer (timers w')).
    { apply list_elem_of_filter. split; [|apply list_elem_of_In, Hx].
      unfold is_typing_timer. rewrite Ex. exact I. }
    rewrite Hq, Hpending in Hin.
    apply elem_of_cons in Hin as [->|Hin].
    + simpl in Ex. injection Ex as <- <- <-. rewrite Hd. reflexivity.
    + apply elem_of_cons in Hin as [->|Hin]; [|inversion Hin].
      simpl in Ex. injection Ex as <- <- <-. rewrite Ho. reflexivity.
Qed.

Lemma queue_ok_handleTypingStart : keeps queue_ok handleTypingStart.
Proof.
  intros w Hok.
  destruct (selectedConversation w) as [conv|] eqn:Hsel;
    [destruct (user w) as [u|] eqn:Hu|].
  - destruct (handleTypingStart_schedules conv u w Hsel Hu)
      as (w' & -> & Hq & Hd & Ho & Hn & Hc & _).
    simpl. eapply rescheduled_queue_ok; eassumption.
  - unfold handleTypingStart. unfold_m. rewrite Hsel, Hu. exact Hok.
  - unfold handleTypingStart. unfold_m. rewrite Hsel. exact Hok.
Qed.

Lemma queue_ok_set_newMessage (text : jsstring) (w : World) :
  queue_ok w -> queue_ok (set_newMessage text w).
Proof. intros [? ? ? ? ? ?]. split; simpl; assumption. Qed.

(** An input signal keeps the queue invariant and leaves exactly two typing
    timers pending: the start timer 500 ms ahead and the stop timer 2000 ms
    ahead. *)
Lemma input_arms (conv : IConversation) (u : IUser) (text : jsstring) (w : World) :
  queue_ok w -> mounted w = true ->
  selectedConversation w = Some conv -> user w = Some u ->
  let w' := step w (Input text) in
  queue_ok w'
  /\ filter is_typing_timer (timers w') = [start_timer conv u w; stop_timer conv u w]
  /\ clock w' = clock w /\ typing_calls w' = typing_calls w
  /\ selectedConversation w' = Some conv /\ user w' = Some u /\ mounted w' = true.
Proof.
  intros Hok Hm Hsel Hu. cbv zeta. rewrite (step_Input text w Hm).
  pose proof (queue_ok_set_newMessage text w Hok) as Hok0.
  pose proof (pending_typing_after_input conv u _ Hok0) as Hpending.
  destruct (handleTypingStart_schedules conv u (set_newMessage text w) Hsel Hu)
    as (w' & Hrun & Hq & Hd & Ho & Hn & Hc & Hcalls & Hsel' & Hu' & Hm').
  unfold run_task. rewrite Hrun.
  split; [eapply rescheduled_queue_ok; eassumption|].
  split; [rewrite Hq; exact Hpending|].
  split; [exact Hc|]. split; [exact Hcalls|].
  split; [rewrite Hsel'; exact Hsel|]. split; [rewrite Hu'; exact Hu|].
  rewrite Hm'. exact Hm.
Qed.

(** Letting time pass keeps the queue invariant. *)
Lemma tick_queue_ok (dt : Z) (w : World) : queue_ok w -> queue_ok (tick dt w).
Proof.
  intros [Hsorted Hfuture Hfresh Hd Ho Htracked].
  destruct (tick_spec dt w Hsorted Hfuture) as (_ & Hq & Hpage & Hc).
  destruct Hpage as (Hn & Ho' & Hd' & _).
  split.
  - rewrite Hq. apply filter_sorted, Hsorted.
  - rewrite Hq, Hc. apply Forall_forall. intros x Hx.
    apply list_elem_of_In, list_elem_of_filter in Hx as [Hlt _]. lia.
  - rewrite Hq, Hn. apply Forall_filter_keep, Hfresh.
  - rewrite Hd'. unfold ref_fresh in *. rewrite Hn. exact Hd.
  - rewrite Ho'. unfold ref_fresh in *. rewrite Hn. exact Ho.
  - rewrite Hq. apply Forall_filter_keep.
    eapply Forall_impl; [|exact Htracked].
    intros x Hx. unfold tracked_by in *. rewrite Hd', Ho'. exact Hx.
Qed.

(** **** Bursts of input and quiet periods *)

Lemma total_cons (d : Z) (ds : list Z) : total (d :: ds) = Z.max 0 d + total ds.
Proof. reflexivity. Qed.

Lemma total_nonneg (ds : list Z) : 0 <= total ds.
Proof.
  induction ds as [|d ds IH]; [unfold total; simpl; lia|].
  rewrite total_cons. lia.
Qed.

Lemma filter_split_sorted (t1 t2 : Z) (l : list Timer) :
  StronglySorted by_due l -> t1 <= t2 ->
  filter (fun tm => due tm <= t2) l
  = filter (fun tm => due tm <= t1) l
    ++ filter (fun tm => due tm <= t2) (filter (fun tm => t1 < due tm) l).
Proof.
  intros Hsorted Hle. induction Hsorted as [|x l Hl IH Hx]; [reflexivity|].
  destruct (decide (due x <= t1)) as [H1|H1].
  - rewrite (filter_cons_True (fun tm => due tm <= t2)) by lia.
    rewrite (filter_cons_True (fun tm => due tm <= t1)) by exact H1.
    rewrite (filter_cons_False (fun tm => t1 < due tm)) by lia.
    rewrite IH. reflexivity.
  - assert (Hall : Forall (fun tm => t1 < due tm) (x :: l)).
    { constructor; [lia|]. eapply Forall_impl; [|exact Hx].
      unfold by_due. intros y Hy. lia. }
    rewrite (filter_none (fun tm => due tm <= t1)).
    + rewrite (filter_all (fun tm => t1 < due tm)) by exact Hall. reflexivity.
    + eapply Forall_impl; [|exact Hall]. simpl. intros y Hy. lia.
Qed.

(** While only time passes, the typing calls made are those of the pending
    typing timers that fall due. *)
Lemma ticks_calls (ds : list Z) :
  forall w,
    queue_ok w ->
    Forall (fun tm => clock w < due tm) (filter is_typing_timer (timers w)) ->
    typing_calls (run (map Tick ds) w)
    = typing_calls w
      ++ flat_map emission
           (filter (fun tm => due tm <= clock w + total ds)
                   (filter is_typing_timer (timers w))).
Proof.
  induction ds as [|d ds IH]; intros w Hok Hlater.
  - simpl. rewrite filter_none, app_nil_r; [reflexivity|].
    eapply Forall_impl; [|exact Hlater]. change (total []) with 0. simpl. intros x Hx. lia.
  - change (run (map Tick (d :: ds)) w) with (run (map Tick ds) (tick d w)).
    pose proof (tick_queue_ok d w Hok) as Hok'.
    destruct (tick_spec d w (q_sorted _ Hok) (q_future _ Hok)) as (Hcalls & Hq & _ & Hc).
    assert (Htq : filter is_typing_timer (timers (tick d w))
                  = filter (fun tm => clock w + Z.max 0 d < due tm)
                           (filter is_typing_timer (timers w))).
    { rewrite Hq, !list_filter_filter. apply list_filter_iff. intros x. tauto. }
    rewrite IH; [|exact Hok'|].
    + rewrite Hcalls, Htq, Hc, <- app_assoc. f_equal.
      rewrite (emission_typing_only (fun tm => due tm <= clock w + Z.max 0 d)).
      rewrite <- flat_map_app. f_equal.
      replace (clock w + Z.max 0 d + total ds) with (clock w + total (d :: ds))
        by (rewrite total_cons; lia).
      symmetry. apply filter_split_sorted.
      * apply filter_sorted, (q_sorted _ Hok).
      * rewrite total_cons. pose proof (total_nonneg ds). lia.
    + rewrite Htq, Hc. apply Forall_forall. intros x Hx.
      apply list_elem_of_In, list_elem_of_filter in Hx as [Hx _]. exact Hx.
Qed.

Lemma input_armed (conv : IConversation) (u : IUser) (text : jsstring) (w : World) :
  queue_ok w -> mounted w = true ->
  selectedConversation w = Some conv -> user w = Some u ->
  armed conv u (clock w) (step w (Input text))
  /\ typing_calls (step w (Input text)) = typing_calls w.
Proof.
  intros Hok Hm Hsel Hu.
  destruct (input_arms conv u text w Hok Hm Hsel Hu)
    as (Hok' & Hq & Hc & Hcalls & Hsel' & Hu' & Hm').
  split; [|exact Hcalls].
  split; [exact Hok'|]. split; [exact Hm'|]. split; [exact Hsel'|].
  split; [exact Hu'|]. split; [exact Hc|].
  eexists _, _. exact Hq.
Qed.

(** A tick shorter than the debounce interval after an input signal fires
    neither typing timer. *)
Lemma tick_within_debounce (conv : IConversation) (u : IUser) (d : Z) (w : World) :
  armed conv u (clock w) w -> 0 <= d < 500 ->
  let w' := tick d w in
  queue_ok w' /\ mounted w' = true
  /\ selectedConversation w' = Some conv /\ user w' = Some u
  /\ clock w' = clock w + d /\ typing_calls w' = typing_calls w.
Proof.
  intros (Hok & Hm & Hsel & Hu & _ & i1 & i2 & Hq) Hd. cbv zeta.
  destruct (tick_spec d w (q_sorted _ Hok) (q_future _ Hok))
    as (Hcalls & _ & (_ & _ & _ & Hsel' & Hu' & Hm') & Hc).
  split; [apply tick_queue_ok, Hok|].
  split; [congruence|]. split; [congruence|]. split; [congruence|].
  split; [lia|].
  rewrite Hcalls, emission_typing_only, Hq, filter_none, app_nil_r; [reflexivity|].
  repeat constructor; simpl; lia.
Qed.

Lemma burst_arms (conv : IConversation) (u : IUser) (rest : list (Z * jsstring)) :
  forall (first : jsstring) (w : World),
    queue_ok w -> mounted w = true ->
    selectedConversation w = Some conv -> user w = Some u ->
    Forall (fun gt => 0 <= fst gt < 500) rest ->
    let w1 := run (keystrokes first rest) w in
    armed conv u (clock w + total (gaps rest)) w1
    /\ typing_calls w1 = typing_calls w.
Proof.
  induction rest as [|[d text] rest IH]; intros first w Hok Hm Hsel Hu Hgaps; cbv zeta.
  - change (run (keystrokes first []) w) with (step w (Input first)).
    change (total (gaps [])) with 0. rewrite Z.add_0_r.
    apply input_armed; assumption.
  - change (run (keystrokes first ((d, text) :: rest)) w)
      with (run (keystrokes text rest) (tick d (step w (Input first)))).
    inversion Hgaps as [|? ? Hd Hrest]; subst. simpl in Hd.
    destruct (input_armed conv u first w Hok Hm Hsel Hu) as [Harmed Hcalls].
    assert (Hc : clock (step w (Input first)) = clock w)
      by (destruct Harmed as (_ & _ & _ & _ & Hc & _); exact Hc).
    rewrite <- Hc in Harmed.
    destruct (tick_within_debounce conv u d _ Harmed Hd)
      as (Hok' & Hm' & Hsel' & Hu' & Hc' & Hcalls').
    destruct (IH text _ Hok' Hm' Hsel' Hu' Hrest) as [Harmed'' Hcalls''].
    rewrite Hc', Hc in Harmed''.
    change (gaps ((d, text) :: rest)) with (d :: gaps rest). rewrite total_cons.
    replace (clock w + (Z.max 0 d + total (gaps rest)))
      with (clock w + d + total (gaps rest)) by lia.
    split; [exact Harmed''|]. congruence.
Qed.

(** After the last input signal at [t], ticks adding up to [D] make the
    start calls once [D] reaches 500 and the stop calls once it reaches 2000,
    and no others. *)
Lemma quiet_emits (conv : IConversation) (u : IUser) (t : Z) (w : World) (ds : list Z) :
  armed conv u t w ->
  typing_calls (run (map Tick ds) w)
  = typing_calls w
    ++ (if 500 <=? total ds then starts conv u t else [])
    ++ (if 2000 <=? total ds then stops conv u t else []).
Proof.
  intros (Hok & _ & _ & _ & Hc & i1 & i2 & Hq).
  rewrite ticks_calls; [|exact Hok|rewrite Hq; repeat constructor; simpl; lia].
  rewrite Hq, Hc. f_equal. rewrite !filter_cons, filter_nil. simpl.
  destruct (Z.leb_spec 500 (total ds)); destruct (Z.leb_spec 2000 (total ds));
    repeat (destruct (decide _); try lia); simpl; rewrite ?app_nil_r; reflexivity.
Qed.

(** **** The queue invariant holds along every run *)

Lemma queue_ok_clearTimeout (id : positive) : keeps queue_ok (clearTimeout id).
Proof.
  unfold clearTimeout. apply keeps_write. intros w [Hs Hf Hn Hd Ho Ht].
  split; simpl; try assumption.
  - apply filter_sorted, Hs.
  - apply Forall_filter_keep, Hf.
  - apply Forall_filter_keep, Hn.
  - apply Forall_filter_keep, Ht.
Qed.

Lemma queue_ok_retry (cid : option Z) (tok : option jsstring) (delay : Z) :
  0 <= delay -> keeps queue_ok (setTimeout (ReconnectCb cid tok) delay).
Proof.
  intros Hdelay w [Hs Hf Hn Hd Ho Ht]. unfold setTimeout. unfold_m. simpl.
  split; simpl.
  - apply enqueue_sorted, Hs.
  - apply Forall_enqueue; [simpl; lia|exact Hf].
  - apply Forall_enqueue; [simpl; lia|].
    eapply Forall_impl; [|exact Hn]. simpl. intros x Hx. lia.
  - unfold ref_fresh in *. destruct (typingDebounceRef w); simpl; [lia|exact I].
  - unfold ref_fresh in *. destruct (typingTimeoutRef w); simpl; [lia|exact I].
  - apply Forall_enqueue; [exact I|exact Ht].
Qed.

(** Writes to fields the queue invariant does not read. *)
Ltac queue_ok_leaf :=
  apply keeps_write; intros ? [? ? ? ? ? ?];
  repeat case_match; split; simpl; assumption.

Ltac queue_ok_frame :=
  repeat first
    [ apply queue_ok_clearTimeout
    | apply queue_ok_retry; lia
    | keeps_step ];
  unfold ws_readyState, ws_send, ws_close, update_socket, console_log,
    setIsConnected, setConnectionError, setNewMessage, setError, setIsTyping,
    call_ui, Date_now, new_WebSocket in *;
  repeat first [ keeps_step | queue_ok_leaf ].

Lemma queue_ok_sendTyping r flag : keeps queue_ok (sendTyping r flag).
Proof. unfold sendTyping. queue_ok_frame. Qed.

Lemma queue_ok_fire cb : keeps queue_ok (fire cb).
Proof.
  destruct cb; unfold fire, connect, typing_timer;
    repeat first [apply queue_ok_sendTyping | keeps_step]; queue_ok_frame.
Qed.

Lemma queue_ok_handle e : keeps queue_ok (handle e).
Proof.
  destruct e; unfold handle, rerender, effect, cleanup, connect, disconnect,
    page_cleanup, handleSendMessage, sendMessage, deliver_open, deliver_message,
    deliver_error, deliver_close, onopen, onclose, onerror, onmessage, JSON_parse, get;
    repeat first [apply queue_ok_handleTypingStart | keeps_step];
    queue_ok_frame.
Qed.

Lemma queue_ok_initial : queue_ok initial.
Proof. split; simpl; constructor. Qed.

Lemma queue_ok_run (es : list Event) (w : World) : queue_ok w -> queue_ok (run es w).
Proof.
  apply run_keeps.
  - intros w' l [? ? ? ? ? ?]. split; simpl; assumption.
  - apply queue_ok_handle.
  - apply tick_queue_ok.
Qed.

Lemma run_app (es1 es2 : list Event) (w : World) :
  run (es1 ++ es2) w = run es2 (run es1 w).
Proof. unfold run. apply fold_left_app. Qed.

Lemma burst_emissions (es : list Event) (conv : IConversation) (u : IUser)
    (first : jsstring) (rest : list (Z * jsstring)) (quiet : list Z) :
  let w := run es initial in
  mounted w = true -> selectedConversation w = Some conv -> user w = Some u ->
  Forall (fun gt => 0 <= fst gt < 500) rest ->
  let t := clock w + total (gaps rest) in
  typing_calls (run (keystrokes first rest ++ map Tick quiet) w)
  = typing_calls w
    ++ (if 500 <=? total quiet then starts conv u t else [])
    ++ (if 2000 <=? total quiet then stops conv u t else []).
Proof.
  cbv zeta. intros Hm Hsel Hu Hgaps.
  pose proof (queue_ok_run es initial queue_ok_initial) as Hok.
  destruct (burst_arms conv u rest first _ Hok Hm Hsel Hu Hgaps) as [Harmed Hcalls].
  rewrite run_app, (quiet_emits conv u _ _ quiet Harmed), Hcalls. reflexivity.
Qed.

(** C8. In any state the page can reach, with a conversation selected and
    the user known: after a burst of input signals, each less than 500 ms
    after the one before, followed by ticks that add up to [D] with no
    further input, the calls of [sendTyping] made since the burst began are
    exactly one typing-start call per receiver, made 500 ms after the last
    signal, once [D] has reached 500, followed by exactly one typing-stop
    call per receiver, made 2000 ms after the last signal, once [D] has
    reached 2000.  Nothing is emitted during the burst, and nothing more
    however long the quiet lasts. *)
Theorem typing_burst_emits_once (es : list Event) (conv : IConversation) (u : IUser)
    (first : jsstring) (rest : list (Z * jsstring)) (quiet : list Z) :
  let w := run es initial in
  mounted w = true -> selectedConversation w = Some conv -> user w = Some u ->
  Forall (fun gt => 0 <= fst gt < 500) rest ->
  let t := clock w + total (gaps rest) in
  typing_calls (run (keystrokes first rest ++ map Tick quiet) w)
  = typing_calls w
    ++ (if 500 <=? total quiet
        then map (fun r => {| call_time := t + 500; call_receiver := r;
                              call_flag := true |})
                 (recipients conv (user_id u))
        else [])
    ++ (if 2000 <=? total quiet
        then map (fun r => {| call_time := t + 2000; call_receiver := r;
                              call_flag := false |})
                 (recipients conv (user_id u))
        else []).
Proof. apply burst_emissions. Qed.

Lemma typing_burst_emits_once_witness :
  typing_calls
    (run (keystrokes (js "h") [(100, js "he"); (200, js "hey")] ++ map Tick [600; 1500])
         (run group_open initial))
  = [{| call_time := 800; call_receiver := 3; call_flag := true |};
     {| call_time := 800; call_receiver := 5; call_flag := true |};
     {| call_time := 2300; call_receiver := 3; call_flag := false |};
     {| call_time := 2300; call_receiver := 5; call_flag := false |}].
Proof.
  refine (typing_burst_emits_once group_open chat43 alice (js "h")
            [(100, js "he"); (200, js "hey")] [600; 1500] eq_refl eq_refl eq_refl _).
  repeat constructor; simpl; lia.
Defined.

Lemma find_first_filtered (uid : Z) (ps : list IUser) (p : IUser) (rest : list IUser) :
  filter (other_than uid) ps = p :: rest -> find (other_than uid) ps = Some p.
Proof.
  induction ps as [|x ps IH]; [discriminate|].
  rewrite filter_cons. simpl. destruct (other_than uid x).
  - rewrite decide_True by exact I. intros [= -> _]. reflexivity.
  - rewrite decide_False by (simpl; auto). exact IH.
Qed.

Lemma find_none_all_self (uid : Z) (ps : list IUser) :
  Forall (fun p => user_id p = uid) ps -> find (other_than uid) ps = None.
Proof.
  induction 1 as [|x ps Hx _ IH]; [reflexivity|].
  simpl. unfold other_than at 1. rewrite Hx, Z.eqb_refl. exact IH.
Qed.

Lemma or_zero_id (n : Z) : or_zero (Some n) = n.
Proof. simpl. destruct (Z.eqb_spec n 0); congruence. Qed.

(** C9. When a typing timer (start or stop) fires: in a group conversation
    [sendTyping] is called once for each participant other than the local
    user, in order, and never for the local user; in a direct conversation
    with one participant other than the local user it is called once, for
    that participant.  On an open connection each call puts one frame
    [{type: "typing", receiver: r, is_typing: flag}] on the wire, [r] being
    the receiver of that call, and nothing else is sent. *)
Theorem typing_frames_addressed (conv : IConversation) (u : IUser) (flag : bool)
    (w : World) :
  exists w',
    typing_timer conv u flag w = Returns tt w'
    /\ (forall ps,
          conversation_type conv = group -> participants conv = Some ps ->
          let rs := map user_id (filter (other_than (user_id u)) ps) in
          typing_calls w' = typing_calls w ++ typing_calls_at (clock w) flag rs
          /\ ~ (user_id u ∈ rs)
          /\ forall s sock,
               wsRef w = Some s -> sockets w !! s = Some sock -> readyState sock = OPEN ->
               sockets w'
               = <[s := add_sent
                          (map (fun r => JObj [(js "type", JStr (js "typing"));
                                               (js "receiver", JNum r);
                                               (js "is_typing", JBool flag)]) rs)
                          sock]> (sockets w))
    /\ (forall ps p,
          conversation_type conv = direct -> participants conv = Some ps ->
          filter (other_than (user_id u)) ps = [p] ->
          typing_calls w'
          = typing_calls w ++ [{| call_time := clock w; call_receiver := user_id p;
                                  call_flag := flag |}]
          /\ forall s sock,
               wsRef w = Some s -> sockets w !! s = Some sock -> readyState sock = OPEN ->
               sockets w'
               = <[s := add_sent [JObj [(js "type", JStr (js "typing"));
                                        (js "receiver", JNum (user_id p));
                                        (js "is_typing", JBool flag)]]
                          sock]> (sockets w)).
Proof.
  destruct (typing_timer_sent conv u flag w) as (w' & Hrun & Hsent).
  exists w'. split; [exact Hrun|].
  destruct Hsent as [Hcalls Hframes _ _ _ _]. simpl in Hcalls, Hframes.
  split.
  - intros ps Hty Hps. cbv zeta. unfold recipients in *. rewrite Hty, Hps in *.
    split; [exact Hcalls|]. split; [|exact Hframes].
    intros Hin. apply list_elem_of_fmap in Hin as (p & Hid & Hp).
    apply list_elem_of_filter in Hp as [Hother _].
    unfold other_than in Hother. rewrite <- Hid, Z.eqb_refl in Hother. exact Hother.
  - intros ps p Hty Hps Hone. unfold recipients in *. rewrite Hty, Hps in *.
    unfold other_participant in *.
    rewrite (find_first_filtered _ _ _ _ Hone), or_zero_id in *.
    split; [exact Hcalls|exact Hframes].
Qed.

Lemma typing_frames_addressed_witness :
  exists w',
    typing_timer chat43 alice true (run group_open initial) = Returns tt w'
    /\ typing_calls w'
       = [{| call_time := 0; call_receiver := 3; call_flag := true |};
          {| call_time := 0; call_receiver := 5; call_flag := true |}]
    /\ (sent <$> sockets w' !! 0%nat)
       = Some [JObj [(js "type", JStr (js "typing")); (js "receiver", JNum 3);
                     (js "is_typing", JBool true)];
               JObj [(js "type", JStr (js "typing")); (js "receiver", JNum 5);
                     (js "is_typing", JBool true)]].
Proof.
  destruct (typing_frames_addressed chat43 alice true (run group_open initial))
    as (w' & Hrun & Hgroup & _).
  destruct (Hgroup [alice; bob; carol] eq_refl eq_refl) as (Hcalls & _ & Hframes).
  exists w'. split; [exact Hrun|]. split; [exact Hcalls|].
  rewrite (Hframes 0%nat
             {| readyState := OPEN; url_conversation := 43; url_token := js "T";
                sent := []; close_request := None |} eq_refl eq_refl eq_refl).
  reflexivity.
Defined.

(** C10. In a direct conversation that lists no participant other than the
    local user, or has no participant list, a typing timer still calls
    [sendTyping], once, with receiver 0, and on an open connection the frame
    [{type: "typing", receiver: 0, is_typing: flag}] goes on the wire; a
    burst of input in such a conversation therefore produces one
    typing-start and one typing-stop call, both to receiver 0. *)
Theorem lone_direct_typing_goes_to_zero (conv : IConversation) (u : IUser) :
  conversation_type conv = direct ->
  (participants conv = None
   \/ exists ps, participants conv = Some ps
                 /\ Forall (fun p => user_id p = user_id u) ps) ->
  (forall flag w,
      exists w',
        typing_timer conv u flag w = Returns tt w'
        /\ typing_calls w'
           = typing_calls w ++ [{| call_time := clock w; call_receiver := 0;
                                   call_flag := flag |}]
        /\ forall s sock,
             wsRef w = Some s -> sockets w !! s = Some sock -> readyState sock = OPEN ->
             sockets w'
             = <[s := add_sent [JObj [(js "type", JStr (js "typing"));
                                      (js "receiver", JNum 0);
                                      (js "is_typing", JBool flag)]]
                        sock]> (sockets w))
  /\ (forall es first rest quiet,
        let w := run es initial in
        mounted w = true -> selectedConversation w = Some conv -> user w = Some u ->
        Forall (fun gt => 0 <= fst gt < 500) rest ->
        let t := clock w + total (gaps rest) in
        typing_calls (run (keystrokes first rest ++ map Tick quiet) w)
        = typing_calls w
          ++ (if 500 <=? total quiet
              then [{| call_time := t + 500; call_receiver := 0; call_flag := true |}]
              else [])
          ++ (if 2000 <=? total quiet
              then [{| call_time := t + 2000; call_receiver := 0; call_flag := false |}]
              else [])).
Proof.
  intros Hty Hlone.
  assert (Hrs : recipients conv (user_id u) = [0]).
  { unfold recipients, other_participant. rewrite Hty.
    destruct Hlone as [->|(ps & -> & Hself)]; [reflexivity|].
    rewrite (find_none_all_self _ _ Hself). reflexivity. }
  split.
  - intros flag w.
    destruct (typing_timer_sent conv u flag w) as (w' & Hrun & [Hcalls Hframes _ _ _ _]).
    rewrite Hrs in *. simpl in Hcalls, Hframes.
    exists w'. split; [exact Hrun|]. split; [exact Hcalls|exact Hframes].
  - intros es first rest quiet. cbv zeta. intros Hm Hsel Hu Hgaps.
    rewrite (burst_emissions es conv u first rest quiet Hm Hsel Hu Hgaps).
    unfold starts, stops. rewrite Hrs. reflexivity.
Qed.

Lemma lone_direct_typing_goes_to_zero_witness :
  typing_calls (run (keystrokes (js "h") [] ++ map Tick [2000]) (run solo_open initial))
  = [{| call_time := 500; call_receiver := 0; call_flag := true |};
     {| call_time := 2000; call_receiver := 0; call_flag := false |}]
  /\ exists w',
       typing_timer solo alice true (run solo_open initial) = Returns tt w'
       /\ (sent <$> sockets w' !! 0%nat)
          = Some [JObj [(js "type", JStr (js "typing")); (js "receiver", JNum 0);
                        (js "is_typing", JBool true)]].
Proof.
  assert (Hlone : participants solo = None
                  \/ exists ps, participants solo = Some ps
                                /\ Forall (fun p => user_id p = user_id alice) ps).
  { right. exists [alice]. split; [reflexivity|]. repeat constructor. }
  split.
  - refine (proj2 (lone_direct_typing_goes_to_zero solo alice eq_refl Hlone)
              solo_open (js "h") [] [2000] eq_refl eq_refl eq_refl _).
    constructor.
  - destruct (proj1 (lone_direct_typing_goes_to_zero solo alice eq_refl Hlone)
                true (run solo_open initial)) as (w' & Hrun & _ & Hframes).
    exists w'. split; [exact Hrun|].
    rewrite (Hframes 0%nat
               {| readyState := OPEN; url_conversation := 44; url_token := js "T";
                  sent := []; close_request := None |} eq_refl eq_refl eq_refl).
    reflexivity.
Defined.

(** *** The rest of the dispatcher (useWebSocket.connect, onmessage) *)

Lemma set_ui_calls_same (w : World) : set_ui_calls (ui_calls w ++ []) w = w.
Proof. destruct w. unfold set_ui_calls. simpl. rewrite app_nil_r. reflexivity. Qed.

Lemma is_literal_true (v : option json) (l : string) :
  is_literal v l = true -> v = Some (JStr (js l)).
Proof.
  destruct v as [[ | | |s| |]|]; simpl; try discriminate.
  intros H. apply bool_decide_eq_true_1 in H. congruence.
Qed.

(** What the dispatcher does with a frame whose [type] is [typing]. *)
Lemma onmessage_typing (cid : Z) (fields : list (jsstring * json)) (w : World) :
  assoc (js "type") fields = Some (JStr (js "typing")) ->
  onmessage cid (WellFormed (JObj fields)) w =
    match assoc (js "user") fields with
    | Some usr =>
        if truthy (Some usr)
        then Returns tt
               (set_ui_calls
                  (ui_calls w ++
                   [OnTyping usr (js_or (assoc (js "is_typing") fields) (JBool false))]) w)
        else Returns tt w
    | None => Returns tt w
    end.
Proof.
  intros Hty. unfold onmessage, JSON_parse, get. unfold_m. simpl.
  rewrite Hty.
  change (is_literal (Some (JStr (js "typing"))) "chat_message") with false.
  rewrite is_literal_refl.
  destruct (assoc (js "user") fields) as [usr|]; [|reflexivity].
  destruct (truthy (Some usr)); reflexivity.
Qed.

(** What the dispatcher does with a frame whose [type] is [online_status]. *)
Lemma onmessage_online_status (cid : Z) (fields : list (jsstring * json)) (w : World) :
  assoc (js "type") fields = Some (JStr (js "online_status")) ->
  onmessage cid (WellFormed (JObj fields)) w =
    match assoc (js "online_users") fields, assoc (js "status") fields with
    | Some us, Some st =>
        if truthy (Some us) && truthy (Some st)
        then Returns tt (set_ui_calls (ui_calls w ++ [OnUserStatus us st]) w)
        else Returns tt w
    | _, _ => Returns tt w
    end.
Proof.
  intros Hty. unfold onmessage, JSON_parse, get. unfold_m. simpl.
  rewrite Hty.
  change (is_literal (Some (JStr (js "online_status"))) "chat_message") with false.
  change (is_literal (Some (JStr (js "online_status"))) "typing") with false.
  rewrite is_literal_refl.
  destruct (assoc (js "online_users") fields) as [us|]; [|reflexivity].
  destruct (assoc (js "status") fields) as [st|]; [|reflexivity].
  destruct (truthy (Some us) && truthy (Some st)); reflexivity.
Qed.

(** A frame of any other type, or of none, is ignored. *)
Lemma onmessage_other (cid : Z) (fields : list (jsstring * json)) (w : World) :
  is_literal (assoc (js "type") fields) "chat_message" = false ->
  is_literal (assoc (js "type") fields) "typing" = false ->
  is_literal (assoc (js "type") fields) "online_status" = false ->
  onmessage cid (WellFormed (JObj fields)) w = Returns tt w.
Proof.
  intros H1 H2 H3.
  unfold onmessage, JSON_parse, get. unfold_m. simpl. rewrite H1, H2, H3. reflexivity.
Qed.

(** The three ways the dispatcher can end. *)
Lemma onmessage_cases (cid : Z) (d : MessageData) (w : World) :
  onmessage cid d w = Returns tt w
  \/ (exists c, onmessage cid d w = Returns tt (set_ui_calls (ui_calls w ++ [c]) w))
  \/ (exists e, onmessage cid d w
                = Returns tt (set_console (console w ++ [LogParseError e]) w)).
Proof.
  destruct d as [j|raw]; [|right; right; exists SyntaxError; reflexivity].
  destruct j as [ |b|n|str|items|fields]; try (left; reflexivity).
  - right; right. exists TypeError. reflexivity.
  - destruct (is_literal (assoc (js "type") fields) "chat_message") eqn:H1.
    { rewrite (onmessage_chat_message cid fields w (is_literal_true _ _ H1)).
      repeat case_match; try (left; reflexivity); right; left; eexists; reflexivity. }
    destruct (is_literal (assoc (js "type") fields) "typing") eqn:H2.
    { rewrite (onmessage_typing cid fields w (is_literal_true _ _ H2)).
      repeat case_match; try (left; reflexivity); right; left; eexists; reflexivity. }
    destruct (is_literal (assoc (js "type") fields) "online_status") eqn:H3.
    { rewrite (onmessage_online_status cid fields w (is_literal_true _ _ H3)).
      repeat case_match; try (left; reflexivity); right; left; eexists; reflexivity. }
    left. apply onmessage_other; assumption.
Qed.

(** X1. A [typing] frame that carries a truthy [user] makes the dispatcher
    call the typing callback once, with that user and with the frame's
    [is_typing] when it is truthy and [false] otherwise (absent, [null],
    [false], [0] or the empty string); nothing else changes.  A [typing]
    frame whose [user] is absent or falsy is dropped. *)
Theorem typing_event_dispatch (cid : Z) (fields : list (jsstring * json)) (w : World) :
  assoc (js "type") fields = Some (JStr (js "typing")) ->
  (forall usr,
      assoc (js "user") fields = Some usr -> truthy (Some usr) = true ->
      exists flag,
        onmessage cid (WellFormed (JObj fields)) w
        = Returns tt (set_ui_calls (ui_calls w ++ [OnTyping usr flag]) w)
        /\ (truthy (assoc (js "is_typing") fields) = true ->
            assoc (js "is_typing") fields = Some flag)
        /\ (truthy (assoc (js "is_typing") fields) = false -> flag = JBool false))
  /\ (truthy (assoc (js "user") fields) = false ->
      onmessage cid (WellFormed (JObj fields)) w = Returns tt w).
Proof.
  intros Hty. rewrite (onmessage_typing cid fields w Hty). split.
  - intros usr -> Husr. rewrite Husr.
    exists (js_or (assoc (js "is_typing") fields) (JBool false)).
    split; [reflexivity|]. unfold js_or.
    destruct (assoc (js "is_typing") fields) as [v|]; simpl.
    + destruct (truthy (Some v)); split; congruence.
    + split; [discriminate|reflexivity].
  - intros Hu. destruct (assoc (js "user") fields) as [usr|]; [|reflexivity].
    rewrite Hu. reflexivity.
Qed.

Lemma typing_event_dispatch_witness :
  (exists flag,
      onmessage 42 (WellFormed (JObj typing_from_bob)) opened42
      = Returns tt (set_ui_calls (ui_calls opened42 ++ [OnTyping (user_json bob) flag])
                      opened42)
      /\ (truthy (assoc (js "is_typing") typing_from_bob) = true ->
          assoc (js "is_typing") typing_from_bob = Some flag)
      /\ (truthy (assoc (js "is_typing") typing_from_bob) = false -> flag = JBool false))
  /\ onmessage 42 (WellFormed (JObj typing_without_user)) opened42 = Returns tt opened42.
Proof.
  split.
  - exact (proj1 (typing_event_dispatch 42 typing_from_bob opened42 eq_refl)
             (user_json bob) eq_refl eq_refl).
  - exact (proj2 (typing_event_dispatch 42 typing_without_user opened42 eq_refl) eq_refl).
Defined.

(** X2. An [online_status] frame whose [online_users] and [status] are both
    truthy makes the dispatcher call the status callback once with the two
    values as they are (the status is not compared with ["online"] or
    ["offline"]); nothing else changes.  When either is absent or falsy the
    frame is dropped. *)
Theorem online_status_dispatch (cid : Z) (fields : list (jsstring * json)) (w : World) :
  assoc (js "type") fields = Some (JStr (js "online_status")) ->
  (forall us st,
      assoc (js "online_users") fields = Some us -> truthy (Some us) = true ->
      assoc (js "status") fields = Some st -> truthy (Some st) = true ->
      onmessage cid (WellFormed (JObj fields)) w
      = Returns tt (set_ui_calls (ui_calls w ++ [OnUserStatus us st]) w))
  /\ (truthy (assoc (js "online_users") fields) = false
      \/ truthy (assoc (js "status") fields) = false ->
      onmessage cid (WellFormed (JObj fields)) w = Returns tt w).
Proof.
  intros Hty. rewrite (onmessage_online_status cid fields w Hty). split.
  - intros us st -> Hus -> Hst. rewrite Hus, Hst. reflexivity.
  - intros H.
    destruct (assoc (js "online_users") fields) as [us|]; [|reflexivity].
    destruct (assoc (js "status") fields) as [st|]; [|reflexivity].
    destruct H as [H|H]; rewrite H; rewrite ?andb_false_r; reflexivity.
Qed.

Lemma online_status_dispatch_witness :
  onmessage 42 (WellFormed (JObj bob_online)) opened42
  = Returns tt
      (set_ui_calls
         (ui_calls opened42 ++ [OnUserStatus (JArr [user_json bob]) (JStr (js "online"))])
         opened42)
  /\ onmessage 42 (WellFormed (JObj status_without_users)) opened42 = Returns tt opened42.
Proof.
  split.
  - exact (proj1 (online_status_dispatch 42 bob_online opened42 eq_refl)
             (JArr [user_json bob]) (JStr (js "online")) eq_refl eq_refl eq_refl eq_refl).
  - exact (proj2 (online_status_dispatch 42 status_without_users opened42 eq_refl)
             (or_introl eq_refl)).
Defined.

(** X3. Whatever a message event carries, the dispatcher returns: nothing
    is thrown.  It changes the world by at most one call of a callback or
    one console entry, and touches nothing else.  A frame that decodes to
    an object whose [type] is none of [chat_message], [typing] and
    [online_status] changes nothing at all. *)
Theorem dispatcher_never_throws (cid : Z) (d : MessageData) (w : World) :
  (exists calls log,
      onmessage cid d w
      = Returns tt (set_console (console w ++ log) (set_ui_calls (ui_calls w ++ calls) w))
      /\ (length calls + length log <= 1)%nat)
  /\ (forall fields,
        d = WellFormed (JObj fields) ->
        is_literal (assoc (js "type") fields) "chat_message" = false ->
        is_literal (assoc (js "type") fields) "typing" = false ->
        is_literal (assoc (js "type") fields) "online_status" = false ->
        onmessage cid d w = Returns tt w).
Proof.
  split.
  - destruct (onmessage_cases cid d w) as [H|[[c H]|[e H]]]; rewrite H.
    + exists [], []. rewrite set_ui_calls_same, set_console_same.
      split; [reflexivity|simpl; lia].
    + exists [c], []. split; [|simpl; lia].
      f_equal. destruct w. unfold set_console, set_ui_calls. simpl.
      rewrite app_nil_r. reflexivity.
    + exists [], [LogParseError e]. rewrite set_ui_calls_same.
      split; [reflexivity|simpl; lia].
  - intros fields ->. apply onmessage_other.
Qed.

(** *** Typing frames (useWebSocket.sendTyping) *)

(** X4. [sendTyping receiverId isTyping] on an open connection hands exactly
    the frame [{type: "typing", receiver: receiverId, is_typing: isTyping}]
    to the current socket; when the connection is not open it sends
    nothing.  In both cases it returns, and apart from the socket only the
    record of the call changes. *)
Theorem sendTyping_frame_or_noop (receiverId : Z) (flag : bool) (w : World) :
  let w1 := set_typing_calls
              (typing_calls w ++ [{| call_time := clock w; call_receiver := receiverId;
                                     call_flag := flag |}]) w in
  (forall s sock,
      wsRef w = Some s -> sockets w !! s = Some sock -> readyState sock = OPEN ->
      sendTyping receiverId flag w
      = Returns tt
          (set_sockets
             (<[s := push_sent
                       (JObj [(js "type", JStr (js "typing"));
                              (js "receiver", JNum receiverId);
                              (js "is_typing", JBool flag)]) sock]> (sockets w)) w1))
  /\ (connection_open w = false -> sendTyping receiverId flag w = Returns tt w1).
Proof.
  intros w1. split.
  - intros s sock Hs Hsock Hopen. unfold sendTyping. unfold_m. simpl.
    rewrite Hs. simpl. rewrite Hsock. simpl. rewrite Hopen. simpl.
    rewrite Hsock, Hopen. simpl. rewrite Hsock. reflexivity.
  - intros Hclosed. unfold connection_open, current_socket in Hclosed.
    unfold sendTyping. unfold_m. simpl.
    destruct (wsRef w) as [s|]; simpl in *; [|reflexivity].
    destruct (sockets w !! s) as [sock|]; simpl in *; [|reflexivity].
    destruct (readyState sock); simpl in *; try reflexivity; discriminate.
Qed.

(** *** Handlers never throw *)

Lemma nt_ret {A} (a : A) : never_throws (mret a).
Proof. intros w. exists a, w. reflexivity. Qed.

Lemma nt_read {A} (f : World -> A) : never_throws (read f).
Proof. intros w. exists (f w), w. reflexivity. Qed.

Lemma nt_write (g : World -> World) : never_throws (write g).
Proof. intros w. exists tt, (g w). reflexivity. Qed.

Lemma nt_bind {A B} (m : M A) (k : A -> M B) :
  never_throws m -> (forall a, never_throws (k a)) -> never_throws (m ≫= k).
Proof.
  intros Hm Hk w. destruct (Hm w) as (a & w1 & H1).
  unfold mbind, M_bind. rewrite H1. apply Hk.
Qed.

(** A [try] block whose handler returns returns, whatever its body does. *)
Lemma nt_try_catch (body : M unit) (handler : exn -> M unit) :
  (forall e, never_throws (handler e)) -> never_throws (try_catch body handler).
Proof.
  intros Hh w. unfold try_catch. destruct (body w) as [a w1|e w1].
  - exists a, w1. reflexivity.
  - apply Hh.
Qed.

Lemma nt_forEach {A} (l : list A) (f : A -> M unit) :
  (forall x, never_throws (f x)) -> never_throws (forEach l f).
Proof.
  intros Hf. induction l as [|x l IH]; simpl.
  - apply nt_ret.
  - apply nt_bind; [apply Hf|intros _; exact IH].
Qed.

Lemma nt_guarded (b : World -> bool) (m : M unit) :
  never_throws m -> never_throws (guarded b m).
Proof.
  intros Hm w. unfold guarded. destruct (b w); [apply Hm|exists tt, w; reflexivity].
Qed.

(** The two places that call [send] test for an open socket first. *)
Lemma nt_sendTyping (r : Z) (flag : bool) : never_throws (sendTyping r flag).
Proof.
  intros w. destruct (sendTyping_sent r flag w) as (w' & H & _). exists tt, w'. exact H.
Qed.

Lemma nt_sendMessage (usr : option IUser) (text : jsstring) :
  never_throws (sendMessage usr text).
Proof.
  intros w. destruct (sendMessage_returns usr text w) as (w' & H & _).
  exists tt, w'. exact H.
Qed.

Ltac nt_step :=
  match goal with
  | |- never_throws (sendTyping _ _) => apply nt_sendTyping
  | |- never_throws (sendMessage _ _) => apply nt_sendMessage
  | |- never_throws (mret _) => apply nt_ret
  | |- never_throws (read _) => apply nt_read
  | |- never_throws (write _) => apply nt_write
  | |- never_throws (_ ≫= _) => apply nt_bind; [|intros ?]
  | |- never_throws (try_catch _ _) => apply nt_try_catch; intros ?
  | |- never_throws (forEach _ _) => apply nt_forEach; intros ?
  | |- never_throws (guarded _ _) => apply nt_guarded
  | |- never_throws (match ?x with _ => _ end) => destruct x
  | |- never_throws (if ?x then _ else _) => destruct x
  end.

Ltac nt_solve :=
  repeat progress
    unfold handle, fire, rerender, effect, cleanup, connect, disconnect,
      page_cleanup, handleTypingStart, handleSendMessage,
      typing_timer, deliver_open, deliver_message, deliver_error,
      deliver_close, onopen, onclose, onerror, onmessage,
      ws_readyState, ws_close, update_socket, console_log,
      setIsConnected, setConnectionError, setNewMessage, setError, setIsTyping,
      call_ui, Date_now, setTimeout, clearTimeout, new_WebSocket;
  repeat nt_step.

Lemma nt_fire (cb : TimerCallback) : never_throws (fire cb).
Proof. destruct cb; nt_solve. Qed.

Lemma nt_handle (e : Event) : never_throws (handle e).
Proof. destruct e; nt_solve. Qed.

Lemma run_task_returns (m : M unit) (w : World) :
  never_throws m -> run_task m w = world_of (m w).
Proof.
  intros Hm. destruct (Hm w) as (a & w' & H). unfold run_task. rewrite H. reflexivity.
Qed.

Lemma returns_world_of (m : M unit) (w : World) :
  never_throws m -> m w = Returns tt (world_of (m w)).
Proof. intros Hm. destruct (Hm w) as ([] & w' & H). rewrite H. reflexivity. Qed.

Ltac no_uncaught_leaf :=
  apply keeps_write; intros ? ?; unfold no_uncaught in *;
  repeat case_match; simpl in *;
  first [ assumption
        | apply Forall_app; split; [assumption|repeat constructor; discriminate] ].

Ltac no_uncaught_frame :=
  repeat progress
    unfold handle, fire, rerender, effect, cleanup, connect, disconnect,
      page_cleanup, handleTypingStart, handleSendMessage, sendMessage, sendTyping,
      typing_timer, deliver_open, deliver_message, deliver_error,
      deliver_close, onopen, onclose, onerror, onmessage, JSON_parse, get,
      ws_readyState, ws_send, ws_close, update_socket, console_log,
      setIsConnected, setConnectionError, setNewMessage, setError, setIsTyping,
      call_ui, Date_now, setTimeout, clearTimeout, new_WebSocket;
  repeat first [ keeps_step | no_uncaught_leaf ].

Lemma no_uncaught_fire (cb : TimerCallback) : keeps no_uncaught (fire cb).
Proof. destruct cb; no_uncaught_frame. Qed.

Lemma no_uncaught_handle (e : Event) : keeps no_uncaught (handle e).
Proof. destruct e; no_uncaught_frame. Qed.

Lemma no_uncaught_run_due (fuel : nat) (t : Z) (w : World) :
  no_uncaught w -> no_uncaught (run_due fuel t w).
Proof.
  revert w. induction fuel as [|fuel IH]; intros w H; simpl; [exact H|].
  destruct (timers w) as [|tm rest]; [exact H|].
  destruct (due tm <=? t); [|exact H].
  apply IH. rewrite run_task_returns by apply nt_fire.
  apply no_uncaught_fire. exact H.
Qed.

Lemma no_uncaught_step (w : World) (e : Event) : no_uncaught w -> no_uncaught (step w e).
Proof.
  intros H. destruct e;
    try (unfold step; rewrite run_task_returns by apply nt_handle;
         apply no_uncaught_handle, H).
  unfold step, tick. apply (no_uncaught_run_due _ _ w H).
Qed.

(** X5. No handler of the hook or the page and no timer callback ever
    throws, from any world: [send] is only reached on an open socket, and
    what [JSON.parse] or a property read throws is caught.  So along every
    run no uncaught exception is reported. *)
Theorem handlers_never_throw :
  (forall e w, exists w', handle e w = Returns tt w')
  /\ (forall cb w, exists w', fire cb w = Returns tt w')
  /\ (forall es, Forall (fun l => forall e, l <> LogUncaught e) (console (run es initial))).
Proof.
  split; [|split].
  - intros e w. destruct (nt_handle e w) as ([] & w' & H). exists w'. exact H.
  - intros cb w. destruct (nt_fire cb w) as ([] & w' & H). exists w'. exact H.
  - intros es. change (no_uncaught (run es initial)).
    assert (H : no_uncaught initial) by constructor.
    revert H. generalize initial. induction es as [|e es IH]; intros w H; simpl; [exact H|].
    apply IH, no_uncaught_step, H.
Qed.

(** *** Teardown (useWebSocket.disconnect and its callers) *)

Lemma filter_twice {A} (P : A -> Prop) `{forall x, Decision (P x)} (l : list A) :
  filter P (filter P l) = filter P l.
Proof.
  induction l as [|x l IH]; [reflexivity|].
  rewrite filter_cons. destruct (decide (P x)) as [Hx|Hx]; [|exact IH].
  rewrite filter_cons, decide_True by exact Hx. f_equal. exact IH.
Qed.

(** X6. [disconnect] is idempotent: calling it twice in a row, as the two
    effect cleanups do on unmount, leaves exactly the world one call
    leaves. *)
Theorem disconnect_idempotent (w : World) :
  (disconnect;; disconnect) w = disconnect w.
Proof.
  unfold mbind, M_bind. rewrite (disconnect_runs w).
  rewrite disconnect_runs. f_equal.
  destruct w as [clk off tms nt socks cons tok usr ws rref isc cerr ui mnt sel nm ity err
                 tref dref tc].
  destruct ws as [s|]; destruct rref as [r|];
    cbv [cancel_reconnect close_current set_isConnected set_wsRef set_sockets set_timers
         wsRef reconnectTimeoutRef timers sockets clock date_offset next_timer console
         accessToken
         user isConnected connectionError ui_calls mounted selectedConversation
         newMessage isTyping error typingTimeoutRef typingDebounceRef typing_calls];
    try destruct (socks !! s) as [sock|];
    rewrite ?filter_twice; reflexivity.
Qed.

(** Cancelling a timer just put in the queue under a fresh identifier gives
    the queue back. *)
Lemma cancel_enqueue_fresh (t : Timer) (q : list Timer) :
  Forall (fun tm => timer_id tm <> timer_id t) q ->
  filter (fun x => timer_id x <> timer_id t) (enqueue t q) = q.
Proof.
  induction 1 as [|tm q Htm Hq IH]; simpl.
  - rewrite filter_cons, decide_False by (intros H; apply H; reflexivity). reflexivity.
  - destruct (due tm <=? due t).
    + rewrite filter_cons, decide_True by exact Htm. f_equal. exact IH.
    + rewrite filter_cons, decide_False by (intros H; apply H; reflexivity).
      rewrite filter_cons, decide_True by exact Htm. f_equal.
      apply filter_all. exact Hq.
Qed.

Lemma disconnect_timers (w : World) :
  timers (world_of (disconnect w)) = timers (cancel_reconnect w).
Proof.
  rewrite disconnect_runs. simpl.
  destruct (wsRef w); simpl; [|reflexivity].
  apply close_current_timers.
Qed.

(** X7. In every reachable world, a [disconnect] that follows the close of a
    socket with a code other than 1000 cancels the reconnect that close
    scheduled: the close puts one timer in the queue and keeps its
    identifier, and after [disconnect] the queue is what it was before the
    close. *)
Theorem disconnect_cancels_reconnect (es : list Event) (s : nat) (k : WebSocket)
    (code : Z) :
  let w := run es initial in
  sockets w !! s = Some k -> readyState k <> CLOSED -> code <> 1000 ->
  let w1 := step w (SocketClose s code) in
  timers w1 = enqueue {| timer_id := next_timer w; due := clock w + 3000;
                         callback := ReconnectCb (Some (url_conversation k))
                                                 (Some (url_token k)) |} (timers w)
  /\ reconnectTimeoutRef w1 = Some (next_timer w)
  /\ exists w2, disconnect w1 = Returns tt w2 /\ timers w2 = timers w.
Proof.
  intros w Hs Hk Hcode w1.
  pose proof (queue_ok_run es initial queue_ok_initial) as Hok. fold w in Hok.
  set (tm := {| timer_id := next_timer w; due := clock w + 3000;
                callback := ReconnectCb (Some (url_conversation k))
                                        (Some (url_token k)) |}).
  assert (H1 : timers w1 = enqueue tm (timers w)
               /\ reconnectTimeoutRef w1 = Some (next_timer w)).
  { unfold w1, step, run_task, handle. rewrite (deliver_close_runs s k code w Hs Hk).
    cbv zeta. apply Z.eqb_neq in Hcode. rewrite Hcode. split; reflexivity. }
  destruct H1 as [Ht Href].
  split; [exact Ht|]. split; [exact Href|].
  exists (world_of (disconnect w1)).
  split; [apply returns_world_of; nt_solve|].
  rewrite disconnect_timers. unfold cancel_reconnect. rewrite Href.
  change (timers (set_timers ?q w1)) with q. rewrite Ht.
  apply (cancel_enqueue_fresh tm).
  eapply Forall_impl; [|exact (q_fresh _ Hok)].
  intros x Hlt; simpl in *. lia.
Qed.

Lemma disconnect_cancels_reconnect_witness :
  timers (step opened42 (SocketClose 0%nat 1006))
  = enqueue {| timer_id := next_timer opened42; due := clock opened42 + 3000;
               callback := ReconnectCb (Some 42) (Some (js "T")) |} (timers opened42)
  /\ reconnectTimeoutRef (step opened42 (SocketClose 0%nat 1006))
     = Some (next_timer opened42)
  /\ exists w2,
       disconnect (step opened42 (SocketClose 0%nat 1006)) = Returns tt w2
       /\ timers w2 = timers opened42.
Proof.
  apply (disconnect_cancels_reconnect opening42 0%nat
           {| readyState := OPEN; url_conversation := 42; url_token := js "T";
              sent := []; close_request := None |} 1006).
  - reflexivity.
  - discriminate.
  - discriminate.
Defined.

Lemma torn_down_disconnect_any (w : World) : torn_down (world_of (disconnect w)).
Proof.
  rewrite disconnect_runs. simpl. destruct (wsRef w) eqn:Hws; split; try reflexivity.
  unfold cancel_reconnect. simpl. destruct (reconnectTimeoutRef w); exact Hws.
Qed.

Ltac torn_down_leaf :=
  apply keeps_write; intros ? [? ?]; unfold torn_down;
  repeat case_match; simpl; split; first [assumption|reflexivity].

Lemma torn_down_disconnect : keeps torn_down disconnect.
Proof. intros w _. apply torn_down_disconnect_any. Qed.

Lemma torn_down_page_cleanup : keeps torn_down page_cleanup.
Proof. unfold page_cleanup. unfold_prims. repeat first [keeps_step | torn_down_leaf]. Qed.

Lemma one_connection_initial : one_connection initial.
Proof. intros i sock H. destruct i; discriminate. Qed.

Lemma one_connection_step (w : World) (e : Event) :
  one_connection w -> one_connection (step w e).
Proof.
  apply step_keeps.
  - intros w0 l H. exact H.
  - apply one_connection_handle.
  - intros dt w0. apply tick_keeps; try (intros; assumption).
    apply one_connection_fire.
Qed.

(** With no current socket, and every live socket the current one, no socket
    is live. *)
Lemma no_connection_intro (w : World) :
  one_connection w -> torn_down w -> no_connection w.
Proof.
  intros Hone [Hws Hc]. split; [exact Hws|]. split; [exact Hc|].
  intros i sock Hi. destruct (live sock) eqn:Hl; [|reflexivity].
  specialize (Hone i sock Hi Hl). congruence.
Qed.

Lemma rerender_runs (change : World -> World) (w : World) :
  rerender change w =
    let w1 := change w in
    if mounted w1
       && negb (bool_decide (conversationId_of (selectedConversation w)
                             = conversationId_of (selectedConversation w1))
                && bool_decide (accessToken w = accessToken w1))
    then (cleanup;; effect (conversationId_of (selectedConversation w1)) (accessToken w1)) w1
    else Returns tt w1.
Proof.
  unfold rerender. unfold_m. simpl.
  destruct (mounted (change w) && _); reflexivity.
Qed.

Lemma unmount_world (w : World) :
  mounted w = true ->
  step w Unmount
  = set_mounted false
      (world_of (page_cleanup (world_of (disconnect (world_of (disconnect w)))))).
Proof.
  intros Hm. unfold step, run_task, handle, guarded, cleanup. rewrite Hm.
  unfold mbind, M_bind.
  rewrite (returns_world_of disconnect w) by nt_solve.
  rewrite (returns_world_of disconnect (world_of (disconnect w))) by nt_solve.
  rewrite (returns_world_of page_cleanup) by nt_solve.
  reflexivity.
Qed.

(** X8. In every reachable world where the page is mounted, unmounting
    leaves the hook with no current socket, reporting itself disconnected,
    and with no socket connecting or open: every socket is closing or
    closed. *)
Theorem unmount_leaves_no_connection (es : list Event) :
  let w := run es initial in
  mounted w = true ->
  let w' := step w Unmount in
  mounted w' = false /\ no_connection w'.
Proof.
  intros w Hm w'.
  assert (Hone : one_connection w').
  { apply one_connection_step, one_connection_run, one_connection_initial. }
  unfold w' in *. rewrite (unmount_world w Hm) in *.
  split; [reflexivity|].
  apply no_connection_intro; [exact Hone|].
  apply (torn_down_page_cleanup _
           (torn_down_disconnect _ (torn_down_disconnect_any w))).
Qed.

Lemma unmount_leaves_no_connection_witness :
  mounted (step (run opening42 initial) Unmount) = false
  /\ no_connection (step (run opening42 initial) Unmount).
Proof. apply (unmount_leaves_no_connection opening42). reflexivity. Defined.

Lemma teardown_twice (w : World) :
  exists w2, (cleanup;; disconnect) w = Returns tt w2 /\ torn_down w2.
Proof.
  exists (world_of (disconnect (world_of (disconnect w)))). split.
  - unfold cleanup, mbind, M_bind.
    rewrite (returns_world_of disconnect w) by nt_solve.
    apply returns_world_of. nt_solve.
  - apply torn_down_disconnect_any.
Qed.

(** X9. In every reachable world where the page is mounted, a change to a
    falsy access token ([null] or the empty string), or the selection of a
    conversation whose id is 0 after one with an id, makes the effect
    disconnect instead of connect: afterwards the hook holds no socket,
    reports itself disconnected, and no socket is connecting or open. *)
Theorem no_session_no_connection (es : list Event) :
  let w := run es initial in
  mounted w = true ->
  (forall tok,
      truthy_string tok = false -> accessToken w <> tok ->
      no_connection (step w (SetAccessToken tok)))
  /\ (forall c,
        conv_id c = 0 -> conversationId_of (selectedConversation w) <> None ->
        no_connection (step w (SelectConversation c))).
Proof.
  intros w Hm. split.
  - intros tok Htok Hchg.
    apply no_connection_intro.
    { apply one_connection_step, one_connection_run, one_connection_initial. }
    unfold step, run_task, handle. rewrite rerender_runs. cbv zeta.
    change (mounted (set_accessToken tok w)) with (mounted w).
    change (accessToken (set_accessToken tok w)) with tok.
    change (selectedConversation (set_accessToken tok w)) with (selectedConversation w).
    rewrite Hm, (bool_decide_eq_false_2 _ Hchg), andb_false_r. simpl.
    unfold effect. rewrite Htok, andb_false_r.
    destruct (teardown_twice (set_accessToken tok w)) as (w2 & -> & H2). exact H2.
  - intros c Hc Hsel.
    apply no_connection_intro.
    { apply one_connection_step, one_connection_run, one_connection_initial. }
    unfold step, run_task, handle, guarded. rewrite Hm, rerender_runs. cbv zeta.
    change (mounted (set_selectedConversation (Some c) w)) with (mounted w).
    change (accessToken (set_selectedConversation (Some c) w)) with (accessToken w).
    change (selectedConversation (set_selectedConversation (Some c) w)) with (Some c).
    assert (Hnew : conversationId_of (Some c) = None).
    { unfold conversationId_of. rewrite Hc. reflexivity. }
    rewrite Hnew, Hm, (bool_decide_eq_false_2 _ Hsel). simpl.
    unfold effect. simpl.
    destruct (teardown_twice (set_selectedConversation (Some c) w)) as (w2 & -> & H2).
    exact H2.
Qed.

Lemma no_session_no_connection_witness :
  no_connection (step (run opening42 initial) (SetAccessToken None))
  /\ no_connection (step (run opening42 initial) (SelectConversation chat0)).
Proof.
  split.
  - apply (proj1 (no_session_no_connection opening42 eq_refl) None eq_refl).
    discriminate.
  - apply (proj2 (no_session_no_connection opening42 eq_refl) chat0 eq_refl).
    discriminate.
Defined.

(** *** Switching the conversation or the token (the effect of useWebSocket) *)

Lemma select_runs (w : World) (c : IConversation) :
  mounted w = true ->
  handle (SelectConversation c) w =
    let w1 := set_selectedConversation (Some c) w in
    if bool_decide (conversationId_of (selectedConversation w) = conversationId_of (Some c))
    then Returns tt w1
    else (cleanup;; effect (conversationId_of (Some c)) (accessToken w)) w1.
Proof.
  intros Hm. unfold handle, guarded. rewrite Hm, rerender_runs. cbv zeta.
  change (mounted (set_selectedConversation (Some c) w)) with (mounted w).
  change (accessToken (set_selectedConversation (Some c) w)) with (accessToken w).
  change (selectedConversation (set_selectedConversation (Some c) w)) with (Some c).
  rewrite Hm. rewrite (bool_decide_eq_true_2 (accessToken w = accessToken w)) by reflexivity.
  rewrite andb_true_r. simpl.
  destruct (bool_decide _); reflexivity.
Qed.

Lemma close_current_cancel (code : option Z) (w : World) :
  sockets (close_current code (cancel_reconnect w)) = sockets (close_current code w).
Proof.
  unfold close_current, cancel_reconnect.
  destruct (reconnectTimeoutRef w); [|reflexivity]. simpl.
  destruct (wsRef w); [|reflexivity].
  destruct (sockets w !! _); reflexivity.
Qed.

Lemma disconnect_sockets (w : World) :
  sockets (world_of (disconnect w)) = sockets (close_current (Some 1000) w).
Proof.
  rewrite disconnect_runs. simpl. destruct (wsRef w) eqn:Hws; simpl.
  - apply close_current_cancel.
  - unfold close_current, cancel_reconnect. rewrite Hws.
    destruct (reconnectTimeoutRef w); reflexivity.
Qed.

Lemma disconnect_selected (sel : option IConversation) :
  keeps (fun w => selectedConversation w = sel) disconnect.
Proof.
  unfold disconnect. unfold_prims. repeat keeps_step;
    apply keeps_write; intros ? ?; repeat case_match; simpl; assumption.
Qed.

Lemma disconnect_token (tok : option jsstring) :
  keeps (fun w => accessToken w = tok) disconnect.
Proof.
  unfold disconnect. unfold_prims. repeat keeps_step;
    apply keeps_write; intros ? ?; repeat case_match; simpl; assumption.
Qed.

Lemma connect_fresh (cid : Z) (tok : jsstring) (w : World) :
  wsRef w = None -> cid <> 0 -> tok <> [] -> has_fragment tok = false ->
  connect (Some cid) (Some tok) w =
    Returns tt
      (set_wsRef (Some (length (sockets w)))
         (set_sockets (sockets w ++ [fresh_socket cid tok]) w)).
Proof.
  intros Hws Hcid Htok Hurl. rewrite (connect_opens cid tok w Hcid Htok Hurl). cbv zeta.
  unfold close_current. rewrite Hws. reflexivity.
Qed.

Lemma connect_fresh_rejected (cid : Z) (tok : jsstring) (w : World) :
  wsRef w = None -> cid <> 0 -> tok <> [] -> has_fragment tok = true ->
  connect (Some cid) (Some tok) w =
    Returns tt
      (set_connectionError (Some (js "Failed to connect"))
         (set_console (console w ++ [LogCreateError SyntaxError]) w)).
Proof.
  intros Hws Hcid Htok Hurl. rewrite (connect_rejected cid tok w Hcid Htok Hurl). cbv zeta.
  unfold close_current. rewrite Hws. reflexivity.
Qed.

Lemma effect_connects (cid : Z) (tok : jsstring) :
  cid <> 0 -> tok <> [] ->
  truthy_number (Some cid) && truthy_string (Some tok) = true.
Proof.
  intros Hid Hne. simpl. apply Z.eqb_neq in Hid. rewrite Hid.
  destruct tok; [congruence|reflexivity].
Qed.

Lemma disconnect_closes (w : World) (s : nat) (sock : WebSocket) :
  wsRef w = Some s -> sockets w !! s = Some sock -> live sock = true ->
  sockets (world_of (disconnect w)) !! s
  = Some (set_readyState CLOSING (set_close_request (Some 1000) sock)).
Proof.
  intros Hs Hk Hlive. rewrite disconnect_sockets. unfold close_current. rewrite Hs, Hk.
  simpl. rewrite list_lookup_insert_eq by (eapply lookup_lt_Some; exact Hk).
  unfold live in Hlive. destruct (readyState sock); try discriminate; reflexivity.
Qed.

Lemma disconnect_length (w : World) :
  length (sockets (world_of (disconnect w))) = length (sockets w).
Proof. rewrite disconnect_sockets. apply (close_current_length (Some 1000) w). Qed.

(** The cleanup of the previous effect followed by the effect for
    [(cid, tok)], when the constructor accepts the URL. *)
Lemma cleanup_effect_reconnects (cid : Z) (tok : jsstring) (w : World) :
  cid <> 0 -> tok <> [] -> has_fragment tok = false ->
  exists w',
    (cleanup;; effect (Some cid) (Some tok)) w = Returns tt w'
    /\ reconnected cid tok w w'.
Proof.
  intros Hid Hne Hurl.
  set (w1 := world_of (disconnect w)).
  exists (set_wsRef (Some (length (sockets w1)))
            (set_sockets (sockets w1 ++ [fresh_socket cid tok]) w1)).
  destruct (torn_down_disconnect_any w) as [Hws1 Hc1]. fold w1 in Hws1, Hc1.
  split.
  - unfold effect. rewrite (effect_connects cid tok Hid Hne).
    unfold cleanup, mbind, M_bind.
    assert (Hd : disconnect w = Returns tt w1)
      by (unfold w1; rewrite disconnect_runs; reflexivity).
    rewrite Hd, (connect_fresh _ _ _ Hws1 Hid Hne Hurl). reflexivity.
  - assert (Hlen : length (sockets w1) = length (sockets w)) by apply disconnect_length.
    split; simpl; rewrite ?Hlen.
    + reflexivity.
    + apply list_lookup_middle. symmetry. exact Hlen.
    + rewrite length_app, Hlen. simpl. lia.
    + exact Hc1.
    + intros s sock Hs Hk Hlive.
      rewrite lookup_app_l by (rewrite Hlen; eapply lookup_lt_Some; exact Hk).
      apply disconnect_closes; assumption.
    + apply (disconnect_selected (selectedConversation w) w eq_refl).
    + apply (disconnect_token (accessToken w) w eq_refl).
Qed.

(** The same when the constructor throws. *)
Lemma cleanup_effect_rejected (cid : Z) (tok : jsstring) (w : World) :
  cid <> 0 -> tok <> [] -> has_fragment tok = true ->
  exists w',
    (cleanup;; effect (Some cid) (Some tok)) w = Returns tt w'
    /\ not_reconnected w w'.
Proof.
  intros Hid Hne Hurl.
  set (w1 := world_of (disconnect w)).
  exists (set_connectionError (Some (js "Failed to connect"))
            (set_console (console w1 ++ [LogCreateError SyntaxError]) w1)).
  destruct (torn_down_disconnect_any w) as [Hws1 Hc1]. fold w1 in Hws1, Hc1.
  split.
  - unfold effect. rewrite (effect_connects cid tok Hid Hne).
    unfold cleanup, mbind, M_bind.
    assert (Hd : disconnect w = Returns tt w1)
      by (unfold w1; rewrite disconnect_runs; reflexivity).
    rewrite Hd, (connect_fresh_rejected _ _ _ Hws1 Hid Hne Hurl). reflexivity.
  - split; simpl.
    + exact Hws1.
    + apply disconnect_length.
    + exact Hc1.
    + reflexivity.
    + intros s sock Hs Hk Hlive. apply disconnect_closes; assumption.
    + apply (disconnect_selected (selectedConversation w) w eq_refl).
    + apply (disconnect_token (accessToken w) w eq_refl).
Qed.

(** X10. While the page is mounted, selecting a conversation with the id of
    the one already selected only replaces the selection: the connection
    and everything else stay as they are.  Selecting one with another,
    non-zero id while an access token is present closes the current socket
    with code 1000 if it is connecting or open.  When the constructor
    accepts the URL for the new conversation id and the current token, one
    new socket, in state CONNECTING, becomes the current socket and the
    hook reports itself disconnected until that socket opens.  When the
    constructor throws (the token contains ["#"]), no socket is created:
    the hook holds none, reports itself disconnected and sets the error
    "Failed to connect". *)
Theorem select_conversation_connects (w : World) (c : IConversation) :
  mounted w = true ->
  let w' := step w (SelectConversation c) in
  (conversationId_of (selectedConversation w) = conversationId_of (Some c) ->
   w' = set_selectedConversation (Some c) w)
  /\ (forall tok,
        conversationId_of (selectedConversation w) <> conversationId_of (Some c) ->
        conv_id c <> 0 -> accessToken w = Some tok -> tok <> [] ->
        selectedConversation w' = Some c
        /\ isConnected w' = false
        /\ (forall s sock,
              wsRef w = Some s -> sockets w !! s = Some sock -> live sock = true ->
              sockets w' !! s
              = Some (set_readyState CLOSING (set_close_request (Some 1000) sock)))
        /\ (has_fragment tok = false ->
            wsRef w' = Some (length (sockets w))
            /\ sockets w' !! length (sockets w) = Some (fresh_socket (conv_id c) tok)
            /\ length (sockets w') = S (length (sockets w)))
        /\ (has_fragment tok = true ->
            wsRef w' = None
            /\ length (sockets w') = length (sockets w)
            /\ connectionError w' = Some (js "Failed to connect"))).
Proof.
  intros Hm w'. split.
  - intros Hsame. unfold w', step, run_task. rewrite (select_runs w c Hm). cbv zeta.
    rewrite (bool_decide_eq_true_2 _ Hsame). reflexivity.
  - intros tok Hchg Hid Htok Hne.
    assert (Hw' : forall w2,
               (cleanup;; effect (Some (conv_id c)) (Some tok))
                 (set_selectedConversation (Some c) w) = Returns tt w2 -> w' = w2).
    { intros w2 Hrun. unfold w', step, run_task. rewrite (select_runs w c Hm). cbv zeta.
      rewrite (bool_decide_eq_false_2 _ Hchg).
      assert (Hcid : conversationId_of (Some c) = Some (conv_id c)).
      { unfold conversationId_of. apply Z.eqb_neq in Hid. rewrite Hid. reflexivity. }
      rewrite Hcid, Htok, Hrun. reflexivity. }
    destruct (has_fragment tok) eqn:Hurl.
    + destruct (cleanup_effect_rejected (conv_id c) tok
                  (set_selectedConversation (Some c) w) Hid Hne Hurl) as (w2 & Hrun & Hre).
      rewrite (Hw' w2 Hrun). destruct Hre as [H1 H2 H3 H4 H5 H6 H7].
      split; [exact H6|]. split; [exact H3|]. split; [exact H5|].
      split; [discriminate|]. intros _. split; [exact H1|]. split; [exact H2|exact H4].
    + destruct (cleanup_effect_reconnects (conv_id c) tok
                  (set_selectedConversation (Some c) w) Hid Hne Hurl) as (w2 & Hrun & Hre).
      rewrite (Hw' w2 Hrun). destruct Hre as [H1 H2 H3 H4 H5 H6 H7].
      split; [exact H6|]. split; [exact H4|]. split; [exact H5|].
      split; [|discriminate]. intros _. split; [exact H1|]. split; [exact H2|exact H3].
Qed.

Lemma select_conversation_connects_witness :
  step opened42 (SelectConversation chat42) = set_selectedConversation (Some chat42) opened42
  /\ wsRef (step opened42 (SelectConversation chat43)) = Some 1%nat
  /\ sockets (step opened42 (SelectConversation chat43)) !! 1%nat
     = Some (fresh_socket 43 (js "T"))
  /\ wsRef (step rejected42 (SelectConversation chat43)) = None
  /\ connectionError (step rejected42 (SelectConversation chat43))
     = Some (js "Failed to connect").
Proof.
  split; [|split; [|split]].
  - apply (proj1 (select_conversation_connects opened42 chat42 eq_refl) eq_refl).
  - pose proof (proj2 (select_conversation_connects opened42 chat43 eq_refl) (js "T")
                  ltac:(discriminate) ltac:(discriminate) eq_refl ltac:(discriminate))
      as (_ & _ & _ & Hopen & _).
    exact (proj1 (Hopen eq_refl)).
  - pose proof (proj2 (select_conversation_connects opened42 chat43 eq_refl) (js "T")
                  ltac:(discriminate) ltac:(discriminate) eq_refl ltac:(discriminate))
      as (_ & _ & _ & Hopen & _).
    exact (proj1 (proj2 (Hopen eq_refl))).
  - pose proof (proj2 (select_conversation_connects rejected42 chat43 eq_refl) (js "T#x")
                  ltac:(discriminate) ltac:(discriminate) eq_refl ltac:(discriminate))
      as (_ & _ & _ & _ & Hthrows).
    destruct (Hthrows eq_refl) as (Hws & _ & Herr).
    split; [exact Hws|exact Herr].
Defined.

(** X11. While the page is mounted with a conversation selected, a change of
    the access token to another non-empty token closes the current socket
    with code 1000 if it is connecting or open.  When the constructor
    accepts the URL for the same conversation and the new token, one new
    socket, in state CONNECTING, becomes the current socket.  When the
    constructor throws (the new token contains ["#"]), no socket is
    created: the hook holds none, reports itself disconnected and sets the
    error "Failed to connect". *)
Theorem token_change_reconnects (w : World) (tok : jsstring) (cid : Z) :
  mounted w = true ->
  conversationId_of (selectedConversation w) = Some cid ->
  accessToken w <> Some tok -> tok <> [] ->
  let w' := step w (SetAccessToken (Some tok)) in
  accessToken w' = Some tok
  /\ isConnected w' = false
  /\ (forall s sock,
        wsRef w = Some s -> sockets w !! s = Some sock -> live sock = true ->
        sockets w' !! s
        = Some (set_readyState CLOSING (set_close_request (Some 1000) sock)))
  /\ (has_fragment tok = false ->
      wsRef w' = Some (length (sockets w))
      /\ sockets w' !! length (sockets w) = Some (fresh_socket cid tok)
      /\ length (sockets w') = S (length (sockets w)))
  /\ (has_fragment tok = true ->
      wsRef w' = None
      /\ length (sockets w') = length (sockets w)
      /\ connectionError w' = Some (js "Failed to connect")).
Proof.
  intros Hm Hsel Hchg Hne w'.
  assert (Hid : cid <> 0).
  { unfold conversationId_of in Hsel.
    destruct (selectedConversation w) as [c|]; [|discriminate].
    destruct (Z.eqb_spec (conv_id c) 0); [discriminate|congruence]. }
  assert (Hw' : forall w2,
             (cleanup;; effect (Some cid) (Some tok)) (set_accessToken (Some tok) w)
             = Returns tt w2 -> w' = w2).
  { intros w2 Hrun. unfold w', step, run_task, handle. rewrite rerender_runs. cbv zeta.
    change (mounted (set_accessToken (Some tok) w)) with (mounted w).
    change (accessToken (set_accessToken (Some tok) w)) with (Some tok).
    change (selectedConversation (set_accessToken (Some tok) w))
      with (selectedConversation w).
    rewrite Hm, (bool_decide_eq_false_2 _ Hchg), andb_false_r, Hsel. simpl.
    rewrite Hrun. reflexivity. }
  destruct (has_fragment tok) eqn:Hurl.
  - destruct (cleanup_effect_rejected cid tok (set_accessToken (Some tok) w) Hid Hne Hurl)
      as (w2 & Hrun & Hre).
    rewrite (Hw' w2 Hrun). destruct Hre as [H1 H2 H3 H4 H5 H6 H7].
    split; [exact H7|]. split; [exact H3|]. split; [exact H5|].
    split; [discriminate|]. intros _. split; [exact H1|]. split; [exact H2|exact H4].
  - destruct (cleanup_effect_reconnects cid tok (set_accessToken (Some tok) w) Hid Hne Hurl)
      as (w2 & Hrun & Hre).
    rewrite (Hw' w2 Hrun). destruct Hre as [H1 H2 H3 H4 H5 H6 H7].
    split; [exact H7|]. split; [exact H4|]. split; [exact H5|].
    split; [|discriminate]. intros _. split; [exact H1|]. split; [exact H2|exact H3].
Qed.

Lemma token_change_reconnects_witness :
  accessToken (step opened42 (SetAccessToken (Some (js "T2")))) = Some (js "T2")
  /\ sockets (step opened42 (SetAccessToken (Some (js "T2")))) !! 1%nat
     = Some (fresh_socket 42 (js "T2"))
  /\ wsRef (step opened42 (SetAccessToken (Some (js "T#x")))) = None
  /\ connectionError (step opened42 (SetAccessToken (Some (js "T#x"))))
     = Some (js "Failed to connect").
Proof.
  pose proof (token_change_reconnects opened42 (js "T2") 42 eq_refl eq_refl
                ltac:(discriminate) ltac:(discriminate))
    as (Htok & _ & _ & Hopen & _).
  pose proof (token_change_reconnects opened42 (js "T#x") 42 eq_refl eq_refl
                ltac:(discriminate) ltac:(discriminate))
    as (_ & _ & _ & _ & Hthrows).
  destruct (Hopen eq_refl) as (_ & Hsock & _).
  destruct (Hthrows eq_refl) as (Hws & _ & Herr).
  split; [exact Htok|]. split; [exact Hsock|]. split; [exact Hws|exact Herr].
Defined.

(** *** Typing timers after unmount (the cleanup effect of ChatsPage) *)

Lemma tracked_cancelled (w : World) (q : list Timer) :
  Forall (tracked_by w) q ->
  Forall (fun tm => is_typing_timer tm = false)
    (cancel (typingDebounceRef w) (cancel (typingTimeoutRef w) q)).
Proof.
  intros Hq. apply Forall_forall. intros tm Hin. apply list_elem_of_In in Hin.
  assert (Hq' : forall x, x ∈ q -> tracked_by w x).
  { intros x Hx. rewrite Forall_forall in Hq. apply Hq, list_elem_of_In, Hx. }
  unfold cancel in Hin.
  destruct (is_typing_timer tm) eqn:Ety; [exfalso|reflexivity].
  unfold is_typing_timer in Ety.
  destruct (typingDebounceRef w) as [d|] eqn:Hd;
    destruct (typingTimeoutRef w) as [t|] eqn:Ht;
    repeat (apply list_elem_of_filter in Hin as [? Hin]);
    specialize (Hq' tm Hin); unfold tracked_by in Hq';
    destruct (callback tm) as [|? ? []]; try discriminate; congruence.
Qed.

Lemma typing_refs_disconnect d t l Q : keeps (typing_refs d t l Q) disconnect.
Proof.
  unfold disconnect. unfold_prims. repeat keeps_step;
    apply keeps_write; intros ? (? & ? & ? & ?); unfold typing_refs;
    repeat case_match; simpl; repeat split; try assumption;
    apply Forall_filter_keep; assumption.
Qed.

Lemma page_cleanup_timers (w : World) :
  timers (world_of (page_cleanup w))
  = cancel (typingDebounceRef w) (cancel (typingTimeoutRef w) (timers w)).
Proof.
  unfold page_cleanup. unfold_m.
  destruct (typingTimeoutRef w) eqn:Ht; simpl;
    destruct (typingDebounceRef w) eqn:Hd; simpl; rewrite ?Hd; reflexivity.
Qed.

Lemma page_cleanup_calls (l : list TypingCall) :
  keeps (fun w => typing_calls w = l) page_cleanup.
Proof.
  unfold page_cleanup. unfold_prims. repeat keeps_step;
    apply keeps_write; intros ? ?; repeat case_match; simpl; assumption.
Qed.

(** Unmounting cancels every pending typing timer. *)
Lemma unmount_silent (w : World) :
  queue_ok w -> mounted w = true -> silent (typing_calls w) (step w Unmount).
Proof.
  intros Hok Hm. rewrite (unmount_world w Hm).
  set (w1 := world_of (disconnect w)).
  set (w2 := world_of (disconnect w1)).
  assert (H2 : typing_refs (typingDebounceRef w) (typingTimeoutRef w) (typing_calls w)
                 (tracked_by w) w2).
  { apply typing_refs_disconnect, typing_refs_disconnect.
    repeat split. exact (q_tracked _ Hok). }
  destruct H2 as (Hd & Ht & Hl & Hq).
  split; [reflexivity|]. split.
  - unfold no_typing_timer. simpl. rewrite page_cleanup_timers, Hd, Ht.
    apply tracked_cancelled, Hq.
  - simpl. apply (page_cleanup_calls (typing_calls w) w2 Hl).
Qed.

Lemma emission_none (q : list Timer) :
  Forall (fun tm => is_typing_timer tm = false) q -> flat_map emission q = [].
Proof.
  induction 1 as [|tm q Htm _ IH]; [reflexivity|]. simpl. rewrite IH, app_nil_r.
  unfold emission, is_typing_timer in *. destruct (callback tm); [reflexivity|discriminate].
Qed.

Ltac silent_leaf :=
  apply keeps_write; intros ? (? & ? & ?); unfold silent, no_typing_timer in *;
  repeat case_match; simpl; repeat split;
  first [ assumption | apply Forall_enqueue; [reflexivity|assumption] ].

Lemma silent_socket_event (l : list TypingCall) (e : Event) :
  match e with
  | SocketOpen _ | SocketMessage _ _ | SocketError _ | SocketClose _ _ | SetUser _
  | SystemClock _ => True
  | _ => False
  end ->
  keeps (silent l) (handle e).
Proof.
  destruct e; intros [];
    unfold handle, deliver_open, deliver_message, deliver_error, deliver_close,
      onopen, onclose, onerror, onmessage, JSON_parse, get;
    unfold_prims; repeat first [ keeps_step | silent_leaf ].
Qed.

Lemma silent_tick (l : list TypingCall) (dt : Z) (w : World) :
  queue_ok w -> silent l w -> silent l (tick dt w).
Proof.
  intros Hok (Hm & Hq & Hl).
  destruct (tick_spec dt w (q_sorted _ Hok) (q_future _ Hok)) as (Hc & Ht & Hp & _).
  destruct Hp as (_ & _ & _ & _ & _ & Hm').
  split; [congruence|]. split.
  - unfold no_typing_timer. rewrite Ht. apply Forall_filter_keep, Hq.
  - rewrite Hc, emission_none, app_nil_r; [exact Hl|].
    apply Forall_filter_keep, Hq.
Qed.

Lemma silent_unmounted (l : list TypingCall) (m : M unit) (w : World) :
  silent l w -> silent l (run_task (guarded mounted m) w).
Proof.
  intros Hs. unfold run_task, guarded. destruct Hs as (Hm & Hrest). rewrite Hm.
  split; assumption.
Qed.

Lemma silent_step (l : list TypingCall) (w : World) (e : Event) :
  queue_ok w -> e <> Mount -> silent l w -> silent l (step w e).
Proof.
  intros Hok He Hs.
  assert (Hcons : forall w0 log, silent l w0 -> silent l (set_console log w0)).
  { intros w0 log H. exact H. }
  destruct e; try congruence;
    try (apply (run_task_keeps (silent l) Hcons);
         [apply silent_socket_event; exact I|exact Hs]);
    try (apply silent_unmounted; exact Hs).
  - unfold step, run_task, handle. rewrite rerender_runs. cbv zeta.
    change (mounted (set_accessToken tok w)) with (mounted w).
    destruct Hs as (Hm & ?). rewrite Hm. simpl. split; assumption.
  - apply silent_tick; assumption.
Qed.

Lemma queue_ok_step (w : World) (e : Event) : queue_ok w -> queue_ok (step w e).
Proof. intros H. apply (queue_ok_run [e] w H). Qed.

Lemma silent_run (l : list TypingCall) (es : list Event) :
  Forall (fun e => e <> Mount) es ->
  forall w, queue_ok w -> silent l w -> silent l (run es w).
Proof.
  induction 1 as [|e es He _ IH]; intros w Hok Hs; [exact Hs|]. simpl.
  apply IH; [apply queue_ok_step, Hok|apply silent_step; assumption].
Qed.

(** X12. In every reachable world where the page is mounted, unmounting
    cancels both typing timers: from then on, whatever happens short of a
    new mount (time passing, socket events, stray input), no typing timer
    is pending and [sendTyping] is never called again. *)
Theorem unmount_silences_typing (es later : list Event) :
  let w := run es initial in
  mounted w = true ->
  Forall (fun e => e <> Mount) later ->
  let w' := run (Unmount :: later) w in
  typing_calls w' = typing_calls w
  /\ Forall (fun tm => is_typing_timer tm = false) (timers w').
Proof.
  intros w Hm Hlater w'.
  assert (Hok : queue_ok w) by apply queue_ok_run, queue_ok_initial.
  assert (Hs : silent (typing_calls w) w').
  { unfold w'. change (run (Unmount :: later) w) with (run later (step w Unmount)).
    apply silent_run; [exact Hlater|apply queue_ok_step, Hok|].
    apply unmount_silent; assumption. }
  destruct Hs as (_ & Hq & Hl). split; assumption.
Qed.

Lemma unmount_silences_typing_witness :
  let w := run (opening42 ++ [Input (js "h")]) initial in
  let w' := run (Unmount :: [Tick 5000; SocketClose 0%nat 1006; Input (js "x"); Tick 5000])
              w in
  typing_calls w' = typing_calls w
  /\ Forall (fun tm => is_typing_timer tm = false) (timers w').
Proof.
  apply (unmount_silences_typing (opening42 ++ [Input (js "h")])
           [Tick 5000; SocketClose 0%nat 1006; Input (js "x"); Tick 5000]).
  - reflexivity.
  - repeat constructor; discriminate.
Defined.

(** *** Typing timers never pile up (ChatsPage.handleTypingStart) *)

Lemma filter_enqueue_other (P : Timer -> Prop) `{forall x, Decision (P x)}
    (t : Timer) (q : list Timer) :
  ~ P t -> filter P (enqueue t q) = filter P q.
Proof.
  intros Ht. induction q as [|x q IH]; simpl.
  - rewrite filter_cons_False by exact Ht. reflexivity.
  - destruct (due x <=? due t).
    + rewrite !filter_cons, IH. reflexivity.
    + rewrite filter_cons_False by exact Ht. reflexivity.
Qed.

Lemma filter_filter_length {A} (P Q : A -> Prop) `{forall x, Decision (P x)}
    `{forall x, Decision (Q x)} (l : list A) :
  (length (filter P (filter Q l)) <= length (filter P l))%nat.
Proof.
  induction l as [|x l IH]; [reflexivity|].
  rewrite (filter_cons Q). destruct (decide (Q x)).
  - rewrite !filter_cons. destruct (decide (P x)); simpl; lia.
  - rewrite filter_cons. destruct (decide (P x)); simpl; lia.
Qed.

Lemma at_most_one_clearTimeout (id : positive) : keeps at_most_one_each (clearTimeout id).
Proof.
  unfold clearTimeout. apply keeps_write. intros w [H1 H2].
  unfold at_most_one_each, pending_typing in *. simpl. split.
  - etransitivity; [apply filter_filter_length|exact H1].
  - etransitivity; [apply filter_filter_length|exact H2].
Qed.

Lemma at_most_one_retry (cid : option Z) (tok : option jsstring) (delay : Z) :
  keeps at_most_one_each (setTimeout (ReconnectCb cid tok) delay).
Proof.
  intros w [H1 H2]. unfold setTimeout. unfold_m. simpl.
  unfold at_most_one_each, pending_typing in *. simpl.
  rewrite !filter_enqueue_other by (simpl; intros []). split; assumption.
Qed.

Ltac at_most_one_leaf :=
  apply keeps_write; intros ? [? ?]; unfold at_most_one_each, pending_typing in *;
  repeat case_match; simpl; split; assumption.

Ltac at_most_one_frame :=
  repeat first
    [ apply at_most_one_clearTimeout
    | apply at_most_one_retry
    | keeps_step ];
  unfold ws_readyState, ws_send, ws_close, update_socket, console_log,
    setIsConnected, setConnectionError, setNewMessage, setError, setIsTyping,
    call_ui, Date_now, new_WebSocket in *;
  repeat first [ keeps_step | at_most_one_leaf ].

Lemma at_most_one_fire cb : keeps at_most_one_each (fire cb).
Proof.
  destruct cb; unfold fire, connect, typing_timer, sendTyping; at_most_one_frame.
Qed.

Lemma at_most_one_handle e :
  (forall text, e <> Input text) -> keeps at_most_one_each (handle e).
Proof.
  intros He.
  destruct e; try (specialize (He text); congruence);
    unfold handle, rerender, effect, cleanup, connect, disconnect,
    page_cleanup, handleSendMessage, sendMessage, deliver_open, deliver_message,
    deliver_error, deliver_close, onopen, onclose, onerror, onmessage, JSON_parse, get;
    at_most_one_frame.
Qed.

Lemma filter_typing_with (flag : bool) (q : list Timer) :
  filter (typing_timer_with flag) q
  = filter (typing_timer_with flag) (filter is_typing_timer q).
Proof.
  induction q as [|x q IH]; [reflexivity|].
  rewrite (filter_cons is_typing_timer).
  destruct (is_typing_timer x) eqn:Ex; simpl.
  - rewrite !filter_cons, IH. reflexivity.
  - rewrite filter_cons_False; [exact IH|].
    unfold typing_timer_with, is_typing_timer in *.
    destruct (callback x); [intros []|discriminate].
Qed.

(** An input signal leaves exactly the two timers it has just scheduled. *)
Lemma at_most_one_input (text : jsstring) (w : World) :
  queue_ok w -> at_most_one_each w -> at_most_one_each (step w (Input text)).
Proof.
  intros Hok Hw.
  destruct (mounted w) eqn:Hm.
  - destruct (selectedConversation w) as [conv|] eqn:Hsel.
    + destruct (user w) as [u|] eqn:Hu.
      * destruct (input_arms conv u text w Hok Hm Hsel Hu) as (_ & Hq & _).
        unfold at_most_one_each, pending_typing.
        rewrite !(filter_typing_with _ (timers _)), Hq.
        split; vm_compute; lia.
      * rewrite (step_Input text w Hm). unfold run_task, handleTypingStart. unfold_m.
        simpl. rewrite Hsel, Hu. exact Hw.
    + rewrite (step_Input text w Hm). unfold run_task, handleTypingStart. unfold_m.
      simpl. rewrite Hsel. exact Hw.
  - unfold step, run_task, handle, guarded. rewrite Hm. exact Hw.
Qed.

Lemma at_most_one_step (w : World) (e : Event) :
  queue_ok w -> at_most_one_each w -> at_most_one_each (step w e).
Proof.
  intros Hok Hw.
  assert (Hcons : forall w0 log, at_most_one_each w0 -> at_most_one_each (set_console log w0)).
  { intros w0 log H. exact H. }
  destruct e;
    try (apply (run_task_keeps at_most_one_each Hcons);
         [apply at_most_one_handle; discriminate|exact Hw]).
  - apply at_most_one_input; assumption.
  - change (at_most_one_each (tick dt w)).
    apply (tick_keeps at_most_one_each); try assumption.
    + apply at_most_one_fire.
    + intros w0 t _ H. exact H.
    + intros w0 tm rest Hq [H1 H2]. unfold at_most_one_each, pending_typing in *.
      simpl. rewrite Hq in H1, H2. rewrite filter_cons in H1, H2.
      split; [destruct (decide _) in H1|destruct (decide _) in H2]; simpl in *; lia.
Qed.

(** X13. Typing timers never pile up: in every reachable world at most one
    debounce timer (the one that announces typing) and at most one stop
    timer (the one that withdraws it) are pending, however many input
    signals arrived and whatever else happened. *)
Theorem typing_timers_never_pile_up (es : list Event) :
  let w := run es initial in
  (length (pending_typing true w) <= 1)%nat /\ (length (pending_typing false w) <= 1)%nat.
Proof.
  assert (H : queue_ok (run es initial) /\ at_most_one_each (run es initial)).
  { assert (H0 : queue_ok initial /\ at_most_one_each initial).
    { split; [apply queue_ok_initial|split; simpl; lia]. }
    revert H0. generalize initial. induction es as [|e es IH]; intros w [Hok Hw]; [tauto|].
    simpl. apply IH. split; [apply queue_ok_step, Hok|apply at_most_one_step; assumption]. }
  exact (proj2 H).
Qed.

(** *** Outbound frames (ChatsPage.handleSendMessage, useWebSocket) *)

Lemma trimStart_split (s : jsstring) :
  exists p, s = p ++ trimStart s /\ forallb is_whitespace p = true.
Proof.
  induction s as [|c s (p & Hs & Hp)]; simpl.
  - exists []. split; reflexivity.
  - destruct (is_whitespace c) eqn:E.
    + exists (c :: p). simpl. rewrite E, Hp. split; [f_equal; exact Hs|reflexivity].
    + exists []. split; reflexivity.
Qed.

Lemma forallb_reverse {A} (f : A -> bool) (l : list A) :
  forallb f (rev l) = forallb f l.
Proof.
  induction l as [|x l IH]; [reflexivity|]. simpl.
  rewrite forallb_app, IH. simpl. rewrite andb_true_r. apply andb_comm.
Qed.

Lemma trimEnd_split (s : jsstring) :
  exists q, s = trimEnd s ++ q /\ forallb is_whitespace q = true.
Proof.
  destruct (trimStart_split (rev s)) as (p & Hs & Hp).
  exists (rev p). split.
  - unfold trimEnd. rewrite <- rev_app_distr, <- Hs, rev_involutive. reflexivity.
  - rewrite forallb_reverse. exact Hp.
Qed.

Lemma trimEnd_last (s front : jsstring) (c : N) :
  trimEnd s = front ++ [c] -> is_whitespace c = false.
Proof.
  unfold trimEnd. intros H. apply (f_equal (@rev N)) in H.
  rewrite rev_involutive, rev_app_distr in H. simpl in H.
  pose proof (trimStart_head (rev s)) as Hh. rewrite H in Hh. exact Hh.
Qed.

(** What [trim] returns: the text between the leading and the trailing white
    space, which starts and ends with a code unit that is not white space. *)
Lemma trim_spec (s : jsstring) :
  exists before after,
    s = before ++ trim s ++ after
    /\ forallb is_whitespace before = true /\ forallb is_whitespace after = true
    /\ (trim s <> [] -> trimmed (trim s)).
Proof.
  destruct (trimStart_split s) as (p & Hs & Hp).
  destruct (trimEnd_split (trimStart s)) as (q & Ht & Hq).
  exists p, q. fold (trim s) in Ht. split; [rewrite <- Ht; exact Hs|].
  split; [exact Hp|]. split; [exact Hq|].
  intros Hne. split.
  - destruct (trim s) as [|c rest] eqn:E; [congruence|].
    exists c, rest. split; [reflexivity|].
    pose proof (trimStart_head s) as Hh. rewrite Ht in Hh. exact Hh.
  - destruct (exists_last Hne) as (front & c & E).
    exists front, c. split; [exact E|].
    apply (trimEnd_last (trimStart s) front c). exact E.
Qed.

(** X14. Whenever [handleSendMessage] sends a frame, the text in it is the
    text of the input without its leading and trailing white space: the
    input is some white space, then the text, then some white space, and
    the text is not empty and starts and ends with a code unit that is not
    white space.  Otherwise no socket changes. *)
Theorem sent_text_is_trimmed (w : World) :
  let w' := world_of (handleSendMessage w) in
  sockets w' = sockets w
  \/ exists s sock u before text after,
       wsRef w = Some s /\ sockets w !! s = Some sock /\ user w = Some u
       /\ sockets w'
          = <[s := push_sent (chat_message_frame text (user_id u)) sock]> (sockets w)
       /\ newMessage w = before ++ text ++ after
       /\ forallb is_whitespace before = true /\ forallb is_whitespace after = true
       /\ (exists c rest, text = c :: rest /\ is_whitespace c = false)
       /\ (exists front c, text = front ++ [c] /\ is_whitespace c = false).
Proof.
  intros w'. unfold w', handleSendMessage. unfold_m. simpl.
  destruct (trim (newMessage w)) as [|c0 t0] eqn:Etrim; [left; reflexivity|].
  destruct (selectedConversation w) as [conv|]; [|left; reflexivity].
  destruct (wsRef w) as [s|] eqn:Hws.
  2:{ left. unfold sendMessage. unfold_m. rewrite Hws. reflexivity. }
  destruct (user w) as [u|] eqn:Hu.
  2:{ left. unfold sendMessage. unfold_m. rewrite Hws. reflexivity. }
  destruct (sockets w !! s) as [sock|] eqn:Hsock.
  2:{ left. rewrite sendMessage_closed; [reflexivity|].
      unfold connection_open, current_socket. rewrite Hws, Hsock. reflexivity. }
  destruct (decide (readyState sock = OPEN)) as [Hopen|Hno].
  2:{ left. rewrite sendMessage_closed; [reflexivity|].
      unfold connection_open, current_socket. rewrite Hws, Hsock.
      apply bool_decide_eq_false_2, Hno. }
  right. rewrite (sendMessage_open w _ s sock u Hws Hsock Hopen). simpl.
  destruct (trim_spec (newMessage w)) as (before & after & Hsplit & Hb & Ha & Hends).
  rewrite Etrim in *.
  exists s, sock, u, before, (c0 :: t0), after.
  repeat (split; [first [reflexivity|assumption]|]).
  apply Hends. discriminate.
Qed.

Lemma only_outbound_update (s : nat) (f : WebSocket -> WebSocket) :
  (forall sock, Forall outbound (sent sock) -> Forall outbound (sent (f sock))) ->
  keeps only_outbound (update_socket s f).
Proof.
  intros Hf. unfold update_socket. apply keeps_write. intros w H.
  destruct (sockets w !! s) as [sock|] eqn:Hs; [|exact H].
  unfold only_outbound in *. simpl. apply Forall_insert; [exact H|].
  apply Hf. eapply (Forall_lookup_1 _ _ _ _ H). exact Hs.
Qed.

Lemma only_outbound_send (s : nat) (f : json) :
  outbound f -> keeps only_outbound (ws_send s f).
Proof.
  intros Hf. unfold ws_send, ws_readyState. repeat keeps_step.
  apply only_outbound_update. intros sock H. simpl.
  apply Forall_app. split; [exact H|constructor; [exact Hf|constructor]].
Qed.

Ltac only_outbound_leaf :=
  first
    [ apply only_outbound_update; intros sock ?; simpl; repeat case_match; simpl; assumption
    | apply keeps_write; intros ? ?; unfold only_outbound in *; simpl in *;
      first [ assumption
            | apply Forall_app; split; [assumption|repeat constructor] ] ].

Ltac only_outbound_frame :=
  unfold ws_readyState, ws_close, console_log,
    setIsConnected, setConnectionError, setNewMessage, setError, setIsTyping,
    call_ui, Date_now, setTimeout, clearTimeout, new_WebSocket in *;
  repeat first [ keeps_step | only_outbound_leaf ].

Lemma only_outbound_sendTyping r flag : keeps only_outbound (sendTyping r flag).
Proof.
  unfold sendTyping.
  repeat first [ apply only_outbound_send; right; eauto | keeps_step ];
    only_outbound_frame.
Qed.

Lemma only_outbound_sendMessage usr text :
  trimmed text -> keeps only_outbound (sendMessage usr text).
Proof.
  intros Ht. unfold sendMessage.
  repeat first [ apply only_outbound_send; left; eauto | keeps_step ];
    only_outbound_frame.
Qed.

Lemma only_outbound_handleSendMessage : keeps only_outbound handleSendMessage.
Proof.
  unfold handleSendMessage.
  apply keeps_bind; [apply keeps_read|intros text].
  apply keeps_bind; [apply keeps_read|intros sel].
  apply keeps_bind; [apply keeps_read|intros usr].
  destruct (trim text) as [|c t] eqn:E; [apply keeps_ret|].
  destruct sel; [|apply keeps_ret].
  rewrite <- E.
  assert (Ht : trimmed (trim text)).
  { destruct (trim_spec text) as (_ & _ & _ & _ & _ & H). apply H. congruence. }
  repeat first [ apply only_outbound_sendMessage; exact Ht | keeps_step ];
    only_outbound_frame.
Qed.

Lemma only_outbound_fire cb : keeps only_outbound (fire cb).
Proof.
  destruct cb; unfold fire, connect, typing_timer;
    repeat first [ apply only_outbound_sendTyping | keeps_step ];
    only_outbound_frame.
Qed.

Lemma only_outbound_handle e : keeps only_outbound (handle e).
Proof.
  destruct e; unfold handle, rerender, effect, cleanup, connect, disconnect,
    page_cleanup, handleTypingStart, deliver_open, deliver_message,
    deliver_error, deliver_close, onopen, onclose, onerror, onmessage, JSON_parse, get;
    repeat first [ apply only_outbound_handleSendMessage | keeps_step ];
    only_outbound_frame.
Qed.

(** X15. Along every run, every frame handed to any socket is one of the two
    frames of the outbound protocol: a [chat_message] frame whose text
    starts and ends with a code unit that is not white space, or a [typing]
    frame.  Nothing else is ever sent. *)
Theorem only_protocol_frames_are_sent (es : list Event) :
  forall i sock f,
    sockets (run es initial) !! i = Some sock -> f ∈ sent sock ->
    (exists text uid,
        f = JObj [(js "type", JStr (js "chat_message")); (js "message", JStr text);
                  (js "user", JNum uid)]
        /\ trimmed text)
    \/ (exists receiver flag,
          f = JObj [(js "type", JStr (js "typing")); (js "receiver", JNum receiver);
                    (js "is_typing", JBool flag)]).
Proof.
  assert (H : only_outbound (run es initial)).
  { apply run_keeps.
    - intros w l Hw. exact Hw.
    - apply only_outbound_handle.
    - intros dt w. apply tick_keeps; try (intros; assumption).
      apply only_outbound_fire.
    - constructor. }
  intros i sock f Hi Hf.
  unfold only_outbound in H.
  pose proof (Forall_lookup_1 _ _ _ _ H Hi) as Hsock.
  rewrite Forall_forall in Hsock. apply Hsock, list_elem_of_In, Hf.
Qed.

Lemma only_protocol_frames_are_sent_witness :
  (exists text uid,
      chat_message_frame (js "hi") 7
      = JObj [(js "type", JStr (js "chat_message")); (js "message", JStr text);
              (js "user", JNum uid)]
      /\ trimmed text)
  \/ (exists receiver flag,
        chat_message_frame (js "hi") 7
        = JObj [(js "type", JStr (js "typing")); (js "receiver", JNum receiver);
                (js "is_typing", JBool flag)]).
Proof.
  apply (only_protocol_frames_are_sent (opening42 ++ [Input (js " hi "); Send]) 0%nat
           {| readyState := OPEN; url_conversation := 42; url_token := js "T";
              sent := [chat_message_frame (js "hi") 7]; close_request := None |}).
  - reflexivity.
  - apply list_elem_of_singleton. reflexivity.
Defined.

(** *** Typing users (ChatsPage.handleTyping) *)

Lemma last_flag_snoc (i : Z) (events : list (IUser * bool)) (ev : IUser * bool) :
  last_flag i (events ++ [ev])
  = if user_id (fst ev) =? i then Some (snd ev) else last_flag i events.
Proof.
  induction events as [|e events IH]; simpl; [reflexivity|].
  rewrite IH. destruct (user_id (fst ev) =? i); reflexivity.
Qed.

Lemma typing_users_snoc (me : option IUser) (events : list (IUser * bool))
    (ev : IUser * bool) :
  typing_users me (events ++ [ev])
  = handleTyping me (fst ev) (snd ev) (typing_users me events).
Proof. unfold typing_users. rewrite fold_left_app. reflexivity. Qed.

Lemma elem_of_ids_filter (i j : Z) (l : list IUser) :
  i ∈ map user_id (filter (fun u => user_id u <> j) l) <-> i <> j /\ i ∈ map user_id l.
Proof.
  change (map user_id) with (fmap (M:=list) user_id).
  rewrite !list_elem_of_fmap. split.
  - intros (u & -> & Hu). apply list_elem_of_filter in Hu as [Hne Hu].
    split; [exact Hne|]. exists u. split; [reflexivity|exact Hu].
  - intros (Hne & u & -> & Hu). exists u. split; [reflexivity|].
    apply list_elem_of_filter. split; assumption.
Qed.

Lemma handleTyping_NoDup (me : option IUser) (u : IUser) (b : bool) (prev : list IUser) :
  NoDup (map user_id prev) -> NoDup (map user_id (handleTyping me u b prev)).
Proof.
  intros Hprev. unfold handleTyping.
  assert (Hf : NoDup (map user_id (filter (fun x => user_id x <> user_id u) prev))).
  { eapply sublist_NoDup; [exact Hprev|].
    apply (fmap_sublist user_id), sublist_filter. }
  destruct (bool_decide _); [exact Hprev|].
  destruct b; [|exact Hf].
  rewrite map_app. apply list.NoDup_app. split; [exact Hf|]. split.
  - intros i Hi Hu. simpl in Hu. apply list_elem_of_singleton in Hu. subst i.
    apply elem_of_ids_filter in Hi as [Hne _]. congruence.
  - simpl. apply list.NoDup_singleton.
Qed.

(** X16. After any sequence of typing events, [typingUsers] lists exactly
    the users whose latest event said that they are typing, each once, and
    never the current user: a user is listed if and only if the last event
    about their id had the flag [true] and their id is not the current
    user's. *)
Theorem typing_indicator_follows_last_event (me : option IUser)
    (events : list (IUser * bool)) :
  NoDup (map user_id (typing_users me events))
  /\ forall i,
       i ∈ map user_id (typing_users me events)
       <-> last_flag i events = Some true /\ optional_id me <> Some i.
Proof.
  induction events as [|ev events [IHn IHm]] using rev_ind.
  - split; [constructor|]. intros i. simpl. split.
    + intros H. inversion H.
    + intros [H _]. discriminate.
  - rewrite typing_users_snoc. split; [apply handleTyping_NoDup, IHn|].
    intros i. rewrite last_flag_snoc.
    destruct ev as [u b]. simpl. unfold handleTyping.
    destruct (bool_decide (Some (user_id u) = optional_id me)) eqn:Hme.
    + apply bool_decide_eq_true_1 in Hme. rewrite IHm.
      destruct (Z.eqb_spec (user_id u) i) as [<-|Hne]; [|reflexivity].
      split; [intros [_ H]; congruence|intros [_ H]; congruence].
    + apply bool_decide_eq_false_1 in Hme.
      destruct b.
      * rewrite map_app, elem_of_app, elem_of_ids_filter, IHm. simpl.
        rewrite list_elem_of_singleton.
        destruct (Z.eqb_spec (user_id u) i) as [<-|Hne].
        { split; [intros _; split; [reflexivity|congruence]|intros _; right; reflexivity]. }
        { split; [intros [[_ H]|H]; [exact H|congruence]
                 |intros H; left; split; [congruence|exact H]]. }
      * rewrite elem_of_ids_filter, IHm.
        destruct (Z.eqb_spec (user_id u) i) as [<-|Hne].
        { split; [intros [H _]; congruence|intros [H _]; discriminate]. }
        { split; [intros [_ H]; exact H|intros H; split; [congruence|exact H]]. }
Qed.

(** *** The conversation list (ChatsPage.handleConversationUpdated) *)

(** X17. [handleConversationUpdated] replaces entries in place: the list
    keeps its length, its order and its ids; every entry with the id of the
    updated conversation is the updated conversation; the entries with
    another id are untouched; and when no entry has that id the list is
    unchanged (the conversation is not added). *)
Theorem conversation_update_in_place (u : IConversation) (prev : list IConversation) :
  let next := handleConversationUpdated u prev in
  map conv_id next = map conv_id prev
  /\ Forall (fun c => conv_id c = conv_id u -> c = u) next
  /\ filter (fun c => conv_id c <> conv_id u) next
     = filter (fun c => conv_id c <> conv_id u) prev
  /\ (conv_id u ∉ map conv_id prev -> next = prev).
Proof.
  unfold handleConversationUpdated. cbv zeta. split; [|split; [|split]].
  - induction prev as [|c prev IH]; [reflexivity|]. simpl. rewrite IH.
    destruct (Z.eqb_spec (conv_id c) (conv_id u)) as [E|_]; [rewrite E|]; reflexivity.
  - induction prev as [|c prev IH]; [constructor|]. simpl. constructor; [|exact IH].
    destruct (Z.eqb_spec (conv_id c) (conv_id u)); [reflexivity|congruence].
  - induction prev as [|c prev IH]; [reflexivity|]. simpl.
    destruct (Z.eqb_spec (conv_id c) (conv_id u)) as [E|E].
    + rewrite !filter_cons_False by (intros H; apply H; congruence). exact IH.
    + rewrite !filter_cons_True by exact E. f_equal. exact IH.
  - induction prev as [|c prev IH]; [reflexivity|]. simpl. intros Hnot.
    rewrite not_elem_of_cons in Hnot. destruct Hnot as [Hne Hnot].
    destruct (Z.eqb_spec (conv_id c) (conv_id u)) as [E|_]; [congruence|].
    f_equal. apply IH, Hnot.
Qed.

(** *** Tokens (lib/AuthContext, lib/auth) *)

Lemma getItem_setItem (k k' : string) (v : jsstring) (s : Storage) :
  getItem k' (setItem k v s) = if decide (js k' = js k) then Some v else getItem k' s.
Proof. reflexivity. Qed.

Lemma getItem_removeItem (k k' : string) (s : Storage) :
  getItem k' (removeItem k s) = if decide (js k' = js k) then None else getItem k' s.
Proof. reflexivity. Qed.

Lemma getItem_keep (k k' : string) (v : option jsstring) (s : Storage) :
  getItem k' (AuthContext.keep k v s)
  = if decide (js k' = js k) then (if truthy_string v then v else None)
    else getItem k' s.
Proof.
  unfold AuthContext.keep. destruct v as [[|c x]|]; simpl;
    rewrite ?getItem_setItem, ?getItem_removeItem; destruct (decide _); reflexivity.
Qed.

(** X18. Tokens survive a page load only as a pair.  After
    [setTokens access refresh], a reload (first render, then the mount
    effect) finds the session again, with the same two tokens, exactly when
    both were non-empty strings; if either was [null] or empty, the reload
    starts with no token at all and unauthenticated, whatever the other
    was. *)
Theorem tokens_survive_reload_as_a_pair (access refresh : option jsstring)
    (st : AuthContext.State) :
  let st' := AuthContext.reload (AuthContext.setTokens access refresh st) in
  (truthy_string access && truthy_string refresh = true ->
   AuthContext.accessToken st' = access /\ AuthContext.refreshToken st' = refresh
   /\ AuthContext.isAuthenticated st' = true)
  /\ (truthy_string access && truthy_string refresh = false ->
      AuthContext.accessToken st' = None /\ AuthContext.refreshToken st' = None
      /\ AuthContext.isAuthenticated st' = false).
Proof.
  intros st'. unfold st', AuthContext.reload, AuthContext.restore, AuthContext.initial,
    AuthContext.setTokens, AuthContext.isAuthenticated. simpl.
  rewrite !getItem_keep.
  rewrite (decide_False (P := js "accessToken" = js "refreshToken")) by discriminate.
  rewrite !decide_True by reflexivity.
  destruct access as [[|a0 a]|], refresh as [[|r0 r]|]; simpl; split; intros H;
    try discriminate; repeat split.
Qed.

(** X19. [logout] ends the session once the request to the server has
    settled, whatever its outcome (success, failure, a token refresh on the
    way), and at once when no refresh token is stored: then both tokens and
    the user are [null] in the state, neither token is in [localStorage],
    and a reload stays unauthenticated.  While the request is pending
    nothing is cleared: the tokens and the user in the state are the ones
    before, and the page is authenticated as it was. *)
Theorem logout_clears_session_once_settled (post : jsstring -> Storage -> Auth.Request)
    (st : AuthContext.State) :
  let st' := AuthContext.logout post st in
  let stored := getItem "refreshToken" (AuthContext.localStorage st) in
  (truthy_string stored = false
   \/ (exists refresh s1,
         stored = Some refresh
         /\ post refresh (AuthContext.localStorage st) = Auth.Settled s1) ->
   AuthContext.accessToken st' = None /\ AuthContext.refreshToken st' = None
   /\ AuthContext.user st' = None /\ AuthContext.isAuthenticated st' = false
   /\ getItem "accessToken" (AuthContext.localStorage st') = None
   /\ getItem "refreshToken" (AuthContext.localStorage st') = None
   /\ AuthContext.isAuthenticated (AuthContext.reload st') = false)
  /\ (forall refresh s1,
        stored = Some refresh -> refresh <> [] ->
        post refresh (AuthContext.localStorage st) = Auth.Pending s1 ->
        AuthContext.accessToken st' = AuthContext.accessToken st
        /\ AuthContext.refreshToken st' = AuthContext.refreshToken st
        /\ AuthContext.user st' = AuthContext.user st
        /\ AuthContext.localStorage st' = s1
        /\ AuthContext.isAuthenticated st' = AuthContext.isAuthenticated st).
Proof.
  cbv zeta. unfold AuthContext.logout, Auth.logout. split.
  - intros [Hnone|(refresh & s1 & Hsome & Hpost)].
    + destruct (getItem "refreshToken" (AuthContext.localStorage st)) as [[|c r]|];
        try discriminate; repeat split.
    + rewrite Hsome. destruct refresh as [|c r]; [repeat split|].
      simpl. rewrite Hpost. repeat split.
  - intros refresh s1 Hsome Hne Hpost. rewrite Hsome.
    destruct refresh as [|c r]; [congruence|]. simpl. rewrite Hpost. repeat split.
Qed.

Lemma logout_clears_session_once_settled_witness :
  AuthContext.isAuthenticated
    (AuthContext.logout (fun _ s => Auth.Settled s) signed_in) = false
  /\ AuthContext.isAuthenticated
       (AuthContext.logout (fun _ s => Auth.Pending s) signed_in) = true.
Proof.
  split.
  - refine (proj1 (proj2 (proj2 (proj2
      (proj1 (logout_clears_session_once_settled (fun _ s => Auth.Settled s) signed_in)
         _))))).
    right. exists (js "R"), (AuthContext.localStorage signed_in).
    split; reflexivity.
  - refine (eq_trans (proj2 (proj2 (proj2 (proj2
      (proj2 (logout_clears_session_once_settled (fun _ s => Auth.Pending s) signed_in)
         (js "R") (AuthContext.localStorage signed_in) eq_refl _ eq_refl))))) eq_refl).
    discriminate.
Defined.

(** *** Member selection (NewGroupChatModal) *)

(** X20. Selecting a user that is offered and removing a user keep the
    selection free of duplicates and apart from the users still offered;
    and removing a user just selected gives back the selection as it
    was. *)
Theorem member_selection_stays_separate (st : NewGroupChatModal.State) :
  separate st ->
  (forall u, u ∈ NewGroupChatModal.users st ->
             separate (NewGroupChatModal.handleUserSelect u st))
  /\ (forall u, separate (NewGroupChatModal.handleUserRemove u st))
  /\ (forall u, u ∈ NewGroupChatModal.users st ->
        NewGroupChatModal.selectedUsers
          (NewGroupChatModal.handleUserRemove u (NewGroupChatModal.handleUserSelect u st))
        = NewGroupChatModal.selectedUsers st).
Proof.
  intros [Hnd Hsep]. split; [|split].
  - intros u Hu. split; simpl.
    + rewrite map_app. apply list.NoDup_app. split; [exact Hnd|]. split.
      * intros i Hi Hi'. simpl in Hi'. apply list_elem_of_singleton in Hi'. subst i.
        apply (Hsep (user_id u)); [|exact Hi].
        apply (list_elem_of_fmap_2 user_id), Hu.
      * simpl. apply list.NoDup_singleton.
    + intros i Hi. apply elem_of_ids_filter in Hi as [Hne Hi].
      rewrite map_app, elem_of_app. simpl. rewrite list_elem_of_singleton.
      intros [Hin|Heq]; [exact (Hsep i Hi Hin)|congruence].
  - intros u. split; simpl.
    + eapply sublist_NoDup; [exact Hnd|].
      apply (fmap_sublist user_id), sublist_filter.
    + intros i Hi. rewrite map_app, elem_of_app in Hi. simpl in Hi.
      rewrite list_elem_of_singleton in Hi. rewrite elem_of_ids_filter.
      intros [Hne Hin]. destruct Hi as [Hi|Hi]; [exact (Hsep i Hi Hin)|congruence].
  - intros u Hu. simpl.
    rewrite list.filter_app, filter_cons_False by (intros Hne; apply Hne; reflexivity).
    rewrite filter_nil, app_nil_r. apply filter_all.
    apply Forall_forall. intros x Hx Heq.
    apply (Hsep (user_id u)).
    + apply (list_elem_of_fmap_2 user_id), Hu.
    + rewrite <- Heq. apply (list_elem_of_fmap_2 user_id), list_elem_of_In, Hx.
Qed.

Lemma member_selection_stays_separate_witness :
  separate (NewGroupChatModal.handleUserSelect bob picking)
  /\ NewGroupChatModal.selectedUsers
       (NewGroupChatModal.handleUserRemove bob (NewGroupChatModal.handleUserSelect bob picking))
     = [].
Proof.
  assert (H : separate picking).
  { split; [constructor|]. intros i _ Hin. inversion Hin. }
  pose proof (member_selection_stays_separate picking H) as (Hsel & _ & Hback).
  split.
  - apply Hsel. apply list_elem_of_here.
  - apply Hback. apply list_elem_of_here.
Defined.

(** X21. [handleCreateGroup] asks the server for a group exactly when the
    local user is known with a non-zero id, at least one member is
    selected, and the group name is not blank; the name it sends is the
    trimmed name and the members are the ids of the selected users, in
    order.  In every other case it only sets an error. *)
Theorem group_creation_validated (me : option IUser) (st : NewGroupChatModal.State)
    (name : jsstring) (members : list Z) :
  NewGroupChatModal.handleCreateGroup me st = NewGroupChatModal.Create name members
  <-> (exists u, me = Some u /\ user_id u <> 0)
      /\ NewGroupChatModal.selectedUsers st <> []
      /\ trim (NewGroupChatModal.groupName st) <> []
      /\ name = trim (NewGroupChatModal.groupName st)
      /\ members = map user_id (NewGroupChatModal.selectedUsers st).
Proof.
  unfold NewGroupChatModal.handleCreateGroup, optional_id.
  destruct me as [u|]; simpl.
  - destruct (Z.eqb_spec (user_id u) 0) as [E|E]; simpl.
    + split; [discriminate|]. intros ((u' & Hu & Hne) & _). congruence.
    + destruct (NewGroupChatModal.selectedUsers st) as [|x l]; simpl.
      * split; [discriminate|]. intros (_ & H & _). congruence.
      * destruct (trim (NewGroupChatModal.groupName st)) as [|c t] eqn:Et.
        { split; [discriminate|]. intros (_ & _ & H & _). congruence. }
        split.
        { intros H. injection H as <- <-. repeat split; try discriminate. eauto. }
        { intros (_ & _ & _ & -> & ->). reflexivity. }
  - split; [discriminate|]. intros ((u' & Hu & _) & _). discriminate.
Qed.

(** *** Input signals (ChatsPage, the input's onChange and handleTypingStart) *)

Lemma handleTypingStart_text (text : jsstring) (l : list TypingCall) :
  keeps (fun w => newMessage w = text /\ typing_calls w = l) handleTypingStart.
Proof.
  unfold handleTypingStart. unfold_prims. repeat keeps_step;
    apply keeps_write; intros ? [? ?]; repeat case_match; simpl; split; assumption.
Qed.

(** X22. In every reachable world where the page is mounted, an input
    signal records the text and calls [sendTyping] for nobody yet.  With a
    conversation selected and the user known it leaves exactly two typing
    timers pending, whatever was pending before: the debounce timer, due
    500 ms later, and the stop timer, due 2000 ms later, both for the
    conversation and the user of that moment, and the two refs hold their
    identifiers.  With no conversation selected or no user known it
    schedules nothing. *)
Theorem input_rearms_typing_timers (es : list Event) (text : jsstring) :
  let w := run es initial in
  mounted w = true ->
  let w' := step w (Input text) in
  newMessage w' = text
  /\ typing_calls w' = typing_calls w
  /\ (forall conv u,
        selectedConversation w = Some conv -> user w = Some u ->
        filter is_typing_timer (timers w')
        = [{| timer_id := next_timer w; due := clock w + 500;
              callback := TypingCb conv u true |};
           {| timer_id := Pos.succ (next_timer w); due := clock w + 2000;
              callback := TypingCb conv u false |}]
        /\ typingDebounceRef w' = Some (next_timer w)
        /\ typingTimeoutRef w' = Some (Pos.succ (next_timer w)))
  /\ (selectedConversation w = None \/ user w = None -> timers w' = timers w).
Proof.
  intros w Hm w'.
  assert (Hok : queue_ok w) by apply queue_ok_run, queue_ok_initial.
  assert (Hw' : w' = world_of (handleTypingStart (set_newMessage text w))).
  { unfold w'. rewrite (step_Input text w Hm). apply run_task_returns. nt_solve. }
  pose proof (handleTypingStart_text text (typing_calls w) (set_newMessage text w)
                (conj eq_refl eq_refl)) as [Htext Hcalls].
  rewrite <- Hw' in Htext, Hcalls.
  split; [exact Htext|]. split; [exact Hcalls|]. split.
  - intros conv u Hsel Hu.
    destruct (input_arms conv u text w Hok Hm Hsel Hu) as (_ & Hq & _).
    split; [exact Hq|].
    destruct (handleTypingStart_schedules conv u (set_newMessage text w) Hsel Hu)
      as (w2 & Hrun & _ & Hd & Ho & _).
    rewrite Hw', Hrun. split; [exact Hd|exact Ho].
  - intros Hnone. rewrite Hw'. unfold handleTypingStart. unfold_m. simpl.
    destruct Hnone as [H|H]; rewrite H; [reflexivity|].
    destruct (selectedConversation w); reflexivity.
Qed.

Lemma input_rearms_typing_timers_witness :
  let w' := run [Input (js "h"); Tick 100; Input (js "he")] opened42 in
  newMessage w' = js "he"
  /\ filter is_typing_timer (timers w')
     = [{| timer_id := 3; due := 600; callback := TypingCb chat42 alice true |};
        {| timer_id := 4; due := 2100; callback := TypingCb chat42 alice false |}].
Proof.
  pose proof (input_rearms_typing_timers
                (opening42 ++ [Input (js "h"); Tick 100]) (js "he") eq_refl)
    as (Htext & _ & Harm & _).
  split; [exact Htext|].
  exact (proj1 (Harm chat42 alice eq_refl eq_refl)).
Defined.

(** *** The message list (ChatsPage, handleNewMessage and loadMessages) *)

Lemma messages_since (events : list MessagesEvent) :
  no_load events ->
  forall prev, fold_left messages_step events prev = prev ++ received events.
Proof.
  induction 1 as [|e events He _ IH]; intros prev; simpl.
  - rewrite app_nil_r. reflexivity.
  - rewrite IH. destruct e as [[data|]|m]; simpl.
    + exfalso. exact (He data eq_refl).
    + reflexivity.
    + unfold handleNewMessage. rewrite <- app_assoc. reflexivity.
Qed.

(** X23. With no answered load, [messages] is the messages the hook handed
    over, in order. After a load that answered it is the answer followed by
    the messages handed over since: what was in the list before, messages
    received while the request was pending included, is dropped. A failed
    load changes nothing. *)
Theorem message_list_is_history_then_live :
  (forall events, no_load events -> messages_after events = received events)
  /\ (forall before data after,
        no_load after ->
        messages_after (before ++ LoadMessages (Some data) :: after)
        = data ++ received after).
Proof.
  split.
  - intros events H. unfold messages_after. rewrite (messages_since events H). reflexivity.
  - intros before data after H. unfold messages_after.
    rewrite fold_left_app. simpl. apply messages_since, H.
Qed.

(** *** Opening, failing and recovering (useWebSocket, onopen and onerror) *)

Lemma deliver_open_runs (s : nat) (sock : WebSocket) (w : World) :
  sockets w !! s = Some sock -> readyState sock = CONNECTING ->
  deliver_open s w =
    Returns tt
      (set_connectionError None
         (set_isConnected true
            (set_console (console w ++ [LogConnected])
               (set_sockets (<[s := set_readyState OPEN sock]> (sockets w)) w)))).
Proof.
  intros Hs Hst. unfold deliver_open, onopen. unfold_m. simpl.
  rewrite Hs. simpl. rewrite Hst. simpl. rewrite Hs. reflexivity.
Qed.

Lemma connection_is_handleTypingStart socks ref connected err :
  keeps (connection_is socks ref connected err) handleTypingStart.
Proof.
  unfold handleTypingStart. unfold_prims. repeat keeps_step;
    apply keeps_write; intros ? [? ? ? ?]; repeat case_match; split; simpl; assumption.
Qed.

Lemma page_state_handleTypingStart (text : jsstring) (sel : option IConversation)
    (usr : option IUser) :
  keeps (fun w => newMessage w = text /\ selectedConversation w = sel /\ user w = usr
                  /\ mounted w = true) handleTypingStart.
Proof.
  unfold handleTypingStart. unfold_prims. repeat keeps_step;
    apply keeps_write; intros ? (? & ? & ? & ?); repeat case_match; simpl;
    repeat split; assumption.
Qed.

Lemma handleSendMessage_sends (w : World) (s : nat) (sock : WebSocket) (u : IUser)
    (conv : IConversation) :
  trim (newMessage w) <> [] -> selectedConversation w = Some conv ->
  wsRef w = Some s -> sockets w !! s = Some sock -> readyState sock = OPEN ->
  user w = Some u ->
  handleSendMessage w =
    Returns tt
      (set_newMessage []
         (set_sockets
            (<[s := push_sent (chat_message_frame (trim (newMessage w)) (user_id u)) sock]>
               (sockets w)) w)).
Proof.
  intros Htext Hsel Hws Hsock Hopen Hu.
  unfold handleSendMessage. unfold_m. simpl. rewrite Hsel, Hu.
  destruct (trim (newMessage w)) as [|c t] eqn:E; [congruence|].
  rewrite (sendMessage_open w _ s sock u Hws Hsock Hopen). reflexivity.
Qed.

(** X24. When the current socket opens the hook reports connected with no
    error; text typed and sent after that goes out on that socket as exactly
    one [chat_message] frame carrying the trimmed text and the user's id, and
    the input is emptied. *)
Theorem message_sent_once_open (w : World) (s : nat) (sock : WebSocket) (u : IUser)
    (conv : IConversation) (text : jsstring) :
  mounted w = true -> selectedConversation w = Some conv -> user w = Some u ->
  wsRef w = Some s -> sockets w !! s = Some sock -> readyState sock = CONNECTING ->
  trim text <> [] ->
  let w1 := step w (SocketOpen s) in
  let w3 := run [Input text; Send] w1 in
  isConnected w1 = true /\ connectionError w1 = None
  /\ sockets w1 = <[s := set_readyState OPEN sock]> (sockets w)
  /\ sockets w3
     = <[s := push_sent (chat_message_frame (trim text) (user_id u))
                (set_readyState OPEN sock)]> (sockets w)
  /\ newMessage w3 = [].
Proof.
  intros Hm Hsel Hu Hws Hsock Hst Htext w1 w3.
  assert (Hw1 : w1 = set_connectionError None
                       (set_isConnected true
                          (set_console (console w ++ [LogConnected])
                             (set_sockets (<[s := set_readyState OPEN sock]> (sockets w)) w)))).
  { unfold w1, step, run_task, handle. rewrite (deliver_open_runs s sock w Hsock Hst).
    reflexivity. }
  assert (Hlt : (s < length (sockets w))%nat) by (eapply lookup_lt_Some; exact Hsock).
  split; [rewrite Hw1; reflexivity|]. split; [rewrite Hw1; reflexivity|].
  split; [rewrite Hw1; reflexivity|].
  set (w2 := step w1 (Input text)).
  assert (Hm1 : mounted w1 = true) by (rewrite Hw1; exact Hm).
  assert (Hw2 : w2 = world_of (handleTypingStart (set_newMessage text w1))).
  { unfold w2. rewrite (step_Input text w1 Hm1). apply run_task_returns. nt_solve. }
  assert (Hc2 : connection_is (<[s := set_readyState OPEN sock]> (sockets w)) (Some s)
                  true None w2).
  { rewrite Hw2. apply connection_is_handleTypingStart.
    rewrite Hw1. split; simpl; try reflexivity. exact Hws. }
  assert (Hp2 : newMessage w2 = text /\ selectedConversation w2 = Some conv
                /\ user w2 = Some u /\ mounted w2 = true).
  { rewrite Hw2. apply page_state_handleTypingStart.
    rewrite Hw1. simpl. repeat split; assumption. }
  destruct Hc2 as [Hs2 Hr2 _ _]. destruct Hp2 as (Ht2 & Hsel2 & Hu2 & Hm2).
  assert (Hw3 : w3 = world_of (handleSendMessage w2)).
  { change w3 with (step w2 Send). unfold step.
    rewrite (run_task_returns _ w2 (nt_handle Send)).
    unfold handle, guarded. rewrite Hm2. reflexivity. }
  assert (Hlook : sockets w2 !! s = Some (set_readyState OPEN sock)).
  { rewrite Hs2. apply list_lookup_insert_eq. exact Hlt. }
  rewrite Hw3.
  rewrite (handleSendMessage_sends w2 s (set_readyState OPEN sock) u conv);
    try assumption; try reflexivity; [|rewrite Ht2; exact Htext].
  simpl. rewrite Hs2, Ht2. split; [|reflexivity].
  apply list_insert_insert_eq.
Qed.

Lemma message_sent_once_open_witness :
  trim (js " hi ") <> []
  /\ newMessage (run [Input (js " hi "); Send] (step selected42 (SocketOpen 0%nat))) = [].
Proof.
  assert (H : trim (js " hi ") <> []) by (vm_compute; discriminate).
  split; [exact H|].
  assert (Hm : mounted selected42 = true) by (vm_compute; reflexivity).
  assert (Hsel : selectedConversation selected42 = Some chat42) by (vm_compute; reflexivity).
  assert (Hu : user selected42 = Some alice) by (vm_compute; reflexivity).
  assert (Hws : wsRef selected42 = Some 0%nat) by (vm_compute; reflexivity).
  assert (Hs : sockets selected42 !! 0%nat = Some (fresh_socket 42 (js "T")))
    by (vm_compute; reflexivity).
  pose proof (message_sent_once_open selected42 0 (fresh_socket 42 (js "T")) alice chat42
                (js " hi ") Hm Hsel Hu Hws Hs eq_refl H) as P.
  cbv zeta in P. exact (proj2 (proj2 (proj2 (proj2 P)))).
Defined.

Lemma deliver_error_runs (s : nat) (k : WebSocket) (w : World) :
  sockets w !! s = Some k -> readyState k <> CLOSED ->
  deliver_error s w =
    Returns tt
      (set_isConnected false
         (set_connectionError (Some (js "Connection failed"))
            (set_console (console w ++ [LogWebSocketError]) w))).
Proof.
  intros Hk Hst. unfold deliver_error, onerror. unfold_m. simpl. rewrite Hk. simpl.
  destruct (readyState k); try congruence; reflexivity.
Qed.

Lemma close_current_status code w :
  isConnected (close_current code w) = isConnected w
  /\ connectionError (close_current code w) = connectionError w.
Proof. unfold close_current. repeat case_match; split; reflexivity. Qed.

(** The page's indicators across one failure and the retry. *)
Lemma reconnect_round_status (cid : Z) (tok : jsstring) (s : nat) (code : Z) (w : World) :
  cid <> 0 -> tok <> [] -> has_fragment tok = false -> code <> 1000 ->
  awaiting cid tok s w ->
  let w1 := step w (SocketClose s code) in
  let w2 := step w1 (Tick 3000) in
  (isConnected w1 = false /\ connectionError w1 = connectionError w)
  /\ (isConnected w2 = false /\ connectionError w2 = connectionError w).
Proof.
  intros Hcid Htok Hurl Hcode (Hws & Hlen & (k & Hk & Hst & <- & <-) & Hq).
  cbv zeta.
  change (step (step w (SocketClose s code)) (Tick 3000))
    with (tick 3000 (step w (SocketClose s code))).
  set (w1 := step w (SocketClose s code)).
  assert (Hw1 : w1 = set_reconnectTimeoutRef (Some (next_timer w))
              (set_next_timer (Pos.succ (next_timer w))
                 (set_timers
                    [{| timer_id := next_timer w; due := clock w + 3000;
                        callback := ReconnectCb (Some (url_conversation k))
                                                (Some (url_token k)) |}]
                    (set_isConnected false
                       (set_console (console w ++ [LogDisconnected code])
                          (set_sockets (<[s := set_readyState CLOSED k]> (sockets w))
                             w)))))).
  { unfold w1, step, handle, run_task.
    rewrite (deliver_close_runs s k code w Hk Hst). cbv zeta.
    destruct (Z.eqb_spec code 1000) as [|_]; [contradiction|].
    rewrite Hq. reflexivity. }
  clearbody w1. subst w1.
  split; [split; reflexivity|].
  erewrite tick_single; [|reflexivity|simpl; lia].
  match goal with
  | |- context [set_clock ?c (set_timers [] ?x)] =>
      set (X := set_clock c (set_timers [] x))
  end.
  simpl callback. unfold fire, run_task.
  rewrite (connect_opens _ _ X Hcid Htok Hurl). cbv zeta.
  destruct (close_current_status None X) as [H1 H2].
  simpl. rewrite H1, H2. split; reflexivity.
Qed.

(** X25. An error followed by an abnormal close of the current socket leaves
    the hook disconnected with the message "Connection failed". The retry
    3000 ms later opens a fresh socket for the same conversation and token
    (those of a socket [connect] created, so the constructor accepts the
    URL again), and the message stays until that socket opens; then the
    hook is connected and the message is cleared. *)
Theorem failure_then_recovery (cid : Z) (tok : jsstring) (s : nat) (code : Z) (w : World) :
  cid <> 0 -> tok <> [] -> has_fragment tok = false -> code <> 1000 ->
  awaiting cid tok s w ->
  let failed := run [SocketError s; SocketClose s code] w in
  let retried := step failed (Tick 3000) in
  let recovered := step retried (SocketOpen (S s)) in
  (isConnected failed = false /\ connectionError failed = Some (js "Connection failed"))
  /\ (isConnected retried = false
      /\ connectionError retried = Some (js "Connection failed")
      /\ wsRef retried = Some (S s)
      /\ sockets retried !! S s = Some (fresh_socket cid tok))
  /\ (isConnected recovered = true /\ connectionError recovered = None
      /\ wsRef recovered = Some (S s)
      /\ sockets recovered !! S s = Some (set_readyState OPEN (fresh_socket cid tok))).
Proof.
  intros Hcid Htok Hurl Hcode Hw. cbv zeta.
  set (w0 := step w (SocketError s)).
  change (run [SocketError s; SocketClose s code] w) with (step w0 (SocketClose s code)).
  destruct Hw as (Hws & Hlen & (k & Hk & Hst & Hc & Ht) & Hq).
  assert (Hw0 : w0 = set_isConnected false
                       (set_connectionError (Some (js "Connection failed"))
                          (set_console (console w ++ [LogWebSocketError]) w))).
  { unfold w0, step, handle, run_task. rewrite (deliver_error_runs s k w Hk Hst).
    reflexivity. }
  assert (Ha : awaiting cid tok s w0).
  { rewrite Hw0. unfold awaiting. simpl. repeat split; try assumption.
    exists k. repeat split; assumption. }
  destruct (reconnect_round_status cid tok s code w0 Hcid Htok Hurl Hcode Ha)
    as ((Hi1 & He1) & (Hi2 & He2)).
  destruct (reconnect_round cid tok s code w0 Hcid Htok Hurl Hcode Ha) as (Ha2 & _ & Hs2).
  change (run [SocketClose s code; Tick 3000] w0)
    with (step (step w0 (SocketClose s code)) (Tick 3000)) in Ha2, Hs2.
  set (w1 := step w0 (SocketClose s code)) in *.
  set (w2 := step w1 (Tick 3000)) in *.
  assert (He0 : connectionError w0 = Some (js "Connection failed"))
    by (rewrite Hw0; reflexivity).
  rewrite He0 in He1, He2.
  destruct Ha2 as (Hws2 & Hlen2 & _ & _).
  split; [split; assumption|].
  split; [repeat split; assumption|].
  assert (Hw3 : step w2 (SocketOpen (S s))
                = set_connectionError None
                    (set_isConnected true
                       (set_console (console w2 ++ [LogConnected])
                          (set_sockets
                             (<[S s := set_readyState OPEN (fresh_socket cid tok)]>
                                (sockets w2)) w2)))).
  { unfold step, handle, run_task.
    rewrite (deliver_open_runs (S s) (fresh_socket cid tok) w2 Hs2 eq_refl). reflexivity. }
  rewrite Hw3. simpl.
  split; [reflexivity|]. split; [reflexivity|]. split; [exact Hws2|].
  apply list_lookup_insert_eq. eapply lookup_lt_Some. exact Hs2.
Qed.

Lemma failure_then_recovery_witness :
  awaiting 42 (js "T") 0 opened42
  /\ isConnected
       (step (step (run [SocketError 0%nat; SocketClose 0%nat 1006] opened42) (Tick 3000))
          (SocketOpen 1%nat)) = true.
Proof.
  assert (H : awaiting 42 (js "T") 0 opened42).
  { unfold awaiting. vm_compute. repeat split; try reflexivity.
    eexists. repeat split; try reflexivity. discriminate. }
  split; [exact H|].
  pose proof (failure_then_recovery 42 (js "T") 0 1006 opened42 ltac:(lia)
                ltac:(discriminate) eq_refl ltac:(lia) H) as P.
  cbv zeta in P. exact (proj1 (proj2 (proj2 P))).
Defined.

(** *** The end-to-end scenarios of the specification *)

(** Scenario A: conversation 42 selected with token T, the socket opens, the
    user types "hi" and sends it. *)
Example scenario_A :
  (sent <$> sockets (run [Input (js "hi"); Send] opened42) !! 0%nat)
  = Some [chat_message_frame (js "hi") 7].
Proof. vm_compute. reflexivity. Qed.

(** Scenario B: an inbound typing frame from user 3 calls the typing
    callback once. *)
Example scenario_B :
  ui_calls
    (step opened42
       (SocketMessage 0%nat
          (WellFormed (JObj [(js "type", JStr (js "typing")); (js "user", user_json bob);
                             (js "is_typing", JBool true)]))))
  = [OnTyping (user_json bob) (JBool true)].
Proof. vm_compute. reflexivity. Qed.

(** Scenario C: the socket closes with code 1006; 2999 ms later nothing has
    happened, and at 3000 ms one new socket exists for the same conversation
    and token. *)
Example scenario_C :
  let closed := step opened42 (SocketClose 0%nat 1006) in
  length (sockets (tick 2999 closed)) = 1%nat
  /\ sockets (tick 3000 closed) !! 1%nat = Some (fresh_socket 42 (js "T"))
  /\ length (sockets (tick 60000 closed)) = 2%nat.
Proof. vm_compute. repeat split. Qed.

Example trim_example : trim (js "  hi there ") = js "hi there".
Proof. vm_compute. reflexivity. Qed.
